(** * Battery-management backend: rental lifecycle, payment ledger and
      credit-rating engine

    A shallow embedding of the Express/Prisma route handlers of
    [backend/src/routes/{inventory,customers,rentals,payments}.ts].

    Modelling conventions.
    - The four relations (Battery, Customer, Rental, Payment) are lists of
      rows in insertion order; [prisma.x.findUnique] is the first row with the
      key, [prisma.x.update] rewrites the rows with the key and throws when
      there is none, [prisma.x.create] appends and throws on a primary-key
      clash.
    - The audit columns [createdAt], [updatedAt] and [dateAdded] are not
      modelled; no handler reads them.
    - A price or an amount is a JavaScript number, an IEEE binary64 double
      ([float]): [Number(x)] and [parseFloat(x)] of a JSON number are that
      number, [+] and [>=] are the binary64 operations. A [Decimal(10,2)]
      column holds the double it was given, which is what it does for a
      number with at most two decimals below 10^8 ([Decimal_10_2]); a number
      that the column would round or refuse is outside the model, and a
      statement that depends on the stored value assumes [Decimal_10_2].
    - A [Date] is its [getTime()] value, an integer number of milliseconds
      ([Z]), and the rental duration is the floor of an integer quotient.
    - The credit rating is computed on exact rationals ([Q]) from the integer
      counts; [creditRating_f64_agrees] shows that the binary64 computation
      gives the same rating for up to 200 rentals.
    - A request body field is [option X]: [None] is [undefined]; a numeric
      field is a JSON number. JavaScript truthiness is written out per type
      ([truthy_string], [truthy_number], [truthy_date]).
    - [uuid()] and [now()] of the schema defaults are inputs of the
      operation that inserts a row.
    - A handler is a function from the database to a response and the next
      database; [prisma.$transaction] commits all the writes of its body or
      none of them. In [reachable] the requests are handled one at a time;
      [overlapping] lets a Create Rental make its checks, wait, and run its
      transaction later. *)

From Stdlib Require Import ZArith QArith Qround List String Bool Lia.
From Stdlib Require Import Floats.PrimFloat Numbers.Cyclic.Int63.Uint63.
Import ListNotations.

Local Open Scope Z_scope.

(** ** Data model (prisma/schema.prisma) *)

(** Identifiers are the strings [uuid()] yields. *)
Abbreviation Id := string (only parsing).

Inductive Status := AVAILABLE | RENTED | MAINTENANCE.

Inductive PaymentMethod := CASH | MOBILE_MONEY | BANK_TRANSFER.

Definition Status_eqb (a b : Status) : bool :=
  match a, b with
  | AVAILABLE, AVAILABLE | RENTED, RENTED | MAINTENANCE, MAINTENANCE => true
  | _, _ => false
  end.

Module Battery.
Record t := mk
  { id : Id; serialNumber : string; price : float; status : Status }.

Definition set_serialNumber (s : string) (b : t) : t :=
  mk (id b) s (price b) (status b).
Definition set_price (p : float) (b : t) : t :=
  mk (id b) (serialNumber b) p (status b).
Definition set_status (s : Status) (b : t) : t :=
  mk (id b) (serialNumber b) (price b) s.
End Battery.

Module Customer.
Record t := mk
  { id : Id; name : string; phoneNumber : string; address : string;
    creditRating : Z }.

Definition set_name (s : string) (c : t) : t :=
  mk (id c) s (phoneNumber c) (address c) (creditRating c).
Definition set_phoneNumber (s : string) (c : t) : t :=
  mk (id c) (name c) s (address c) (creditRating c).
Definition set_address (s : string) (c : t) : t :=
  mk (id c) (name c) (phoneNumber c) s (creditRating c).
Definition set_creditRating (r : Z) (c : t) : t :=
  mk (id c) (name c) (phoneNumber c) (address c) r.
End Customer.

Module Rental.
Record t := mk
  { id : Id; batteryId : Id; customerId : Id;
    rentDate : Z; returnDate : option Z;
    rentalPrice : float; isPaid : bool }.

Definition set_returnDate (d : option Z) (r : t) : t :=
  mk (id r) (batteryId r) (customerId r) (rentDate r) d
     (rentalPrice r) (isPaid r).
Definition set_isPaid (p : bool) (r : t) : t :=
  mk (id r) (batteryId r) (customerId r) (rentDate r) (returnDate r)
     (rentalPrice r) p.
End Rental.

Module Payment.
Record t := mk
  { id : Id; rentalId : Id; customerId : Id;
    amount : float; paymentDate : Z; paymentMethod : PaymentMethod }.
End Payment.

(** The persisted state: the four relations. *)
Record DB := mkDB
  { batteries : list Battery.t;
    customers : list Customer.t;
    rentals : list Rental.t;
    payments : list Payment.t }.

Definition emptyDB : DB := mkDB [] [] [] [].

Definition with_batteries (l : list Battery.t) (db : DB) : DB :=
  mkDB l (customers db) (rentals db) (payments db).
Definition with_customers (l : list Customer.t) (db : DB) : DB :=
  mkDB (batteries db) l (rentals db) (payments db).
Definition with_rentals (l : list Rental.t) (db : DB) : DB :=
  mkDB (batteries db) (customers db) l (payments db).
Definition with_payments (l : list Payment.t) (db : DB) : DB :=
  mkDB (batteries db) (customers db) (rentals db) l.

(** ** The Prisma client *)

(** A write either returns a value and the next database, or throws
    ([None]). *)
Definition Tx (A : Type) := DB -> option (A * DB).

Definition tx_ret {A} (a : A) : Tx A := fun db => Some (a, db).
Definition tx_bind {A B} (m : Tx A) (f : A -> Tx B) : Tx B :=
  fun db => match m db with
            | Some (a, db') => f a db'
            | None => None
            end.

Declare Scope tx_scope.
Delimit Scope tx_scope with tx.
Notation "x <- m ;; k" := (tx_bind m (fun x => k))
  (at level 61, m at next level, right associativity) : tx_scope.

(** Rows are found and rewritten by a key column. *)
Definition has_key {T : Type} (key : T -> string) (k : string) (x : T)
  : bool :=
  String.eqb (key x) k.
Definition rewrite_key {T : Type} (key : T -> string) (k : string)
  (data : T -> T) (x : T) : T :=
  if String.eqb (key x) k then data x else x.

Module prisma.

Module battery.
Definition findUnique (id : Id) (db : DB) : option Battery.t :=
  find (has_key Battery.id id) (batteries db).
Definition findUniqueBySerial (sn : string) (db : DB) : option Battery.t :=
  find (has_key Battery.serialNumber sn) (batteries db).
Definition create (row : Battery.t) : Tx Battery.t := fun db =>
  match findUnique (Battery.id row) db with
  | Some _ => None
  | None => Some (row, with_batteries (batteries db ++ [row]) db)
  end.
Definition update (id : Id) (data : Battery.t -> Battery.t)
  : Tx Battery.t := fun db =>
  match findUnique id db with
  | None => None
  | Some b =>
      Some (data b,
            with_batteries
              (map (rewrite_key Battery.id id data) (batteries db)) db)
  end.
Definition delete (id : Id) : Tx Battery.t := fun db =>
  match findUnique id db with
  | None => None
  | Some b =>
      Some (b,
            with_batteries
              (filter (fun x => negb (has_key Battery.id id x))
                 (batteries db)) db)
  end.
End battery.

Module customer.
Definition findUnique (id : Id) (db : DB) : option Customer.t :=
  find (has_key Customer.id id) (customers db).
Definition findUniqueByPhone (ph : string) (db : DB) : option Customer.t :=
  find (has_key Customer.phoneNumber ph) (customers db).
Definition create (row : Customer.t) : Tx Customer.t := fun db =>
  match findUnique (Customer.id row) db with
  | Some _ => None
  | None => Some (row, with_customers (customers db ++ [row]) db)
  end.
Definition update (id : Id) (data : Customer.t -> Customer.t)
  : Tx Customer.t := fun db =>
  match findUnique id db with
  | None => None
  | Some c =>
      Some (data c,
            with_customers
              (map (rewrite_key Customer.id id data) (customers db)) db)
  end.
Definition delete (id : Id) : Tx Customer.t := fun db =>
  match findUnique id db with
  | None => None
  | Some c =>
      Some (c,
            with_customers
              (filter (fun x => negb (has_key Customer.id id x))
                 (customers db)) db)
  end.
End customer.

Module payment.
Definition findUnique (id : Id) (db : DB) : option Payment.t :=
  find (has_key Payment.id id) (payments db).
(** The [payments] relation field of a rental / of a customer. *)
Definition ofRental (rid : Id) (db : DB) : list Payment.t :=
  filter (has_key Payment.rentalId rid) (payments db).
Definition ofCustomer (cid : Id) (db : DB) : list Payment.t :=
  filter (has_key Payment.customerId cid) (payments db).
Definition create (row : Payment.t) : Tx Payment.t := fun db =>
  match findUnique (Payment.id row) db with
  | Some _ => None
  | None => Some (row, with_payments (payments db ++ [row]) db)
  end.
End payment.

Module rental.
Definition findUnique (id : Id) (db : DB) : option Rental.t :=
  find (has_key Rental.id id) (rentals db).
(** The [rentals] relation field of a battery / of a customer. *)
Definition ofBattery (bid : Id) (db : DB) : list Rental.t :=
  filter (has_key Rental.batteryId bid) (rentals db).
Definition ofCustomer (cid : Id) (db : DB) : list Rental.t :=
  filter (has_key Rental.customerId cid) (rentals db).
(** [findMany({ where: { customerId }, include: { payments: true } })] *)
Definition findManyWithPayments (cid : Id) (db : DB)
  : list (Rental.t * list Payment.t) :=
  map (fun r => (r, payment.ofRental (Rental.id r) db)) (ofCustomer cid db).
Definition create (row : Rental.t) : Tx Rental.t := fun db =>
  match findUnique (Rental.id row) db with
  | Some _ => None
  | None => Some (row, with_rentals (rentals db ++ [row]) db)
  end.
Definition update (id : Id) (data : Rental.t -> Rental.t)
  : Tx Rental.t := fun db =>
  match findUnique id db with
  | None => None
  | Some r =>
      Some (data r,
            with_rentals
              (map (rewrite_key Rental.id id data) (rentals db)) db)
  end.
End rental.

End prisma.

(** ** JavaScript helpers *)

(** [!s] is false for a present, non-empty string. *)
Definition truthy_string (s : option string) : bool :=
  match s with
  | Some s => negb (String.eqb s EmptyString)
  | None => false
  end.

(** [!x] is false for a present number other than [0], [-0] and [NaN]. *)
Definition truthy_number (x : option float) : bool :=
  match x with
  | Some x => negb (PrimFloat.eqb x 0%float || negb (PrimFloat.eqb x x))
  | None => false
  end.

(** [Math.round]: the nearest integer, ties towards plus infinity. *)
Definition Math_round (x : Q) : Z := Qfloor (x + (1 # 2)).

(** [sum + Number(payment.amount)] folded over the payments. *)
Definition totalPaid (ps : list Payment.t) : float :=
  fold_left (fun sum p => PrimFloat.add sum (Payment.amount p)) ps 0%float.

(** ** Credit Rating Engine (rentals.ts 262-307, payments.ts 293-338) *)

Definition msPerDay : Z := 1000 * 60 * 60 * 24.

(** [Math.floor((returnDate.getTime() - rentDate.getTime()) / msPerDay)] *)
Definition rentDuration (rentDate returnDate : Z) : Z :=
  (returnDate - rentDate) / msPerDay.

(** One iteration of the [forEach] body, on the running [totalPoints]. *)
Definition addRentalPoints (totalPoints : Z) (rp : Rental.t * list Payment.t)
  : Z :=
  let (rental, pays) := rp in
  let totalPoints :=
    if Rental.isPaid rental then totalPoints + 2
    else if (0 <? List.length pays)%nat then totalPoints + 1
    else totalPoints in
  match Rental.returnDate rental with
  | Some ret =>
      if rentDuration (Rental.rentDate rental) ret <=? 7
      then totalPoints + 1 else totalPoints
  | None => totalPoints
  end.

Definition totalPointsOf (customerRentals : list (Rental.t * list Payment.t))
  : Z :=
  fold_left addRentalPoints customerRentals 0.

(** [Math.round(totalPoints / (totalRentals * 3) * 5)] *)
Definition creditRatingOf (totalPoints : Z) (totalRentals : nat) : Z :=
  let avgPoints := (inject_Z totalPoints
                    / inject_Z (Z.of_nat totalRentals * 3))%Q in
  Math_round (avgPoints * 5)%Q.

(** The helper itself. A throw of [prisma.customer.update] is caught and
    logged: the database is left as it was. *)
Definition updateCustomerCreditRating (customerId : Id) (db : DB) : DB :=
  let customerRentals := prisma.rental.findManyWithPayments customerId db in
  let totalRentals := List.length customerRentals in
  if (totalRentals =? 0)%nat then db
  else
    let totalPoints := totalPointsOf customerRentals in
    let creditRating := creditRatingOf totalPoints totalRentals in
    match prisma.customer.update customerId
            (Customer.set_creditRating creditRating) db with
    | Some (_, db') => db'
    | None => db
    end.

(** *** The rating on IEEE doubles

    The same line, [Math.round(totalPoints / (totalRentals * 3) * 5)], on
    binary64 numbers: the division and the product round to nearest-even,
    and [Math.round] is read off the half-integer thresholds, which is what
    it returns for an argument in [0, 5.5). *)
Module F64.
(** The double of a small natural number, which is exact. *)
Definition of_Z (z : Z) : float := PrimFloat.of_uint63 (Uint63.of_Z z).

(** The double of the two-decimal amount [c / 100], as [Number("3.30")]
    gives it: the quotient of two exact integers, rounded once. *)
Definition cents (c : Z) : float := PrimFloat.div (of_Z c) (of_Z 100).

Definition Math_round (x : float) : option Z :=
  if PrimFloat.ltb x 0%float then None
  else if PrimFloat.ltb x 0.5%float then Some 0
  else if PrimFloat.ltb x 1.5%float then Some 1
  else if PrimFloat.ltb x 2.5%float then Some 2
  else if PrimFloat.ltb x 3.5%float then Some 3
  else if PrimFloat.ltb x 4.5%float then Some 4
  else if PrimFloat.ltb x 5.5%float then Some 5
  else None.

Definition creditRatingOf (totalPoints : Z) (totalRentals : nat) : option Z :=
  let avgPoints :=
    PrimFloat.div (of_Z totalPoints) (of_Z (Z.of_nat totalRentals * 3)) in
  Math_round (PrimFloat.mul avgPoints 5%float).

End F64.

(** The money columns are [Decimal(10, 2)] (schema.prisma): a number with
    at most two decimals and below 10^8 in absolute value is stored as it is
    sent and read back as the same double. The handlers are followed for
    such numbers; what the column makes of another one (it rounds to two
    decimals, and refuses 10^8 and above) is not modelled. *)
Definition Decimal_10_2 (x : float) : Prop :=
  exists cents : Z,
    0 <= cents < 10 ^ 10
    /\ (x = F64.cents cents \/ x = PrimFloat.opp (F64.cents cents)).

(** The exact and the binary64 rating agree at these counts. *)
Definition f64_agrees_at (totalPoints : Z) (totalRentals : nat) : bool :=
  match F64.creditRatingOf totalPoints totalRentals with
  | Some rating => rating =? creditRatingOf totalPoints totalRentals
  | None => false
  end.

(** ** HTTP responses *)

(** Every [res.status(4xx|500).json({ error })] of the four route files. *)
Inductive ApiError :=
| BatteryFieldsRequired | DuplicateSerialNumber | BatteryHasRentalHistory
| CustomerFieldsRequired | DuplicatePhoneNumber | CustomerHasHistory
| RentalFieldsRequired | BatteryNotFound | BatteryNotAvailable
| CustomerNotFound | RentalNotFound | AlreadyReturned
| PaymentStatusRequired | PaymentFieldsRequired | CustomerMismatch
| Failed (what : string).

Definition statusCode (e : ApiError) : Z :=
  match e with
  | BatteryNotFound | CustomerNotFound | RentalNotFound => 404
  | Failed _ => 500
  | _ => 400
  end.

Definition message (e : ApiError) : string :=
  match e with
  | BatteryFieldsRequired => "Serial number and price are required"
  | DuplicateSerialNumber => "Battery with this serial number already exists"
  | BatteryHasRentalHistory =>
      "Cannot delete battery with rental history. Consider marking it as MAINTENANCE instead."
  | CustomerFieldsRequired => "Name and phone number are required"
  | DuplicatePhoneNumber => "Customer with this phone number already exists"
  | CustomerHasHistory => "Cannot delete customer with rental or payment history."
  | RentalFieldsRequired =>
      "Battery ID, customer ID, and rental price are required"
  | BatteryNotFound => "Battery not found"
  | BatteryNotAvailable => "Battery is not available for rent"
  | CustomerNotFound => "Customer not found"
  | RentalNotFound => "Rental not found"
  | AlreadyReturned => "Battery has already been returned"
  | PaymentStatusRequired => "Payment status is required"
  | PaymentFieldsRequired =>
      "Rental ID, customer ID, amount, and payment method are required"
  | CustomerMismatch => "Customer ID does not match the rental"
  | Failed what => "Failed to " ++ what
  end.

(** The failure taxonomy the responses fall into: a missing entity, a state
    that forbids the operation, a malformed request, a caught exception. *)
Inductive Failure := NotFound | Conflict | InvalidInput | Internal.

Definition failure (e : ApiError) : Failure :=
  match e with
  | BatteryNotFound | CustomerNotFound | RentalNotFound => NotFound
  | BatteryFieldsRequired | CustomerFieldsRequired | RentalFieldsRequired
  | PaymentStatusRequired | PaymentFieldsRequired => InvalidInput
  | DuplicateSerialNumber | BatteryHasRentalHistory | DuplicatePhoneNumber
  | CustomerHasHistory | BatteryNotAvailable | AlreadyReturned
  | CustomerMismatch => Conflict
  | Failed _ => Internal
  end.

Inductive Json :=
| JsonBattery (b : Battery.t)
| JsonCustomer (c : Customer.t)
| JsonRental (r : Rental.t)
| JsonPayment (p : Payment.t)
| JsonMessage (m : string).

Inductive Response :=
| Ok (code : Z) (body : Json)
| Err (e : ApiError).

(** ** Route handlers *)

(** The body of a handler's [try] block: it computes a value, or has
    returned a response already, or has thrown. *)
Inductive Outcome (A : Type) :=
| Val (a : A)
| Reply (r : Response)
| Throw.
Arguments Val {A} a.
Arguments Reply {A} r.
Arguments Throw {A}.

Definition Handler (A : Type) := DB -> Outcome A * DB.

Definition h_bind {A B} (m : Handler A) (f : A -> Handler B) : Handler B :=
  fun db => match m db with
            | (Val a, db') => f a db'
            | (Reply r, db') => (Reply r, db')
            | (Throw, db') => (Throw, db')
            end.

(** [return res.status(..).json(..)] *)
Definition reply {A} (r : Response) : Handler A := fun db => (Reply r, db).

(** [await prisma.x.findUnique(..)] and the other reads. *)
Definition query {A} (f : DB -> A) : Handler A := fun db => (Val (f db), db).

(** [await prisma.$transaction(..)], and a single awaited write: the writes
    are committed together, and a throw leaves the database as it was. *)
Definition transaction {A} (t : Tx A) : Handler A :=
  fun db => match t db with
            | Some (a, db') => (Val a, db')
            | None => (Throw, db)
            end.

(** [await updateCustomerCreditRating(..)] *)
Definition effect (f : DB -> DB) : Handler unit := fun db => (Val tt, f db).

(** [try { .. } catch (error) { res.status(500).json({ error }) }] *)
Definition try_catch (what : string) (h : Handler Response)
  : DB -> Response * DB :=
  fun db => match h db with
            | (Val r, db') => (r, db')
            | (Reply r, db') => (r, db')
            | (Throw, db') => (Err (Failed what), db')
            end.

Declare Scope handler_scope.
Delimit Scope handler_scope with handler.
Notation "x <- m ;; k" := (h_bind m (fun x => k))
  (at level 61, m at next level, right associativity) : handler_scope.

(** The values the schema defaults draw from the environment. *)
Record Env := mkEnv { uuid : Id; now : Z }.

(** [x] when [x] is truthy. *)
(** [returnDate ? new Date(returnDate) : new Date()] reads a time value:
    a missing one and [0] are falsy. *)
Definition truthy_date (d : option Z) : option Z :=
  match d with
  | Some d => if d =? 0 then None else Some d
  | None => None
  end.

Definition required_string (s : option string) : option string :=
  if truthy_string s then s else None.
Definition required_number (x : option float) : option float :=
  if truthy_number x then x else None.

(** [...(x && { field: x })] in the [data] of an update. *)
Definition spread {A T} (x : option A) (set : A -> T -> T) (row : T) : T :=
  match x with
  | Some a => set a row
  | None => row
  end.

(** *** inventory.ts *)

Module BatteryBody.
Record t := mk
  { serialNumber : option string; price : option float;
    status : option Status }.
End BatteryBody.

(** [router.post('/')] *)
Definition createBattery (env : Env) (body : BatteryBody.t)
  : DB -> Response * DB :=
  try_catch "create battery" (
    match required_string (BatteryBody.serialNumber body),
          required_number (BatteryBody.price body) with
    | Some serialNumber, Some price =>
        existingBattery <-
          query (prisma.battery.findUniqueBySerial serialNumber) ;;
        match existingBattery with
        | Some _ => reply (Err DuplicateSerialNumber)
        | None =>
            newBattery <- transaction
              (prisma.battery.create
                 (Battery.mk (uuid env) serialNumber price AVAILABLE)) ;;
            reply (Ok 201 (JsonBattery newBattery))
        end
    | _, _ => reply (Err BatteryFieldsRequired)
    end)%handler.

(** [router.put('/:id')] *)
Definition updateBattery (id : Id) (body : BatteryBody.t)
  : DB -> Response * DB :=
  try_catch "update battery" (
    existingBattery <- query (prisma.battery.findUnique id) ;;
    match existingBattery with
    | None => reply (Err BatteryNotFound)
    | Some existingBattery =>
        let write :=
          (updatedBattery <- transaction
             (prisma.battery.update id (fun b =>
                spread (required_string (BatteryBody.serialNumber body))
                  Battery.set_serialNumber
                  (spread (required_number (BatteryBody.price body))
                     Battery.set_price
                     (spread (BatteryBody.status body)
                        Battery.set_status b)))) ;;
           reply (Ok 200 (JsonBattery updatedBattery))) in
        match required_string (BatteryBody.serialNumber body) with
        | Some serialNumber =>
            if negb (String.eqb serialNumber
                       (Battery.serialNumber existingBattery))
            then
              duplicateSerial <-
                query (prisma.battery.findUniqueBySerial serialNumber) ;;
              match duplicateSerial with
              | Some _ => reply (Err DuplicateSerialNumber)
              | None => write
              end
            else write
        | None => write
        end
    end)%handler.

(** [router.delete('/:id')] *)
Definition deleteBattery (id : Id) : DB -> Response * DB :=
  try_catch "delete battery" (
    existingBattery <- query (prisma.battery.findUnique id) ;;
    match existingBattery with
    | None => reply (Err BatteryNotFound)
    | Some existingBattery =>
        rentals <- query (prisma.rental.ofBattery id) ;;
        if (0 <? List.length rentals)%nat
        then reply (Err BatteryHasRentalHistory)
        else
          _ <- transaction (prisma.battery.delete id) ;;
          reply (Ok 200 (JsonMessage "Battery deleted successfully"))
    end)%handler.

(** *** customers.ts *)

Module CustomerBody.
Record t := mk
  { name : option string; phoneNumber : option string;
    address : option string; creditRating : option Z }.
End CustomerBody.

(** [router.post('/')]; [creditRating] of the body is not read. *)
Definition createCustomer (env : Env) (body : CustomerBody.t)
  : DB -> Response * DB :=
  try_catch "create customer" (
    match required_string (CustomerBody.name body),
          required_string (CustomerBody.phoneNumber body) with
    | Some name, Some phoneNumber =>
        existingCustomer <-
          query (prisma.customer.findUniqueByPhone phoneNumber) ;;
        match existingCustomer with
        | Some _ => reply (Err DuplicatePhoneNumber)
        | None =>
            newCustomer <- transaction
              (prisma.customer.create
                 (Customer.mk (uuid env) name phoneNumber
                    match required_string (CustomerBody.address body) with
                    | Some address => address
                    | None => EmptyString
                    end
                    3)) ;;
            reply (Ok 201 (JsonCustomer newCustomer))
        end
    | _, _ => reply (Err CustomerFieldsRequired)
    end)%handler.

(** [router.put('/:id')]; the body's [creditRating] stands for the value of
    [parseInt(creditRating)]. The column is an [Int]: a value beyond 32 bits
    is refused by the database, which is not modelled. *)
Definition updateCustomer (id : Id) (body : CustomerBody.t)
  : DB -> Response * DB :=
  try_catch "update customer" (
    existingCustomer <- query (prisma.customer.findUnique id) ;;
    match existingCustomer with
    | None => reply (Err CustomerNotFound)
    | Some existingCustomer =>
        let write :=
          (updatedCustomer <- transaction
             (prisma.customer.update id (fun c =>
                spread (required_string (CustomerBody.name body))
                  Customer.set_name
                  (spread (required_string (CustomerBody.phoneNumber body))
                     Customer.set_phoneNumber
                     (spread (CustomerBody.address body)
                        Customer.set_address
                        (spread (CustomerBody.creditRating body)
                           Customer.set_creditRating c))))) ;;
           reply (Ok 200 (JsonCustomer updatedCustomer))) in
        match required_string (CustomerBody.phoneNumber body) with
        | Some phoneNumber =>
            if negb (String.eqb phoneNumber
                       (Customer.phoneNumber existingCustomer))
            then
              duplicatePhone <-
                query (prisma.customer.findUniqueByPhone phoneNumber) ;;
              match duplicatePhone with
              | Some _ => reply (Err DuplicatePhoneNumber)
              | None => write
              end
            else write
        | None => write
        end
    end)%handler.

(** [router.delete('/:id')] *)
Definition deleteCustomer (id : Id) : DB -> Response * DB :=
  try_catch "delete customer" (
    existingCustomer <- query (prisma.customer.findUnique id) ;;
    match existingCustomer with
    | None => reply (Err CustomerNotFound)
    | Some existingCustomer =>
        rentals <- query (prisma.rental.ofCustomer id) ;;
        payments <- query (prisma.payment.ofCustomer id) ;;
        if (0 <? List.length rentals)%nat || (0 <? List.length payments)%nat
        then reply (Err CustomerHasHistory)
        else
          _ <- transaction (prisma.customer.delete id) ;;
          reply (Ok 200 (JsonMessage "Customer deleted successfully"))
    end)%handler.

(** *** rentals.ts *)

Module RentalBody.
Record t := mk
  { batteryId : option string; customerId : option string;
    rentalPrice : option float; isPaid : option bool }.
End RentalBody.

(** [router.post('/')]: rent a battery. The price is stored as sent, which
    is what the column does with a [Decimal_10_2] number. The checks are
    made before the transaction and not inside it; see [overlapping]. *)
Definition createRental (env : Env) (body : RentalBody.t)
  : DB -> Response * DB :=
  try_catch "create rental" (
    match required_string (RentalBody.batteryId body),
          required_string (RentalBody.customerId body),
          required_number (RentalBody.rentalPrice body) with
    | Some batteryId, Some customerId, Some rentalPrice =>
        battery <- query (prisma.battery.findUnique batteryId) ;;
        match battery with
        | None => reply (Err BatteryNotFound)
        | Some battery =>
            if negb (Status_eqb (Battery.status battery) AVAILABLE)
            then reply (Err BatteryNotAvailable)
            else
              customer <- query (prisma.customer.findUnique customerId) ;;
              match customer with
              | None => reply (Err CustomerNotFound)
              | Some _ =>
                  result <- transaction (
                    rental <- prisma.rental.create
                      (Rental.mk (uuid env) batteryId customerId (now env)
                         None rentalPrice
                         match RentalBody.isPaid body with
                         | Some isPaid => isPaid
                         | None => false
                         end) ;;
                    _ <- prisma.battery.update batteryId
                           (Battery.set_status RENTED) ;;
                    tx_ret rental)%tx ;;
                  reply (Ok 201 (JsonRental result))
              end
        end
    | _, _, _ => reply (Err RentalFieldsRequired)
    end)%handler.

(** [returnDate] is a time value, a JSON number of milliseconds. *)
Module ReturnBody.
Record t := mk { returnDate : option Z; isPaid : option bool }.
End ReturnBody.

(** [router.put('/:id/return')]: return a battery. *)
Definition returnBattery (env : Env) (id : Id) (body : ReturnBody.t)
  : DB -> Response * DB :=
  try_catch "return battery" (
    rental <- query (prisma.rental.findUnique id) ;;
    match rental with
    | None => reply (Err RentalNotFound)
    | Some rental =>
        match Rental.returnDate rental with
        | Some _ => reply (Err AlreadyReturned)
        | None =>
            result <- transaction (
              updatedRental <- prisma.rental.update id (fun r =>
                Rental.set_isPaid
                  match ReturnBody.isPaid body with
                  | Some isPaid => isPaid
                  | None => Rental.isPaid rental
                  end
                  (Rental.set_returnDate
                     (Some match truthy_date (ReturnBody.returnDate body) with
                           | Some returnDate => returnDate
                           | None => now env
                           end) r)) ;;
              _ <- prisma.battery.update (Rental.batteryId rental)
                     (Battery.set_status AVAILABLE) ;;
              tx_ret updatedRental)%tx ;;
            _ <- effect
                   (updateCustomerCreditRating (Rental.customerId rental)) ;;
            reply (Ok 200 (JsonRental result))
        end
    end)%handler.

(** [router.put('/:id/payment')]: update rental payment status. *)
Definition updateRentalPayment (id : Id) (isPaid : option bool)
  : DB -> Response * DB :=
  try_catch "update rental payment status" (
    match isPaid with
    | None => reply (Err PaymentStatusRequired)
    | Some isPaid =>
        rental <- query (prisma.rental.findUnique id) ;;
        match rental with
        | None => reply (Err RentalNotFound)
        | Some rental =>
            updatedRental <- transaction
              (prisma.rental.update id (Rental.set_isPaid isPaid)) ;;
            _ <- effect
                   (updateCustomerCreditRating (Rental.customerId rental)) ;;
            reply (Ok 200 (JsonRental updatedRental))
        end
    end)%handler.

(** *** payments.ts *)

Module PaymentBody.
Record t := mk
  { rentalId : option string; customerId : option string;
    amount : option float; paymentMethod : option PaymentMethod }.
End PaymentBody.

(** [router.post('/')]: record a payment. The amount is stored as sent,
    which is what the column does with a [Decimal_10_2] number. *)
Definition createPayment (env : Env) (body : PaymentBody.t)
  : DB -> Response * DB :=
  try_catch "create payment" (
    match required_string (PaymentBody.rentalId body),
          required_string (PaymentBody.customerId body),
          required_number (PaymentBody.amount body),
          PaymentBody.paymentMethod body with
    | Some rentalId, Some customerId, Some amount, Some paymentMethod =>
        rental <- query (fun db =>
          match prisma.rental.findUnique rentalId db with
          | Some r => Some (r, prisma.payment.ofRental (Rental.id r) db)
          | None => None
          end) ;;
        match rental with
        | None => reply (Err RentalNotFound)
        | Some (rental, rental_payments) =>
            customer <- query (prisma.customer.findUnique customerId) ;;
            match customer with
            | None => reply (Err CustomerNotFound)
            | Some _ =>
                if negb (String.eqb (Rental.customerId rental) customerId)
                then reply (Err CustomerMismatch)
                else
                  let totalPaidSoFar := totalPaid rental_payments in
                  let newTotalPaid := PrimFloat.add totalPaidSoFar amount in
                  let rentalPrice := Rental.rentalPrice rental in
                  result <- transaction (
                    payment <- prisma.payment.create
                      (Payment.mk (uuid env) rentalId customerId amount
                         (now env) paymentMethod) ;;
                    _ <- (if PrimFloat.leb rentalPrice newTotalPaid
                          then (_ <- prisma.rental.update rentalId
                                      (Rental.set_isPaid true) ;;
                                tx_ret tt)
                          else tx_ret tt) ;;
                    tx_ret payment)%tx ;;
                  _ <- effect (updateCustomerCreditRating customerId) ;;
                  reply (Ok 201 (JsonPayment result))
            end
        end
    | _, _, _, _ => reply (Err PaymentFieldsRequired)
    end)%handler.

(** ** The exposed operations as a transition system *)

Inductive Op :=
| CreateBattery (env : Env) (body : BatteryBody.t)
| UpdateBattery (id : Id) (body : BatteryBody.t)
| DeleteBattery (id : Id)
| CreateCustomer (env : Env) (body : CustomerBody.t)
| UpdateCustomer (id : Id) (body : CustomerBody.t)
| DeleteCustomer (id : Id)
| CreateRental (env : Env) (body : RentalBody.t)
| ReturnBattery (env : Env) (id : Id) (body : ReturnBody.t)
| UpdateRentalPayment (id : Id) (isPaid : option bool)
| RecordPayment (env : Env) (body : PaymentBody.t).

Definition handle (op : Op) : DB -> Response * DB :=
  match op with
  | CreateBattery env body => createBattery env body
  | UpdateBattery id body => updateBattery id body
  | DeleteBattery id => deleteBattery id
  | CreateCustomer env body => createCustomer env body
  | UpdateCustomer id body => updateCustomer id body
  | DeleteCustomer id => deleteCustomer id
  | CreateRental env body => createRental env body
  | ReturnBattery env id body => returnBattery env id body
  | UpdateRentalPayment id isPaid => updateRentalPayment id isPaid
  | RecordPayment env body => createPayment env body
  end.

(** The states reachable from the empty database by operations that are
    [allowed] in the state they are applied to, when the requests are
    handled one at a time: a step is a whole handler, from its first read to
    its last write. What requests that overlap can do is the subject of
    [overlapping] below. *)
Inductive reachable (allowed : DB -> Op -> Prop) : DB -> Prop :=
| reachable_empty : reachable allowed emptyDB
| reachable_step db op :
    reachable allowed db -> allowed db op ->
    reachable allowed (snd (handle op db)).

Definition any_op (db : DB) (op : Op) : Prop := True.

(** The stored rating of a customer, when the customer exists. *)
Definition ratingOf (customerId : Id) (db : DB) : option Z :=
  option_map Customer.creditRating (prisma.customer.findUnique customerId db).

(** The rental row [createRental] inserts. *)
Definition newRental (env : Env) (batteryId customerId : Id)
  (rentalPrice : float)
  (isPaid : option bool) : Rental.t :=
  Rental.mk (uuid env) batteryId customerId (now env) None rentalPrice
    match isPaid with
    | Some isPaid => isPaid
    | None => false
    end.

(** The database after the transaction of [createRental]. *)
Definition rented (batteryId : Id) (rental : Rental.t) (db : DB) : DB :=
  with_batteries
    (map (rewrite_key Battery.id batteryId (Battery.set_status RENTED))
       (batteries db))
    (with_rentals (rentals db ++ [rental]) db).

(** The payment row [createPayment] inserts. *)
Definition newPayment (env : Env) (rentalId customerId : Id) (amount : float)
  (paymentMethod : PaymentMethod) : Payment.t :=
  Payment.mk (uuid env) rentalId customerId amount (now env) paymentMethod.

(** The database after the transaction of [createPayment]. *)
Definition paid (payment : Payment.t) (rental : Rental.t) (db : DB) : DB :=
  let inserted := with_payments (payments db ++ [payment]) db in
  if PrimFloat.leb (Rental.rentalPrice rental)
       (PrimFloat.add
          (totalPaid (prisma.payment.ofRental (Payment.rentalId payment) db))
          (Payment.amount payment))
  then with_rentals
         (map (rewrite_key Rental.id (Payment.rentalId payment)
                 (Rental.set_isPaid true)) (rentals db))
         inserted
  else inserted.


(** ** Invariants of the rental lifecycle *)

(** Some rental of the battery has no return date. *)
Definition open_rental_on (batteryId : Id) (rs : list Rental.t) : Prop :=
  exists r, In r rs /\ Rental.batteryId r = batteryId
            /\ Rental.returnDate r = None.

(** A battery is RENTED exactly when one of its rentals is open. *)
Definition status_tracks_rentals (db : DB) : Prop :=
  forall b, In b (batteries db) ->
    (Battery.status b = RENTED
     <-> open_rental_on (Battery.id b) (rentals db)).

(** What the handlers maintain together: the status invariant, rentals
    refer to batteries, a rental id names one battery, and a battery has at
    most one open rental. *)
Definition lifecycle_inv (bs : list Battery.t) (rs : list Rental.t) : Prop :=
  (forall b, In b bs ->
     (Battery.status b = RENTED <-> open_rental_on (Battery.id b) rs))
  /\ (forall r, In r rs ->
        exists b, In b bs /\ Battery.id b = Rental.batteryId r)
  /\ (forall r1 r2, In r1 rs -> In r2 rs -> Rental.id r1 = Rental.id r2 ->
        Rental.batteryId r1 = Rental.batteryId r2)
  /\ (forall r1 r2, In r1 rs -> In r2 rs ->
        Rental.batteryId r1 = Rental.batteryId r2 ->
        Rental.returnDate r1 = None -> Rental.returnDate r2 = None ->
        Rental.id r1 = Rental.id r2).

(** Every operation but an inventory update whose [status] disagrees with
    the rentals: RENTED for a battery without an open rental, or another
    status for a battery with one. *)
Definition status_update_agrees (db : DB) (op : Op) : Prop :=
  match op with
  | UpdateBattery id body =>
      match BatteryBody.status body with
      | Some s => s = RENTED <-> open_rental_on id (rentals db)
      | None => True
      end
  | _ => True
  end.

(** Every customer's rating is between 0 and 5. *)
Definition ratings_in_range (db : DB) : Prop :=
  forall c, In c (customers db) -> 0 <= Customer.creditRating c <= 5.

(** Every operation but a customer update that carries a [creditRating]. *)
Definition keeps_credit_rating (db : DB) (op : Op) : Prop :=
  match op with
  | UpdateCustomer _ body => CustomerBody.creditRating body = None
  | _ => True
  end.

(** Every operation but a customer update whose [creditRating] is outside
    0..5. *)
Definition sends_valid_rating (db : DB) (op : Op) : Prop :=
  match op with
  | UpdateCustomer _ body =>
      match CustomerBody.creditRating body with
      | Some v => 0 <= v <= 5
      | None => True
      end
  | _ => True
  end.

(** A customer without rentals has the default rating. *)
Definition unrated_keep_default (db : DB) : Prop :=
  forall c, In c (customers db) ->
    prisma.rental.ofCustomer (Customer.id c) db = [] ->
    Customer.creditRating c = 3.

(** ** Sample databases *)

Module Scenario.
Local Open Scope string_scope.
(** One customer with one rental, as in the return scenarios: rented at day
    0; paid and returned on day 5, or part-paid and returned on day 10. *)
Definition alice : Customer.t := Customer.mk "c1" "Alice" "0300" "Lahore" 3.
Definition paid_day5 : Rental.t :=
  Rental.mk "r1" "b1" "c1" 0 (Some (5 * msPerDay)) 100%float true.
Definition partial_day10 : Rental.t :=
  Rental.mk "r1" "b1" "c1" 0 (Some (10 * msPerDay)) 100%float false.
Definition part_payment : Payment.t :=
  Payment.mk "p1" "r1" "c1" 40%float msPerDay CASH.
Definition battery1 (s : Status) : Battery.t :=
  Battery.mk "b1" "SN-1" 500%float s.
Definition dbD : DB :=
  mkDB [battery1 AVAILABLE] [alice] [partial_day10] [part_payment].

(** A run of the handlers from the empty database: a battery and a customer
    are created, the battery is rented for 100, the rental is paid in full
    on day 1 and the battery comes back on day 5. *)
Definition addBattery : Op :=
  CreateBattery (mkEnv "b1" 0)
    (BatteryBody.mk (Some "SN-1") (Some 500%float) None).
Definition addCustomer : Op :=
  CreateCustomer (mkEnv "c1" 0)
    (CustomerBody.mk (Some "Alice") (Some "0300") (Some "Lahore") None).
Definition rentBody : RentalBody.t :=
  RentalBody.mk (Some "b1") (Some "c1") (Some 100%float) None.
Definition rent : Op := CreateRental (mkEnv "r1" 0) rentBody.
Definition rentFor (rentalPrice : float) : Op :=
  CreateRental (mkEnv "r1" 0)
    (RentalBody.mk (Some "b1") (Some "c1") (Some rentalPrice) None).
Definition payBody (amount : float) : PaymentBody.t :=
  PaymentBody.mk (Some "r1") (Some "c1") (Some amount) (Some CASH).
Definition pay (id : Id) (amount : float) : Op :=
  RecordPayment (mkEnv id msPerDay) (payBody amount).
Definition payInFull : Op := pay "p1" 100.
Definition giveBack : Op :=
  ReturnBattery (mkEnv "" (5 * msPerDay)) "r1" (ReturnBody.mk None None).

Definition run (ops : list Op) : DB :=
  fold_left (fun db op => snd (handle op db)) ops emptyDB.

Definition stocked : DB := run [addBattery; addCustomer].
Definition rentedOut : DB := run [addBattery; addCustomer; rent].
Definition paidUp : DB := run [addBattery; addCustomer; rent; payInFull].
Definition returned : DB :=
  run [addBattery; addCustomer; rent; payInFull; giveBack].

(** A direct inventory update marks the battery RENTED though nobody rents
    it; a customer update stores the rating the caller sends. *)
Definition markRented : Op :=
  UpdateBattery "b1" (BatteryBody.mk None None (Some RENTED)).
Definition markMaintenance : Op :=
  UpdateBattery "b1" (BatteryBody.mk None None (Some MAINTENANCE)).
Definition rate (creditRating : Z) : Op :=
  UpdateCustomer "c1" (CustomerBody.mk None None None (Some creditRating)).
Definition rate42 : Op := rate 42.
Definition rate4 : Op := rate 4.
Definition rate1 : Op := rate 1.
End Scenario.

From Stdlib Require Import Permutation Sorted.

(** ** Middleware (middleware/auth.ts) and the routes as mounted *)

Module Auth.
(** [req.user]; a request arrives without one. *)
Record User := mkUser { id : string; role : string }.
Record Request := mkRequest { user : option User }.

(** A middleware calls [next()] or answers 403
    'Unauthorized: Admin access required'. *)
Inductive Step := Next (req : Request) | Respond403.

(** The placeholder: every request gets the mock admin user. *)
Definition requireAuth (req : Request) : Step :=
  Next (mkRequest (Some (mkUser "mock-user-id" "admin"))).

Definition requireAdmin (req : Request) : Step :=
  match user req with
  | Some u => if String.eqb (role u) "admin" then Next req else Respond403
  | None => Respond403
  end.
End Auth.

Inductive RouteResult :=
| Forbidden
| Handled (r : Response).

(** [router.METHOD(path, ...middleware, handler)]: the middleware run in
    order, each on the request the one before has left. *)
Fixpoint route (middleware : list (Auth.Request -> Auth.Step))
  (handler : DB -> Response * DB) (req : Auth.Request) (db : DB)
  : RouteResult * DB :=
  match middleware with
  | [] => let (r, db') := handler db in (Handled r, db')
  | mw :: rest =>
      match mw req with
      | Auth.Next req' => route rest handler req' db
      | Auth.Respond403 => (Forbidden, db)
      end
  end.

(** The middleware each writing route is registered with: the two deletes
    with [requireAdmin], the others with [requireAuth]. *)
Definition middlewareOf (op : Op) : list (Auth.Request -> Auth.Step) :=
  match op with
  | DeleteBattery _ | DeleteCustomer _ => [Auth.requireAdmin]
  | _ => [Auth.requireAuth]
  end.

Definition admin_only (op : Op) : bool :=
  match op with
  | DeleteBattery _ | DeleteCustomer _ => true
  | _ => false
  end.

Definition serve (req : Auth.Request) (op : Op) : DB -> RouteResult * DB :=
  route (middlewareOf op) (handle op) req.

(** [GET /users/me], behind [requireAuth]. *)
Module Me.
Record t := mk { id : string; name : string; email : string; role : string }.
End Me.

Inductive MeResponse :=
| MeOk (me : Me.t)
| MeNotAuthenticated
| MeForbidden.

Definition getMe (req : Auth.Request) : MeResponse :=
  match Auth.requireAuth req with
  | Auth.Respond403 => MeForbidden
  | Auth.Next req =>
      let userId := option_map Auth.id (Auth.user req) in
      match required_string userId with
      | None => MeNotAuthenticated
      | Some userId =>
          MeOk (Me.mk userId "Admin User" "admin@batterymanager.com"
                  match required_string (option_map Auth.role (Auth.user req))
                  with
                  | Some role => role
                  | None => "admin"
                  end)
      end
  end.

(** ** Integrity of the stored data *)

(** The primary keys are unique. *)
Definition keys_unique (db : DB) : Prop :=
  NoDup (map Battery.id (batteries db))
  /\ NoDup (map Customer.id (customers db))
  /\ NoDup (map Rental.id (rentals db))
  /\ NoDup (map Payment.id (payments db)).

(** The [@unique] columns are unique. *)
Definition unique_columns (db : DB) : Prop :=
  NoDup (map Battery.serialNumber (batteries db))
  /\ NoDup (map Customer.phoneNumber (customers db)).

(** The relations resolve: a rental has its battery and its customer, a
    payment has its rental and is booked on that rental's customer. *)
Definition references_resolve (db : DB) : Prop :=
  (forall r, In r (rentals db) ->
     prisma.battery.findUnique (Rental.batteryId r) db <> None
     /\ prisma.customer.findUnique (Rental.customerId r) db <> None)
  /\ (forall p, In p (payments db) ->
        exists r, prisma.rental.findUnique (Payment.rentalId p) db = Some r
                  /\ Rental.customerId r = Payment.customerId p).

Definition integrity (db : DB) : Prop :=
  keys_unique db /\ unique_columns db /\ references_resolve db.

(** ** The rows the return handler writes *)

(** The [data] of the rental update in [returnBattery], for the rental that
    was read. *)
Definition closeRental (env : Env) (body : ReturnBody.t)
  (rental : Rental.t) (r : Rental.t) : Rental.t :=
  Rental.set_isPaid
    match ReturnBody.isPaid body with
    | Some isPaid => isPaid
    | None => Rental.isPaid rental
    end
    (Rental.set_returnDate
       (Some match truthy_date (ReturnBody.returnDate body) with
             | Some returnDate => returnDate
             | None => now env
             end) r).

(** The database after the transaction of [returnBattery]. *)
Definition handedBack (env : Env) (id : Id) (body : ReturnBody.t)
  (rental : Rental.t) (db : DB) : DB :=
  with_batteries
    (map (rewrite_key Battery.id (Rental.batteryId rental)
            (Battery.set_status AVAILABLE)) (batteries db))
    (with_rentals
       (map (rewrite_key Rental.id id (closeRental env body rental))
          (rentals db)) db).

(** What a rental is for: the fields no handler rewrites. *)
Definition contract (r : Rental.t) : Id * Id * Id * Z * float :=
  (Rental.id r, Rental.batteryId r, Rental.customerId r, Rental.rentDate r,
   Rental.rentalPrice r).

(** ** The rating the engine computes for a customer in a state *)

Definition formulaRating (customerId : Id) (db : DB) : Z :=
  let customerRentals := prisma.rental.findManyWithPayments customerId db in
  creditRatingOf (totalPointsOf customerRentals)
    (List.length customerRentals).


Definition Zsum (l : list Z) : Z := fold_right Z.add 0 l.


(** ** Reports *)

(** [Array.prototype.sort(compareFn)]. The sort is stable, and for a
    [compareFn] that orders the elements consistently the stable result is
    the only one, so it is computed here by insertion: [after a b] is
    [compareFn(a, b) > 0], which moves [a] behind [b]. *)
Fixpoint sort_insert {T} (after : T -> T -> bool) (x : T) (l : list T)
  : list T :=
  match l with
  | [] => [x]
  | y :: l' => if after x y then y :: sort_insert after x l' else x :: l
  end.

Definition Array_sort {T} (after : T -> T -> bool) (arr : list T) : list T :=
  fold_right (sort_insert after) [] arr.

(** A [compareFn] that subtracts keys: [a] goes behind [b] exactly when its
    key is larger. *)
Definition by_key {T} (key : T -> Z) (a b : T) : bool := 0 <? key a - key b.

(** Keys ascending, and among equal keys the order [R]. *)
Definition lex {T} (key : T -> Z) (R : T -> T -> Prop) (a b : T) : Prop :=
  key a < key b \/ (key a = key b /\ R a b).

(** [arr.slice(0, 5)] *)
Definition slice5 {T} (arr : list T) : list T := firstn 5 arr.

(** *** [GET /inventory/summary/stats] (inventory.ts) *)

Module Stats.
Record t := mk
  { total : nat; available : nat; rented : nat; maintenance : nat }.
End Stats.

(** [prisma.battery.count({ where: { status } })] *)
Definition countByStatus (status : Status) (db : DB) : nat :=
  List.length
    (filter (fun b => Status_eqb (Battery.status b) status) (batteries db)).

Definition inventoryStats (db : DB) : Stats.t :=
  let totalBatteries := List.length (batteries db) in
  let availableBatteries := countByStatus AVAILABLE db in
  let rentedBatteries := countByStatus RENTED db in
  let maintenanceBatteries := countByStatus MAINTENANCE db in
  Stats.mk totalBatteries availableBatteries rentedBatteries
    maintenanceBatteries.

(** *** [GET /rentals/filter/active] (rentals.ts) *)

Definition isOpen (r : Rental.t) : bool :=
  match Rental.returnDate r with
  | None => true
  | Some _ => false
  end.

(** [findMany({ where: { returnDate: null }, orderBy: { rentDate: 'desc' } })];
    rentals of one rent date are left in the order of the table. *)
Definition activeRentals (db : DB) : list Rental.t :=
  Array_sort (fun a b => 0 <? Rental.rentDate b - Rental.rentDate a)
    (filter isOpen (rentals db)).

(** *** [GET /customers/top/by-rentals] (customers.ts) and the customer
    lists of [GET /api/dashboard/summary] (index.ts) *)

(** A row of [findMany({ include: { _count: { select: { rentals: true } } } })] *)
Module Counted.
Record t := mk { customer : Customer.t; rentals : nat }.
End Counted.

(** The rows are taken in the order of the table; the order in which the
    database returns them is not specified, and what is proved of the lists
    below holds for any. *)
Definition findManyWithCount (db : DB) : list Counted.t :=
  map (fun c =>
         Counted.mk c
           (List.length (prisma.rental.ofCustomer (Customer.id c) db)))
    (customers db).

Module TopCustomer.
Record t := mk
  { id : Id; name : string; phoneNumber : string; rentalCount : nat;
    creditRating : Z }.
End TopCustomer.

Module WorstRating.
Record t := mk
  { id : Id; name : string; phoneNumber : string; creditRating : Z }.
End WorstRating.

Definition toTopCustomer (row : Counted.t) : TopCustomer.t :=
  let customer := Counted.customer row in
  TopCustomer.mk (Customer.id customer) (Customer.name customer)
    (Customer.phoneNumber customer) (Counted.rentals row)
    (Customer.creditRating customer).

Definition toWorstRating (row : Counted.t) : WorstRating.t :=
  let customer := Counted.customer row in
  WorstRating.mk (Customer.id customer) (Customer.name customer)
    (Customer.phoneNumber customer) (Customer.creditRating customer).

(** [(a, b) => b._count.rentals - a._count.rentals], positive *)
Definition byRentalsDesc (a b : Counted.t) : bool :=
  0 <? Z.of_nat (Counted.rentals b) - Z.of_nat (Counted.rentals a).

(** [(a, b) => a.creditRating - b.creditRating], positive *)
Definition byRatingAsc (a b : Counted.t) : bool :=
  0 <? Customer.creditRating (Counted.customer a)
       - Customer.creditRating (Counted.customer b).

Definition topByRentals (db : DB) : list TopCustomer.t :=
  let customers := findManyWithCount db in
  map toTopCustomer (slice5 (Array_sort byRentalsDesc customers)).

(** The dashboard sorts the one array [customers] twice: [sort] works in
    place and returns the array, so the second sort starts from the order
    the first has left. *)
Definition dashboardCustomers (db : DB)
  : list TopCustomer.t * list WorstRating.t :=
  let customers := findManyWithCount db in
  let customers := Array_sort byRentalsDesc customers in
  let topCustomers := map toTopCustomer (slice5 customers) in
  let customers := Array_sort byRatingAsc customers in
  let worstCreditRatings := map toWorstRating (slice5 customers) in
  (topCustomers, worstCreditRatings).

(** *** [GET /customers/:id] and [GET /customers/filter/with-dues]
    (customers.ts) *)

(** The [forEach] body of the customer profile, on the running
    [dueBalance]. *)
Definition addDue (dueBalance : float) (rp : Rental.t * list Payment.t)
  : float :=
  let (rental, pays) := rp in
  if negb (Rental.isPaid rental)
  then
    let dueBalance := PrimFloat.add dueBalance (Rental.rentalPrice rental) in
    let paidAmount := totalPaid pays in
    PrimFloat.sub dueBalance paidAmount
  else dueBalance.

Definition dueBalanceOf (rentals : list (Rental.t * list Payment.t)) : float :=
  fold_left addDue rentals 0%float.

Inductive ProfileResponse :=
| ProfileOk (customer : Customer.t) (dueBalance : float)
| ProfileNotFound.

(** The rentals come ordered by rent date, latest first; rentals of one
    rent date are left in the order of the table. *)
Definition getCustomer (id : Id) (db : DB) : ProfileResponse :=
  match prisma.customer.findUnique id db with
  | None => ProfileNotFound
  | Some customer =>
      let rentals :=
        Array_sort
          (fun a b => 0 <? Rental.rentDate (fst b) - Rental.rentDate (fst a))
          (prisma.rental.findManyWithPayments id db) in
      ProfileOk customer (dueBalanceOf rentals)
  end.

Module Due.
Record t := mk
  { id : Id; name : string; phoneNumber : string; creditRating : Z;
    dueAmount : float }.
End Due.

(** [rentals: { where: { isPaid: false }, include: { payments: true } }] *)
Definition unpaidWithPayments (cid : Id) (db : DB)
  : list (Rental.t * list Payment.t) :=
  map (fun r => (r, prisma.payment.ofRental (Rental.id r) db))
    (filter (fun r => negb (Rental.isPaid r)) (prisma.rental.ofCustomer cid db)).

Definition dueAmountOf (rentals : list (Rental.t * list Payment.t)) : float :=
  fold_left
    (fun dueAmount rp =>
       let paidAmount := totalPaid (snd rp) in
       PrimFloat.add dueAmount
         (PrimFloat.sub (Rental.rentalPrice (fst rp)) paidAmount))
    rentals 0%float.

Definition toDue (db : DB) (customer : Customer.t) : Due.t :=
  Due.mk (Customer.id customer) (Customer.name customer)
    (Customer.phoneNumber customer) (Customer.creditRating customer)
    (dueAmountOf (unpaidWithPayments (Customer.id customer) db)).

(** [.map(..).filter(c => c.dueAmount > 0).sort((a, b) => b.dueAmount -
    a.dueAmount)]; a comparison that is NaN counts as 0. *)
Definition customersWithDues (db : DB) : list Due.t :=
  Array_sort
    (fun a b => PrimFloat.ltb 0 (PrimFloat.sub (Due.dueAmount b)
                                   (Due.dueAmount a)))
    (filter (fun customer => PrimFloat.ltb 0 (Due.dueAmount customer))
       (map (toDue db) (customers db))).

(** ** Requests that overlap

    A handler awaits the database several times, and another request can be
    served in between. Create Rental reads the battery and the customer
    (rentals.ts 72-91) before it opens its transaction (94-112), and the
    transaction does not read them again. *)

(** What Create Rental holds once its checks have passed. *)
Module Checked.
Record t := mk
  { batteryId : Id; customerId : Id; rentalPrice : float;
    isPaid : option bool }.
End Checked.

(** rentals.ts 64-91: the validation and the two lookups; [inl] is the
    response of a request that stops here. *)
Definition createRental_checks (body : RentalBody.t) (db : DB)
  : Response + Checked.t :=
  match required_string (RentalBody.batteryId body),
        required_string (RentalBody.customerId body),
        required_number (RentalBody.rentalPrice body) with
  | Some batteryId, Some customerId, Some rentalPrice =>
      match prisma.battery.findUnique batteryId db with
      | None => inl (Err BatteryNotFound)
      | Some battery =>
          if negb (Status_eqb (Battery.status battery) AVAILABLE)
          then inl (Err BatteryNotAvailable)
          else
            match prisma.customer.findUnique customerId db with
            | None => inl (Err CustomerNotFound)
            | Some _ =>
                inr (Checked.mk batteryId customerId rentalPrice
                       (RentalBody.isPaid body))
            end
      end
  | _, _, _ => inl (Err RentalFieldsRequired)
  end.

(** The foreign keys of a rental row: the insert is refused when its
    battery or its customer is not stored. *)
Definition rental_foreign_keys (row : Rental.t) : Tx unit := fun db =>
  match prisma.battery.findUnique (Rental.batteryId row) db,
        prisma.customer.findUnique (Rental.customerId row) db with
  | Some _, Some _ => Some (tt, db)
  | _, _ => None
  end.

(** rentals.ts 94-118: the transaction, the 201 and the [catch]. The
    transaction reads neither the battery's status nor the customer; what
    can stop it is the database. *)
Definition createRental_transaction (env : Env) (checked : Checked.t)
  : DB -> Response * DB :=
  try_catch "create rental" (
    result <- transaction (
      _ <- rental_foreign_keys
             (Rental.mk (uuid env) (Checked.batteryId checked)
                (Checked.customerId checked) (now env) None
                (Checked.rentalPrice checked) false) ;;
      rental <- prisma.rental.create
        (Rental.mk (uuid env) (Checked.batteryId checked)
           (Checked.customerId checked) (now env) None
           (Checked.rentalPrice checked)
           match Checked.isPaid checked with
           | Some isPaid => isPaid
           | None => false
           end) ;;
      _ <- prisma.battery.update (Checked.batteryId checked)
             (Battery.set_status RENTED) ;;
      tx_ret rental)%tx ;;
    reply (Ok 201 (JsonRental result)))%handler.

(** Runs in which Create Rental requests may overlap with other requests:
    besides the whole handlers of [reachable], a Create Rental may make its
    checks, wait while other steps are taken, and run its transaction
    later. The other handlers are taken whole; the relation serves to show
    what an overlap can do, not to bound it. *)
Inductive overlapping (allowed : DB -> Op -> Prop)
  : DB -> list (Env * Checked.t) -> Prop :=
| overlapping_empty : overlapping allowed emptyDB []
| overlapping_step db waiting op :
    overlapping allowed db waiting -> allowed db op ->
    overlapping allowed (snd (handle op db)) waiting
| overlapping_checks db waiting env body checked :
    overlapping allowed db waiting ->
    createRental_checks body db = inr checked ->
    overlapping allowed db (waiting ++ [(env, checked)])
| overlapping_transaction db before env checked after :
    overlapping allowed db (before ++ (env, checked) :: after) ->
    overlapping allowed (snd (createRental_transaction env checked db))
      (before ++ after).
(** * Properties *)

Lemma Status_eqb_eq a b : Status_eqb a b = true <-> a = b.
Proof. destruct a, b; simpl; split; congruence. Qed.

(** ** Rows and keys *)

Section Keyed.
Context {T : Type} (key : T -> string).

Lemma find_rewrite k data l :
  (forall x, key (data x) = key x) ->
  find (has_key key k) (map (rewrite_key key k data) l)
  = option_map data (find (has_key key k) l).
Proof.
  intros Hkey. induction l as [|x l IH]; simpl; [reflexivity|].
  unfold has_key, rewrite_key in *.
  destruct (String.eqb (key x) k) eqn:E.
  - rewrite Hkey, E. reflexivity.
  - rewrite E. exact IH.
Qed.

Lemma rewrite_twice k data l :
  (forall x, key (data x) = key x) ->
  (forall x, data (data x) = data x) ->
  map (rewrite_key key k data) (map (rewrite_key key k data) l)
  = map (rewrite_key key k data) l.
Proof.
  intros Hkey Hidem. rewrite map_map. apply map_ext. intros x.
  unfold rewrite_key. destruct (String.eqb (key x) k) eqn:E.
  - rewrite Hkey, E. apply Hidem.
  - rewrite E. reflexivity.
Qed.

Lemma find_snoc_fresh k x l :
  find (has_key key k) l = None -> key x = k ->
  find (has_key key k) (l ++ [x]) = Some x.
Proof.
  intros Hnone Hk. induction l as [|y l IH]; simpl in *.
  - unfold has_key. rewrite Hk, String.eqb_refl. reflexivity.
  - destruct (has_key key k y); [discriminate|]. auto.
Qed.

Lemma find_some_key k x l :
  find (has_key key k) l = Some x -> key x = k /\ In x l.
Proof.
  intros H. apply find_some in H. destruct H as [Hin H].
  apply String.eqb_eq in H. auto.
Qed.

Lemma find_none_key k l :
  find (has_key key k) l = None <-> (forall x, In x l -> key x <> k).
Proof.
  split.
  - intros H x Hin E. apply (find_none _ _ H) in Hin.
    unfold has_key in Hin. rewrite E, String.eqb_refl in Hin. discriminate.
  - intros H. induction l as [|y l IH]; simpl; [reflexivity|].
    unfold has_key at 1. destruct (String.eqb (key y) k) eqn:E.
    + apply String.eqb_eq in E. exfalso. apply (H y); simpl; auto.
    + apply IH. intros x Hin. apply H. simpl; auto.
Qed.
Lemma find_rewrite_other k k' data l :
  (forall x, key (data x) = key x) -> k' <> k ->
  find (has_key key k') (map (rewrite_key key k data) l)
  = find (has_key key k') l.
Proof.
  intros Hkey Hk. induction l as [|x l IH]; simpl; [reflexivity|].
  rewrite IH. unfold rewrite_key.
  destruct (String.eqb (key x) k) eqn:E; [|reflexivity].
  unfold has_key. rewrite Hkey. apply String.eqb_eq in E.
  destruct (String.eqb (key x) k') eqn:E'; [|reflexivity].
  apply String.eqb_eq in E'. congruence.
Qed.
End Keyed.

(** ** The Credit Rating Engine *)

(** The engine reads rentals and payments and writes customers only. *)
Lemma engine_frame cid db :
  batteries (updateCustomerCreditRating cid db) = batteries db
  /\ rentals (updateCustomerCreditRating cid db) = rentals db
  /\ payments (updateCustomerCreditRating cid db) = payments db.
Proof.
  unfold updateCustomerCreditRating, prisma.customer.update.
  destruct (_ =? _)%nat; [auto|].
  destruct (prisma.customer.findUnique cid db); simpl; auto.
Qed.

Lemma findMany_frame cid db db' :
  rentals db' = rentals db -> payments db' = payments db ->
  prisma.rental.findManyWithPayments cid db'
  = prisma.rental.findManyWithPayments cid db.
Proof.
  intros Hr Hp.
  unfold prisma.rental.findManyWithPayments, prisma.rental.ofCustomer,
    prisma.payment.ofRental.
  rewrite Hr, Hp. reflexivity.
Qed.



(** C7: running the recomputation twice in a row leaves the database, and
    so every customer's rating, as one run leaves it. *)
Theorem recompute_idempotent cid db :
  updateCustomerCreditRating cid (updateCustomerCreditRating cid db)
  = updateCustomerCreditRating cid db
  /\ forall c,
      ratingOf c (updateCustomerCreditRating cid
                    (updateCustomerCreditRating cid db))
      = ratingOf c (updateCustomerCreditRating cid db).
Proof.
  assert (H : updateCustomerCreditRating cid (updateCustomerCreditRating cid db)
              = updateCustomerCreditRating cid db).
  { destruct (engine_frame cid db) as [_ [Hr Hp]].
    unfold updateCustomerCreditRating at 1.
    rewrite (findMany_frame cid db _ Hr Hp).
    unfold updateCustomerCreditRating.
    destruct (List.length (prisma.rental.findManyWithPayments cid db) =? 0)%nat
      eqn:E; [reflexivity|].
    unfold prisma.customer.update.
    destruct (prisma.customer.findUnique cid db) as [c|] eqn:Hc.
    - unfold prisma.customer.findUnique at 1. simpl customers.
      rewrite find_rewrite by reflexivity.
      fold (prisma.customer.findUnique cid db). rewrite Hc. simpl option_map.
      unfold with_customers. simpl.
      rewrite rewrite_twice by reflexivity. reflexivity.
    - rewrite Hc. reflexivity. }
  split; [exact H|]. intros c. rewrite H. reflexivity.
Qed.

Lemma createCustomer_ok env body db code c db' :
  createCustomer env body db = (Ok code (JsonCustomer c), db') ->
  prisma.customer.findUnique (Customer.id c) db' = Some c
  /\ Customer.creditRating c = 3.
Proof.
  intros H.
  unfold createCustomer, try_catch, h_bind, query, reply, transaction in H.
  destruct (required_string (CustomerBody.name body)) as [name|];
    [|inversion H].
  destruct (required_string (CustomerBody.phoneNumber body)) as [phone|];
    [|inversion H].
  destruct (prisma.customer.findUniqueByPhone phone db); [inversion H|].
  unfold prisma.customer.create in H. simpl Customer.id in H.
  destruct (prisma.customer.findUnique (uuid env) db) eqn:Hfresh;
    inversion H; subst; clear H.
  split; [|reflexivity].
  unfold prisma.customer.findUnique. simpl customers.
  apply find_snoc_fresh; [exact Hfresh | reflexivity].
Qed.

(** ** Handlers, step by step *)

Ltac run_handler :=
  unfold try_catch, h_bind, query, reply, transaction, effect,
    tx_bind, tx_ret.

Lemma required_number_some q x :
  required_number q = Some x ->
  q = Some x /\ PrimFloat.eqb x 0%float = false.
Proof.
  unfold required_number, truthy_number. destruct q as [y|]; [|discriminate].
  destruct (PrimFloat.eqb y 0%float) eqn:E; simpl; [discriminate|].
  destruct (PrimFloat.eqb y y); simpl; [|discriminate].
  intros H. inversion H; subst. auto.
Qed.

Lemma required_number_zero q :
  q = None \/ q = Some 0%float -> required_number q = None.
Proof. intros [H|H]; subst; reflexivity. Qed.

(** C6: returning a rental that already has a return date answers 400
    "Battery has already been returned", a conflict, and leaves the database,
    so the rental's fields and the battery's status, as it was. *)
Theorem return_twice_conflict env id body db rental d :
  prisma.rental.findUnique id db = Some rental ->
  Rental.returnDate rental = Some d ->
  returnBattery env id body db = (Err AlreadyReturned, db)
  /\ failure AlreadyReturned = Conflict
  /\ statusCode AlreadyReturned = 400.
Proof.
  intros Hfind Hret. unfold returnBattery. run_handler.
  rewrite Hfind, Hret. auto.
Qed.

(** C10: for an existing rental the payment-status operation writes the
    caller's boolean into [isPaid], touches no payment row and no battery,
    reads no payment total, and then runs the recomputation for the rental's
    customer. Afterwards the rental's [isPaid] is the boolean sent, its
    other fields are what they were, and every other rental is as it
    was. *)
Theorem payment_status_overwrites id isPaid db rental :
  prisma.rental.findUnique id db = Some rental ->
  let written :=
    with_rentals
      (map (rewrite_key Rental.id id (Rental.set_isPaid isPaid)) (rentals db))
      db in
  updateRentalPayment id (Some isPaid) db
  = (Ok 200 (JsonRental (Rental.set_isPaid isPaid rental)),
     updateCustomerCreditRating (Rental.customerId rental) written)
  /\ prisma.rental.findUnique id (snd (updateRentalPayment id (Some isPaid) db))
     = Some (Rental.set_isPaid isPaid rental)
  /\ payments (snd (updateRentalPayment id (Some isPaid) db)) = payments db
  /\ batteries (snd (updateRentalPayment id (Some isPaid) db)) = batteries db
  /\ (exists updated,
        prisma.rental.findUnique id
          (snd (updateRentalPayment id (Some isPaid) db)) = Some updated
        /\ Rental.isPaid updated = isPaid
        /\ Rental.id updated = Rental.id rental
        /\ Rental.batteryId updated = Rental.batteryId rental
        /\ Rental.customerId updated = Rental.customerId rental
        /\ Rental.rentDate updated = Rental.rentDate rental
        /\ Rental.returnDate updated = Rental.returnDate rental
        /\ Rental.rentalPrice updated = Rental.rentalPrice rental)
  /\ (forall k, k <> id ->
        prisma.rental.findUnique k
          (snd (updateRentalPayment id (Some isPaid) db))
        = prisma.rental.findUnique k db).
Proof.
  intros Hfind written.
  assert (E : updateRentalPayment id (Some isPaid) db
              = (Ok 200 (JsonRental (Rental.set_isPaid isPaid rental)),
                 updateCustomerCreditRating (Rental.customerId rental) written)).
  { unfold updateRentalPayment. run_handler. rewrite Hfind.
    unfold prisma.rental.update. rewrite Hfind. reflexivity. }
  split; [exact E|]. rewrite E. simpl snd.
  destruct (engine_frame (Rental.customerId rental) written) as [Hb [Hr Hp]].
  unfold prisma.rental.findUnique. rewrite Hr, Hp, Hb.
  unfold written. simpl.
  assert (Hstored : find (has_key Rental.id id)
                      (map (rewrite_key Rental.id id (Rental.set_isPaid isPaid))
                         (rentals db))
                    = Some (Rental.set_isPaid isPaid rental)).
  { rewrite find_rewrite by reflexivity.
    fold (prisma.rental.findUnique id db). rewrite Hfind. reflexivity. }
  split; [exact Hstored|]. split; [reflexivity|]. split; [reflexivity|].
  split.
  - exists (Rental.set_isPaid isPaid rental).
    split; [exact Hstored|]. repeat split.
  - intros k Hk. apply find_rewrite_other; [reflexivity | exact Hk].
Qed.

(** *** Create Rental *)

Lemma createRental_succeeds env body db bid cid price b c :
  required_string (RentalBody.batteryId body) = Some bid ->
  required_string (RentalBody.customerId body) = Some cid ->
  required_number (RentalBody.rentalPrice body) = Some price ->
  prisma.battery.findUnique bid db = Some b ->
  Battery.status b = AVAILABLE ->
  prisma.customer.findUnique cid db = Some c ->
  prisma.rental.findUnique (uuid env) db = None ->
  createRental env body db
  = (Ok 201 (JsonRental
               (newRental env bid cid price (RentalBody.isPaid body))),
     rented bid (newRental env bid cid price (RentalBody.isPaid body)) db).
Proof.
  intros Hbid Hcid Hprice Hb Hst Hc Hfresh.
  unfold createRental. run_handler.
  rewrite Hbid, Hcid, Hprice, Hb, Hst.
  cbv beta iota delta [Status_eqb negb]. rewrite Hc. cbv beta iota.
  unfold prisma.rental.create. simpl Rental.id. rewrite Hfresh.
  unfold prisma.battery.update.
  replace (prisma.battery.findUnique bid
             (with_rentals (rentals db ++ [_]) db))
    with (prisma.battery.findUnique bid db) by reflexivity.
  rewrite Hb. reflexivity.
Qed.

Lemma createRental_outcome env body db :
  (exists e, createRental env body db = (Err e, db))
  \/ (exists bid cid price b,
         required_string (RentalBody.batteryId body) = Some bid
         /\ required_string (RentalBody.customerId body) = Some cid
         /\ required_number (RentalBody.rentalPrice body) = Some price
         /\ prisma.battery.findUnique bid db = Some b
         /\ Battery.status b = AVAILABLE
         /\ prisma.customer.findUnique cid db <> None
         /\ prisma.rental.findUnique (uuid env) db = None
         /\ createRental env body db
            = (Ok 201 (JsonRental
                         (newRental env bid cid price (RentalBody.isPaid body))),
               rented bid
                 (newRental env bid cid price (RentalBody.isPaid body)) db)).
Proof.
  destruct (required_string (RentalBody.batteryId body)) as [bid|] eqn:Hbid;
    [|left; eexists; unfold createRental; run_handler; rewrite Hbid;
      reflexivity].
  destruct (required_string (RentalBody.customerId body)) as [cid|] eqn:Hcid;
    [|left; eexists; unfold createRental; run_handler; rewrite Hbid, Hcid;
      reflexivity].
  destruct (required_number (RentalBody.rentalPrice body)) as [price|]
    eqn:Hprice;
    [|left; eexists; unfold createRental; run_handler;
      rewrite Hbid, Hcid, Hprice; reflexivity].
  destruct (prisma.battery.findUnique bid db) as [b|] eqn:Hb;
    [|left; eexists; unfold createRental; run_handler;
      rewrite Hbid, Hcid, Hprice, Hb; reflexivity].
  destruct (Status_eqb (Battery.status b) AVAILABLE) eqn:Hst;
    [|left; eexists; unfold createRental; run_handler;
      rewrite Hbid, Hcid, Hprice, Hb, Hst; reflexivity].
  apply Status_eqb_eq in Hst.
  destruct (prisma.customer.findUnique cid db) as [c|] eqn:Hc;
    [|left; eexists; unfold createRental; run_handler;
      rewrite Hbid, Hcid, Hprice, Hb, Hst;
      cbv beta iota delta [Status_eqb negb]; rewrite Hc; reflexivity].
  destruct (prisma.rental.findUnique (uuid env) db) eqn:Hfresh;
    [left; eexists; unfold createRental; run_handler;
      rewrite Hbid, Hcid, Hprice, Hb, Hst;
      cbv beta iota delta [Status_eqb negb]; rewrite Hc; cbv beta iota;
      unfold prisma.rental.create; simpl Rental.id; rewrite Hfresh;
      reflexivity|].
  right. exists bid, cid, price, b.
  repeat (split; [solve [auto | rewrite Hc; discriminate]|]).
  exact (createRental_succeeds env body db bid cid price b c
           Hbid Hcid Hprice Hb Hst Hc Hfresh).
Qed.

(** C3, for a request whose ids are not empty and whose price is not 0: a
    missing battery is NotFound, a battery that is not AVAILABLE is
    Conflict, and then a missing customer is NotFound; a failure writes
    nothing; a success inserts one rental, for that battery and customer and
    with no return date, and sets the battery RENTED, both or neither. For a
    price the column stores as sent the inserted row is the one built from
    the request, and the request succeeds whenever the three checks pass. *)
Theorem create_rental_checks env body db bid cid price :
  required_string (RentalBody.batteryId body) = Some bid ->
  required_string (RentalBody.customerId body) = Some cid ->
  required_number (RentalBody.rentalPrice body) = Some price ->
  (prisma.battery.findUnique bid db = None ->
   createRental env body db = (Err BatteryNotFound, db))
  /\ (forall b, prisma.battery.findUnique bid db = Some b ->
                Battery.status b <> AVAILABLE ->
                createRental env body db = (Err BatteryNotAvailable, db))
  /\ (forall b, prisma.battery.findUnique bid db = Some b ->
                Battery.status b = AVAILABLE ->
                prisma.customer.findUnique cid db = None ->
                createRental env body db = (Err CustomerNotFound, db))
  /\ (failure BatteryNotFound = NotFound
      /\ failure BatteryNotAvailable = Conflict
      /\ failure CustomerNotFound = NotFound)
  /\ (forall e db', createRental env body db = (Err e, db') -> db' = db)
  /\ (forall code json db',
         createRental env body db = (Ok code json, db') ->
         exists rental,
           code = 201 /\ json = JsonRental rental
           /\ Rental.batteryId rental = bid
           /\ Rental.customerId rental = cid
           /\ Rental.returnDate rental = None
           /\ rentals db' = rentals db ++ [rental]
           /\ option_map Battery.status (prisma.battery.findUnique bid db')
              = Some RENTED
           /\ db' = rented bid rental db
           /\ (Decimal_10_2 price ->
               rental = newRental env bid cid price (RentalBody.isPaid body)))
  /\ (forall b c, prisma.battery.findUnique bid db = Some b ->
                  Battery.status b = AVAILABLE ->
                  prisma.customer.findUnique cid db = Some c ->
                  prisma.rental.findUnique (uuid env) db = None ->
                  Decimal_10_2 price ->
                  exists rental db',
                    createRental env body db = (Ok 201 (JsonRental rental), db')).
Proof.
  intros Hbid Hcid Hprice.
  split; [|split; [|split; [|split; [|split; [|split]]]]].
  - intros Hb. unfold createRental. run_handler.
    rewrite Hbid, Hcid, Hprice, Hb. reflexivity.
  - intros b Hb Hst. unfold createRental. run_handler.
    rewrite Hbid, Hcid, Hprice, Hb.
    destruct (Status_eqb (Battery.status b) AVAILABLE) eqn:E;
      [apply Status_eqb_eq in E; contradiction | reflexivity].
  - intros b Hb Hst Hc. unfold createRental. run_handler.
    rewrite Hbid, Hcid, Hprice, Hb, Hst.
    cbv beta iota delta [Status_eqb negb]. rewrite Hc. reflexivity.
  - auto.
  - intros e db' H.
    destruct (createRental_outcome env body db) as [[e' E]|[? [? [? [? E]]]]].
    + rewrite E in H. inversion H. reflexivity.
    + destruct E as [_ [_ [_ [_ [_ [_ [_ E]]]]]]]. rewrite E in H. inversion H.
  - intros code json db' H.
    destruct (createRental_outcome env body db)
      as [[e' E]|[bid' [cid' [price' [b E]]]]].
    + rewrite E in H. inversion H.
    + destruct E as [E1 [E2 [E3 [Hb [_ [_ [_ E]]]]]]].
      rewrite Hbid in E1. rewrite Hcid in E2. rewrite Hprice in E3.
      inversion E1; inversion E2; inversion E3; subst bid' cid' price'.
      rewrite E in H. inversion H; subst.
      exists (newRental env bid cid price (RentalBody.isPaid body)). simpl.
      repeat split; try reflexivity.
      unfold prisma.battery.findUnique, rented. simpl batteries.
      rewrite find_rewrite by reflexivity.
      fold (prisma.battery.findUnique bid db). rewrite Hb. reflexivity.
  - intros b c Hb Hst Hc Hfresh _.
    eexists. eexists.
    exact (createRental_succeeds env body db bid cid price b c
             Hbid Hcid Hprice Hb Hst Hc Hfresh).
Qed.

(** *** Record Payment *)

Lemma createPayment_succeeds env body db rid cid amount method r c :
  required_string (PaymentBody.rentalId body) = Some rid ->
  required_string (PaymentBody.customerId body) = Some cid ->
  required_number (PaymentBody.amount body) = Some amount ->
  PaymentBody.paymentMethod body = Some method ->
  prisma.rental.findUnique rid db = Some r ->
  prisma.customer.findUnique cid db = Some c ->
  Rental.customerId r = cid ->
  prisma.payment.findUnique (uuid env) db = None ->
  createPayment env body db
  = (Ok 201 (JsonPayment (newPayment env rid cid amount method)),
     updateCustomerCreditRating cid
       (paid (newPayment env rid cid amount method) r db)).
Proof.
  intros Hrid Hcid Ha Hm Hr Hc Hmatch Hfresh.
  assert (Hid : Rental.id r = rid)
    by (apply (find_some_key Rental.id) in Hr; tauto).
  unfold createPayment. run_handler.
  rewrite Hrid, Hcid, Ha, Hm, Hr. cbv beta iota. rewrite Hc.
  cbv beta iota. rewrite Hmatch, String.eqb_refl, Hid.
  cbv beta iota delta [negb].
  unfold prisma.payment.create. simpl Payment.id. rewrite Hfresh.
  unfold paid, newPayment. simpl Payment.rentalId. simpl Payment.amount.
  destruct (PrimFloat.leb (Rental.rentalPrice r)
              (PrimFloat.add (totalPaid (prisma.payment.ofRental rid db))
                 amount)).
  - unfold prisma.rental.update.
    replace (prisma.rental.findUnique rid (with_payments _ db))
      with (prisma.rental.findUnique rid db) by reflexivity.
    rewrite Hr. reflexivity.
  - reflexivity.
Qed.

Lemma createPayment_outcome env body db :
  (exists e, createPayment env body db = (Err e, db))
  \/ (exists rid cid amount method r,
         required_string (PaymentBody.rentalId body) = Some rid
         /\ required_string (PaymentBody.customerId body) = Some cid
         /\ required_number (PaymentBody.amount body) = Some amount
         /\ PaymentBody.paymentMethod body = Some method
         /\ prisma.rental.findUnique rid db = Some r
         /\ prisma.customer.findUnique cid db <> None
         /\ Rental.customerId r = cid
         /\ prisma.payment.findUnique (uuid env) db = None
         /\ createPayment env body db
            = (Ok 201 (JsonPayment (newPayment env rid cid amount method)),
               updateCustomerCreditRating cid
                 (paid (newPayment env rid cid amount method) r db))).
Proof.
  destruct (required_string (PaymentBody.rentalId body)) as [rid|] eqn:Hrid;
    [|left; eexists; unfold createPayment; run_handler; rewrite Hrid;
      reflexivity].
  destruct (required_string (PaymentBody.customerId body)) as [cid|] eqn:Hcid;
    [|left; eexists; unfold createPayment; run_handler; rewrite Hrid, Hcid;
      reflexivity].
  destruct (required_number (PaymentBody.amount body)) as [amount|] eqn:Ha;
    [|left; eexists; unfold createPayment; run_handler;
      rewrite Hrid, Hcid, Ha; reflexivity].
  destruct (PaymentBody.paymentMethod body) as [method|] eqn:Hm;
    [|left; eexists; unfold createPayment; run_handler;
      rewrite Hrid, Hcid, Ha, Hm; reflexivity].
  destruct (prisma.rental.findUnique rid db) as [r|] eqn:Hr;
    [|left; eexists; unfold createPayment; run_handler;
      rewrite Hrid, Hcid, Ha, Hm, Hr; reflexivity].
  destruct (prisma.customer.findUnique cid db) as [c|] eqn:Hc;
    [|left; eexists; unfold createPayment; run_handler;
      rewrite Hrid, Hcid, Ha, Hm, Hr; cbv beta iota; rewrite Hc;
      reflexivity].
  destruct (String.eqb (Rental.customerId r) cid) eqn:Hmatch;
    [|left; eexists; unfold createPayment; run_handler;
      rewrite Hrid, Hcid, Ha, Hm, Hr; cbv beta iota; rewrite Hc;
      cbv beta iota; rewrite Hmatch; reflexivity].
  apply String.eqb_eq in Hmatch.
  destruct (prisma.payment.findUnique (uuid env) db) eqn:Hfresh;
    [left; eexists; unfold createPayment; run_handler;
      rewrite Hrid, Hcid, Ha, Hm, Hr; cbv beta iota; rewrite Hc;
      cbv beta iota; rewrite Hmatch, String.eqb_refl;
      cbv beta iota delta [negb]; unfold prisma.payment.create;
      simpl Payment.id; rewrite Hfresh; reflexivity|].
  right. exists rid, cid, amount, method, r.
  repeat (split; [solve [auto | rewrite Hc; discriminate]|]).
  exact (createPayment_succeeds env body db rid cid amount method r c
           Hrid Hcid Ha Hm Hr Hc Hmatch Hfresh).
Qed.

Lemma totalPaid_snoc ps p :
  totalPaid (ps ++ [p]) = PrimFloat.add (totalPaid ps) (Payment.amount p).
Proof. unfold totalPaid. rewrite fold_left_app. reflexivity. Qed.

Lemma ofRental_paid p r db :
  prisma.payment.ofRental (Payment.rentalId p) (paid p r db)
  = prisma.payment.ofRental (Payment.rentalId p) db ++ [p].
Proof.
  assert (H : payments (paid p r db) = payments db ++ [p])
    by (unfold paid; destruct (PrimFloat.leb _ _); reflexivity).
  unfold prisma.payment.ofRental. rewrite H, filter_app. simpl.
  unfold has_key at 2. rewrite String.eqb_refl. reflexivity.
Qed.

Lemma findRental_paid p r db :
  prisma.rental.findUnique (Payment.rentalId p) db = Some r ->
  prisma.rental.findUnique (Payment.rentalId p) (paid p r db)
  = Some (if PrimFloat.leb (Rental.rentalPrice r)
               (PrimFloat.add
                  (totalPaid (prisma.payment.ofRental (Payment.rentalId p) db))
                  (Payment.amount p))
          then Rental.set_isPaid true r else r).
Proof.
  intros Hr. unfold paid. destruct (PrimFloat.leb _ _).
  - unfold prisma.rental.findUnique. simpl rentals.
    rewrite find_rewrite by reflexivity.
    fold (prisma.rental.findUnique (Payment.rentalId p) db).
    rewrite Hr. reflexivity.
  - exact Hr.
Qed.

(** What Record Payment does to the flag: after a success the rental is
    paid exactly when the binary64 sum of its payments, the new one last,
    compares [>=] to the rental price, or it was paid before; a payment on a
    paid rental is accepted like any other and leaves it paid. *)
Lemma record_payment_flag env body db :
  (forall code json db',
      createPayment env body db = (Ok code json, db') ->
      exists p r r',
        json = JsonPayment p
        /\ PaymentBody.amount body = Some (Payment.amount p)
        /\ prisma.rental.findUnique (Payment.rentalId p) db = Some r
        /\ prisma.rental.findUnique (Payment.rentalId p) db' = Some r'
        /\ prisma.payment.ofRental (Payment.rentalId p) db'
           = prisma.payment.ofRental (Payment.rentalId p) db ++ [p]
        /\ (Rental.isPaid r' = true <->
            PrimFloat.leb (Rental.rentalPrice r)
              (totalPaid (prisma.payment.ofRental (Payment.rentalId p) db'))
            = true
            \/ Rental.isPaid r = true))
  /\ (forall rid cid amount method r c,
         required_string (PaymentBody.rentalId body) = Some rid ->
         required_string (PaymentBody.customerId body) = Some cid ->
         required_number (PaymentBody.amount body) = Some amount ->
         PaymentBody.paymentMethod body = Some method ->
         prisma.rental.findUnique rid db = Some r ->
         prisma.customer.findUnique cid db = Some c ->
         Rental.customerId r = cid ->
         prisma.payment.findUnique (uuid env) db = None ->
         Rental.isPaid r = true ->
         exists p db' r',
           createPayment env body db = (Ok 201 (JsonPayment p), db')
           /\ prisma.rental.findUnique rid db' = Some r'
           /\ Rental.isPaid r' = true).
Proof.
  assert (Hok : forall code json db',
             createPayment env body db = (Ok code json, db') ->
             exists rid cid amount method r,
               required_number (PaymentBody.amount body) = Some amount
               /\ prisma.rental.findUnique rid db = Some r
               /\ json = JsonPayment (newPayment env rid cid amount method)
               /\ db' = updateCustomerCreditRating cid
                          (paid (newPayment env rid cid amount method) r db)).
  { intros code json db' H.
    destruct (createPayment_outcome env body db)
      as [[e E]|[rid [cid [amount [method [r E]]]]]].
    - rewrite E in H. inversion H.
    - destruct E as [_ [_ [Ha [_ [Hr [_ [_ [_ E]]]]]]]].
      rewrite E in H. inversion H; subst.
      exists rid, cid, amount, method, r. auto. }
  assert (Hpaid : forall p r cid,
             prisma.rental.findUnique (Payment.rentalId p) db = Some r ->
             exists r',
               prisma.rental.findUnique (Payment.rentalId p)
                 (updateCustomerCreditRating cid (paid p r db)) = Some r'
               /\ (Rental.isPaid r' = true <->
                   PrimFloat.leb (Rental.rentalPrice r)
                     (totalPaid
                        (prisma.payment.ofRental (Payment.rentalId p)
                           (updateCustomerCreditRating cid (paid p r db))))
                   = true
                   \/ Rental.isPaid r = true)).
  { intros p r cid Hr.
    destruct (engine_frame cid (paid p r db)) as [_ [Hrs Hps]].
    unfold prisma.rental.findUnique, prisma.payment.ofRental at 1.
    rewrite Hrs, Hps.
    fold (prisma.rental.findUnique (Payment.rentalId p) (paid p r db)).
    fold (prisma.payment.ofRental (Payment.rentalId p) (paid p r db)).
    rewrite (findRental_paid p r db Hr), ofRental_paid, totalPaid_snoc.
    eexists. split; [reflexivity|].
    destruct (PrimFloat.leb _ _) eqn:E.
    - simpl. tauto.
    - split; [tauto|]. intros [Hle|Hp]; [discriminate | exact Hp]. }
  split.
  - intros code json db' H.
    destruct (Hok code json db' H)
      as [rid [cid [amount [method [r [Ha [Hr [Hj Hdb]]]]]]]].
    subst json db'. set (p := newPayment env rid cid amount method).
    destruct (Hpaid p r cid Hr) as [r' [Hr' Hiff]].
    exists p, r, r'. split; [reflexivity|].
    split; [apply required_number_some in Ha; tauto|].
    split; [exact Hr|]. split; [exact Hr'|]. split; [|exact Hiff].
    destruct (engine_frame cid (paid p r db)) as [_ [_ Hps]].
    unfold prisma.payment.ofRental at 1. rewrite Hps.
    apply ofRental_paid.
  - intros rid cid amount method r c Hrid Hcid Ha Hm Hr Hc Hmatch Hfresh Hp.
    set (p := newPayment env rid cid amount method).
    destruct (Hpaid p r cid Hr) as [r' [Hr' Hiff]].
    exists p, (updateCustomerCreditRating cid (paid p r db)), r'.
    split; [|split; [exact Hr'|apply Hiff; right; exact Hp]].
    exact (createPayment_succeeds env body db rid cid amount method r c
             Hrid Hcid Ha Hm Hr Hc Hmatch Hfresh).
Qed.

(** C5, as the handler orders its checks: with the required fields present
    and the rental found, an existing customer other than the rental's is a
    Conflict; a missing or zero amount is InvalidInput; a failure inserts no
    payment and leaves the rental, and the rest of the database, as it
    was. *)
Theorem record_payment_checks env body db :
  (forall rid cid amount method r c,
      required_string (PaymentBody.rentalId body) = Some rid ->
      required_string (PaymentBody.customerId body) = Some cid ->
      required_number (PaymentBody.amount body) = Some amount ->
      PaymentBody.paymentMethod body = Some method ->
      prisma.rental.findUnique rid db = Some r ->
      prisma.customer.findUnique cid db = Some c ->
      Rental.customerId r <> cid ->
      createPayment env body db = (Err CustomerMismatch, db))
  /\ (PaymentBody.amount body = None
      \/ PaymentBody.amount body = Some 0%float ->
      createPayment env body db = (Err PaymentFieldsRequired, db))
  /\ (failure CustomerMismatch = Conflict
      /\ failure PaymentFieldsRequired = InvalidInput)
  /\ (forall e db', createPayment env body db = (Err e, db') -> db' = db).
Proof.
  split; [|split; [|split]].
  - intros rid cid amount method r c Hrid Hcid Ha Hm Hr Hc Hne.
    unfold createPayment. run_handler.
    rewrite Hrid, Hcid, Ha, Hm, Hr. cbv beta iota. rewrite Hc.
    cbv beta iota. apply String.eqb_neq in Hne. rewrite Hne. reflexivity.
  - intros H. apply required_number_zero in H.
    unfold createPayment. run_handler. rewrite H.
    destruct (required_string (PaymentBody.rentalId body));
      destruct (required_string (PaymentBody.customerId body)); reflexivity.
  - auto.
  - intros e db' H.
    destruct (createPayment_outcome env body db)
      as [[e' E]|[? [? [? [? [? E]]]]]].
    + rewrite E in H. inversion H. reflexivity.
    + destruct E as [_ [_ [_ [_ [_ [_ [_ [_ E]]]]]]]]. rewrite E in H.
      inversion H.
Qed.

(** ** The range of the computed rating *)

Lemma addRentalPoints_bounds total rp :
  total <= addRentalPoints total rp <= total + 3.
Proof.
  unfold addRentalPoints. destruct rp as [rental pays].
  destruct (Rental.isPaid rental); destruct (0 <? List.length pays)%nat;
    destruct (Rental.returnDate rental) as [ret|];
    try destruct (rentDuration (Rental.rentDate rental) ret <=? 7); lia.
Qed.

Lemma fold_points_bounds l : forall total,
  total <= fold_left addRentalPoints l total
  <= total + 3 * Z.of_nat (List.length l).
Proof.
  induction l as [|rp l IH]; intros total; simpl fold_left.
  - simpl. lia.
  - specialize (IH (addRentalPoints total rp)).
    pose proof (addRentalPoints_bounds total rp).
    change (List.length (rp :: l)) with (S (List.length l)). lia.
Qed.

Lemma totalPointsOf_bounds l :
  0 <= totalPointsOf l <= 3 * Z.of_nat (List.length l).
Proof. unfold totalPointsOf. pose proof (fold_points_bounds l 0). lia. Qed.

Lemma creditRatingOf_range totalPoints totalRentals :
  (0 < totalRentals)%nat ->
  0 <= totalPoints <= 3 * Z.of_nat totalRentals ->
  0 <= creditRatingOf totalPoints totalRentals <= 5.
Proof.
  intros Hn [Hlo Hhi]. unfold creditRatingOf, Math_round.
  set (m := Z.of_nat totalRentals * 3).
  assert (Hm : (0 < inject_Z m)%Q).
  { change 0%Q with (inject_Z 0). rewrite <- Zlt_Qlt. unfold m. lia. }
  assert (Hq0 : (0 <= inject_Z totalPoints / inject_Z m)%Q).
  { apply Qle_shift_div_l; [exact Hm|]. rewrite Qmult_0_l.
    change 0%Q with (inject_Z 0). rewrite <- Zle_Qle. exact Hlo. }
  assert (Hq1 : (inject_Z totalPoints / inject_Z m <= 1)%Q).
  { apply Qle_shift_div_r; [exact Hm|]. rewrite Qmult_1_l.
    rewrite <- Zle_Qle. unfold m. lia. }
  split.
  - change 0 with (Qfloor 0). apply Qfloor_resp_le.
    apply Qle_trans with (0 * 5 + (1 # 2))%Q; [discriminate|].
    apply Qplus_le_l. apply Qmult_le_compat_r; [exact Hq0 | discriminate].
  - change 5 with (Qfloor (1 * 5 + (1 # 2))). apply Qfloor_resp_le.
    apply Qplus_le_l. apply Qmult_le_compat_r; [exact Hq1 | discriminate].
Qed.

Lemma f64_agrees_200 :
  forallb (fun n =>
    forallb (fun t => f64_agrees_at (Z.of_nat t) (S n))
      (seq 0 (3 * S n + 1))) (seq 0 200) = true.
Proof. vm_compute. reflexivity. Qed.

Lemma forallb_seq (f : nat -> bool) len k :
  forallb f (seq 0 len) = true -> (k < len)%nat -> f k = true.
Proof.
  intros H Hk. rewrite forallb_forall in H. apply H. apply in_seq. lia.
Qed.

(** Up to 200 rentals the rating computed on doubles is the exact one. *)
Lemma creditRating_f64_agrees totalPoints totalRentals :
  (0 < totalRentals <= 200)%nat ->
  0 <= totalPoints <= 3 * Z.of_nat totalRentals ->
  F64.creditRatingOf totalPoints totalRentals
  = Some (creditRatingOf totalPoints totalRentals).
Proof.
  intros Hn Ht. destruct totalRentals as [|n]; [lia|].
  assert (Hn' : (n < 200)%nat) by lia.
  assert (Ht' : (Z.to_nat totalPoints < 3 * S n + 1)%nat) by lia.
  pose proof (forallb_seq _ _ _ (forallb_seq _ _ _ f64_agrees_200 Hn') Ht')
    as H.
  cbv beta in H. rewrite Z2Nat.id in H by lia. unfold f64_agrees_at in H.
  destruct (F64.creditRatingOf totalPoints (S n)) as [rating|];
    [|discriminate].
  apply Z.eqb_eq in H. congruence.
Qed.

(** The engine leaves the database as it is or, for a customer with
    rentals, rewrites the rating with a value between 0 and 5. *)
Lemma engine_outcome cid db :
  updateCustomerCreditRating cid db = db
  \/ exists rating,
      0 <= rating <= 5
      /\ prisma.rental.ofCustomer cid db <> []
      /\ updateCustomerCreditRating cid db
         = with_customers
             (map (rewrite_key Customer.id cid
                     (Customer.set_creditRating rating)) (customers db)) db.
Proof.
  unfold updateCustomerCreditRating.
  set (l := prisma.rental.findManyWithPayments cid db).
  destruct (List.length l =? 0)%nat eqn:E; [left; reflexivity|].
  apply Nat.eqb_neq in E. unfold prisma.customer.update.
  destruct (prisma.customer.findUnique cid db); [|left; reflexivity].
  right. eexists. split; [|split; [|reflexivity]].
  - apply creditRatingOf_range; [lia|]. apply totalPointsOf_bounds.
  - intros Hnone. apply E. unfold l, prisma.rental.findManyWithPayments.
    rewrite Hnone. reflexivity.
Qed.

(** ** What each handler writes *)

Ltac case_on_inner_match :=
  match goal with
  | |- context [match ?x with _ => _ end] =>
      lazymatch x with
      | context [match _ with _ => _ end] => fail
      | _ => destruct x eqn:?
      end
  end.

Ltac settle_handler :=
  repeat (cbv beta iota; case_on_inner_match);
  cbv beta iota; simpl snd; try (left; reflexivity).

Lemma createBattery_db env body db :
  snd (createBattery env body db) = db
  \/ exists serialNumber price,
      prisma.battery.findUnique (uuid env) db = None
      /\ snd (createBattery env body db)
         = with_batteries
             (batteries db
              ++ [Battery.mk (uuid env) serialNumber price AVAILABLE]) db.
Proof.
  unfold createBattery. run_handler. unfold prisma.battery.create.
  simpl Battery.id. settle_handler.
  right. do 2 eexists. split; [eassumption | reflexivity].
Qed.

Lemma updateBattery_db id body db :
  snd (updateBattery id body db) = db
  \/ exists data,
      (forall b, Battery.id (data b) = Battery.id b
                 /\ (BatteryBody.status body = None ->
                     Battery.status (data b) = Battery.status b)
                 /\ (forall s, BatteryBody.status body = Some s ->
                               Battery.status (data b) = s))
      /\ snd (updateBattery id body db)
         = with_batteries (map (rewrite_key Battery.id id data) (batteries db))
             db.
Proof.
  assert (Hdata : forall b,
             let data := fun b =>
               spread (required_string (BatteryBody.serialNumber body))
                 Battery.set_serialNumber
                 (spread (required_number (BatteryBody.price body))
                    Battery.set_price
                    (spread (BatteryBody.status body) Battery.set_status b)) in
             Battery.id (data b) = Battery.id b
             /\ (BatteryBody.status body = None ->
                 Battery.status (data b) = Battery.status b)
             /\ (forall s, BatteryBody.status body = Some s ->
                           Battery.status (data b) = s)).
  { intros b data. unfold data, spread.
    destruct (required_string _), (required_number _),
      (BatteryBody.status body); simpl; repeat split; congruence. }
  unfold updateBattery. run_handler. unfold prisma.battery.update.
  settle_handler; right; eexists; (split; [exact Hdata | reflexivity]).
Qed.

Lemma deleteBattery_db id db :
  snd (deleteBattery id db) = db
  \/ (prisma.rental.ofBattery id db = []
      /\ snd (deleteBattery id db)
         = with_batteries
             (filter (fun x => negb (has_key Battery.id id x)) (batteries db))
             db).
Proof.
  unfold deleteBattery. run_handler. unfold prisma.battery.delete.
  destruct (prisma.battery.findUnique id db) as [b|] eqn:Hb;
    [|left; reflexivity].
  destruct (prisma.rental.ofBattery id db) eqn:E; [|left; reflexivity].
  change (0 <? List.length (@nil Rental.t))%nat with false.
  cbv beta iota. rewrite Hb. right. split; reflexivity.
Qed.

Lemma createCustomer_db env body db :
  snd (createCustomer env body db) = db
  \/ exists name phoneNumber address,
      snd (createCustomer env body db)
      = with_customers
          (customers db ++ [Customer.mk (uuid env) name phoneNumber address 3])
          db.
Proof.
  unfold createCustomer. run_handler. unfold prisma.customer.create.
  simpl Customer.id. settle_handler; right; do 3 eexists; reflexivity.
Qed.

Lemma updateCustomer_db id body db :
  snd (updateCustomer id body db) = db
  \/ exists data,
      (forall c, Customer.id (data c) = Customer.id c
                 /\ (CustomerBody.creditRating body = None ->
                     Customer.creditRating (data c) = Customer.creditRating c)
                 /\ (forall v, CustomerBody.creditRating body = Some v ->
                               Customer.creditRating (data c) = v))
      /\ snd (updateCustomer id body db)
         = with_customers
             (map (rewrite_key Customer.id id data) (customers db)) db.
Proof.
  assert (Hdata : forall c,
             let data := fun c =>
               spread (required_string (CustomerBody.name body))
                 Customer.set_name
                 (spread (required_string (CustomerBody.phoneNumber body))
                    Customer.set_phoneNumber
                    (spread (CustomerBody.address body) Customer.set_address
                       (spread (CustomerBody.creditRating body)
                          Customer.set_creditRating c))) in
             Customer.id (data c) = Customer.id c
             /\ (CustomerBody.creditRating body = None ->
                 Customer.creditRating (data c) = Customer.creditRating c)
             /\ (forall v, CustomerBody.creditRating body = Some v ->
                           Customer.creditRating (data c) = v)).
  { intros c data. unfold data, spread.
    destruct (required_string (CustomerBody.name body)),
      (required_string (CustomerBody.phoneNumber body)),
      (CustomerBody.address body), (CustomerBody.creditRating body);
      simpl; repeat split; congruence. }
  unfold updateCustomer. run_handler. unfold prisma.customer.update.
  settle_handler; right; eexists; (split; [exact Hdata | reflexivity]).
Qed.

Lemma deleteCustomer_db id db :
  snd (deleteCustomer id db) = db
  \/ snd (deleteCustomer id db)
     = with_customers
         (filter (fun x => negb (has_key Customer.id id x)) (customers db)) db.
Proof.
  unfold deleteCustomer. run_handler. unfold prisma.customer.delete.
  settle_handler; right; reflexivity.
Qed.

(** The database after the transaction of [returnBattery]. *)
Lemma returnBattery_db env id body db :
  snd (returnBattery env id body db) = db
  \/ exists rental b data,
      prisma.rental.findUnique id db = Some rental
      /\ Rental.returnDate rental = None
      /\ prisma.battery.findUnique (Rental.batteryId rental) db = Some b
      /\ (forall r, Rental.id (data r) = Rental.id r
                    /\ Rental.batteryId (data r) = Rental.batteryId r
                    /\ Rental.customerId (data r) = Rental.customerId r
                    /\ Rental.returnDate (data r) <> None)
      /\ snd (returnBattery env id body db)
         = updateCustomerCreditRating (Rental.customerId rental)
             (with_batteries
                (map (rewrite_key Battery.id (Rental.batteryId rental)
                        (Battery.set_status AVAILABLE)) (batteries db))
                (with_rentals (map (rewrite_key Rental.id id data) (rentals db))
                   db)).
Proof.
  unfold returnBattery. run_handler.
  destruct (prisma.rental.findUnique id db) as [rental|] eqn:Hr;
    [|left; reflexivity].
  destruct (Rental.returnDate rental) eqn:Hret; [left; reflexivity|].
  unfold prisma.rental.update. rewrite Hr. unfold prisma.battery.update.
  replace (prisma.battery.findUnique (Rental.batteryId rental)
             (with_rentals _ db))
    with (prisma.battery.findUnique (Rental.batteryId rental) db)
    by reflexivity.
  destruct (prisma.battery.findUnique (Rental.batteryId rental) db) as [b|]
    eqn:Hb; [|left; reflexivity].
  right. exists rental, b. eexists.
  split; [reflexivity|]. split; [exact Hret|]. split; [exact Hb|].
  split; [|reflexivity].
  intros r. simpl. repeat split. discriminate.
Qed.

Lemma updateRentalPayment_db id isPaid db :
  snd (updateRentalPayment id isPaid db) = db
  \/ exists rental p,
      snd (updateRentalPayment id isPaid db)
      = updateCustomerCreditRating (Rental.customerId rental)
          (with_rentals
             (map (rewrite_key Rental.id id (Rental.set_isPaid p)) (rentals db))
             db).
Proof.
  unfold updateRentalPayment. run_handler.
  destruct isPaid as [p|]; [|left; reflexivity].
  destruct (prisma.rental.findUnique id db) as [rental|] eqn:Hr;
    [|left; reflexivity].
  unfold prisma.rental.update. rewrite Hr. right. exists rental, p.
  reflexivity.
Qed.

(** ** The rental lifecycle invariant *)

Lemma in_rewrite {T} (key : T -> string) k data l y :
  In y (map (rewrite_key key k data) l)
  <-> exists x, In x l
                /\ ((key x = k /\ y = data x) \/ (key x <> k /\ y = x)).
Proof.
  rewrite in_map_iff. unfold rewrite_key. split.
  - intros [x [E Hin]]. exists x. split; [exact Hin|].
    destruct (String.eqb (key x) k) eqn:Ek.
    + apply String.eqb_eq in Ek. auto.
    + apply String.eqb_neq in Ek. auto.
  - intros [x [Hin [[Ek E]|[Ek E]]]]; exists x; (split; [|exact Hin]).
    + apply String.eqb_eq in Ek. rewrite Ek. auto.
    + apply String.eqb_neq in Ek. rewrite Ek. auto.
Qed.

Lemma inv_add_battery bs rs b :
  lifecycle_inv bs rs ->
  find (has_key Battery.id (Battery.id b)) bs = None ->
  Battery.status b = AVAILABLE ->
  lifecycle_inv (bs ++ [b]) rs.
Proof.
  intros [I1 [I2 [I3 I4]]] Hfresh Hst.
  split; [|split; [|split]]; auto.
  - intros b' Hin. apply in_app_or in Hin. destruct Hin as [Hin|[E|[]]].
    + auto.
    + subst b'. split; [congruence|].
      intros [r [Hr [Hbid _]]]. exfalso.
      destruct (I2 r Hr) as [b0 [Hb0 E0]].
      rewrite (find_none_key Battery.id) in Hfresh.
      apply (Hfresh b0 Hb0). congruence.
  - intros r Hr. destruct (I2 r Hr) as [b0 [Hb0 E0]].
    exists b0. split; [apply in_or_app; auto | exact E0].
Qed.

Lemma inv_rewrite_battery bs rs k data :
  (forall b, Battery.id (data b) = Battery.id b
             /\ (Battery.status (data b) = Battery.status b
                 \/ (Battery.status (data b) = RENTED
                     <-> open_rental_on k rs))) ->
  lifecycle_inv bs rs ->
  lifecycle_inv (map (rewrite_key Battery.id k data) bs) rs.
Proof.
  intros Hdata [I1 [I2 [I3 I4]]].
  split; [|split; [|split]]; auto.
  - intros b' Hin. apply in_rewrite in Hin.
    destruct Hin as [b [Hb [[Ek E]|[_ E]]]]; subst b'; [|auto].
    destruct (Hdata b) as [Eid [Est|Est]]; rewrite Eid.
    + rewrite Est. auto.
    + rewrite Ek. exact Est.
  - intros r Hr. destruct (I2 r Hr) as [b [Hb E]].
    exists (rewrite_key Battery.id k data b).
    split; [apply in_map; exact Hb|].
    unfold rewrite_key. destruct (String.eqb (Battery.id b) k); [|exact E].
    destruct (Hdata b) as [Eid _]. congruence.
Qed.

Lemma inv_delete_battery bs rs k :
  filter (has_key Rental.batteryId k) rs = [] ->
  lifecycle_inv bs rs ->
  lifecycle_inv (filter (fun x => negb (has_key Battery.id k x)) bs) rs.
Proof.
  intros Hnone [I1 [I2 [I3 I4]]].
  split; [|split; [|split]]; auto.
  - intros b Hin. apply filter_In in Hin. destruct Hin as [Hin _]. auto.
  - intros r Hr. destruct (I2 r Hr) as [b [Hb E]].
    exists b. split; [|exact E]. apply filter_In. split; [exact Hb|].
    unfold has_key. destruct (String.eqb (Battery.id b) k) eqn:Ek;
      [|reflexivity].
    exfalso. apply String.eqb_eq in Ek.
    assert (Hin : In r (filter (has_key Rental.batteryId k) rs)).
    { apply filter_In. split; [exact Hr|]. unfold has_key.
      apply String.eqb_eq. congruence. }
    rewrite Hnone in Hin. exact Hin.
Qed.

Lemma inv_rewrite_rental bs rs k data :
  (forall r, Rental.id (data r) = Rental.id r
             /\ Rental.batteryId (data r) = Rental.batteryId r
             /\ Rental.returnDate (data r) = Rental.returnDate r) ->
  lifecycle_inv bs rs ->
  lifecycle_inv bs (map (rewrite_key Rental.id k data) rs).
Proof.
  intros Hdata [I1 [I2 [I3 I4]]].
  assert (Hback : forall y, In y (map (rewrite_key Rental.id k data) rs) ->
            exists x, In x rs /\ Rental.id y = Rental.id x
                      /\ Rental.batteryId y = Rental.batteryId x
                      /\ Rental.returnDate y = Rental.returnDate x).
  { intros y Hy. apply in_rewrite in Hy.
    destruct Hy as [x [Hx [[_ E]|[_ E]]]]; subst y; exists x;
      [destruct (Hdata x) as [? [? ?]]|]; auto. }
  assert (Hforth : forall x, In x rs ->
            exists y, In y (map (rewrite_key Rental.id k data) rs)
                      /\ Rental.id y = Rental.id x
                      /\ Rental.batteryId y = Rental.batteryId x
                      /\ Rental.returnDate y = Rental.returnDate x).
  { intros x Hx. exists (rewrite_key Rental.id k data x).
    split; [apply in_map; exact Hx|]. unfold rewrite_key.
    destruct (String.eqb (Rental.id x) k); [apply Hdata | auto]. }
  split; [|split; [|split]].
  - intros b Hb. rewrite (I1 b Hb). split.
    + intros [x [Hx [E1 E2]]]. destruct (Hforth x Hx) as [y [Hy [_ [Eb Er]]]].
      exists y. split; [exact Hy|]. split; congruence.
    + intros [y [Hy [E1 E2]]]. destruct (Hback y Hy) as [x [Hx [_ [Eb Er]]]].
      exists x. split; [exact Hx|]. split; congruence.
  - intros y Hy. destruct (Hback y Hy) as [x [Hx [_ [Eb _]]]].
    rewrite Eb. auto.
  - intros y1 y2 Hy1 Hy2 E.
    destruct (Hback y1 Hy1) as [x1 [Hx1 [Ei1 [Eb1 _]]]].
    destruct (Hback y2 Hy2) as [x2 [Hx2 [Ei2 [Eb2 _]]]].
    rewrite Eb1, Eb2. apply I3; congruence.
  - intros y1 y2 Hy1 Hy2 E O1 O2.
    destruct (Hback y1 Hy1) as [x1 [Hx1 [Ei1 [Eb1 Er1]]]].
    destruct (Hback y2 Hy2) as [x2 [Hx2 [Ei2 [Eb2 Er2]]]].
    rewrite Ei1, Ei2. apply I4; congruence.
Qed.

Lemma inv_rent bs rs bid b r :
  lifecycle_inv bs rs ->
  find (has_key Battery.id bid) bs = Some b ->
  Battery.status b = AVAILABLE ->
  Rental.batteryId r = bid ->
  Rental.returnDate r = None ->
  find (has_key Rental.id (Rental.id r)) rs = None ->
  lifecycle_inv
    (map (rewrite_key Battery.id bid (Battery.set_status RENTED)) bs)
    (rs ++ [r]).
Proof.
  intros [I1 [I2 [I3 I4]]] Hb Hst Hbid Hopen Hfresh.
  apply (find_some_key Battery.id) in Hb. destruct Hb as [Hbkey Hbin].
  rewrite (find_none_key Rental.id) in Hfresh.
  assert (Hfree : ~ open_rental_on bid rs).
  { intros H. rewrite <- Hbkey in H. apply (I1 b Hbin) in H. congruence. }
  split; [|split; [|split]].
  - intros b' Hin. apply in_rewrite in Hin.
    destruct Hin as [b0 [Hb0 [[Ek E]|[Ek E]]]]; subst b'.
    + simpl. rewrite Ek. split; [|reflexivity]. intros _.
      exists r. split; [apply in_or_app; simpl; auto|]. auto.
    + rewrite (I1 b0 Hb0). split.
      * intros [x [Hx Hrest]]. exists x. split; [apply in_or_app; auto|].
        exact Hrest.
      * intros [x [Hx [E1 E2]]]. apply in_app_or in Hx.
        destruct Hx as [Hx|[Hx|[]]]; [exists x; auto|].
        subst x. congruence.
  - intros x Hx. apply in_app_or in Hx. destruct Hx as [Hx|[Hx|[]]].
    + destruct (I2 x Hx) as [b0 [Hb0 E]].
      exists (rewrite_key Battery.id bid (Battery.set_status RENTED) b0).
      split; [apply in_map; exact Hb0|]. unfold rewrite_key.
      destruct (String.eqb (Battery.id b0) bid); exact E.
    + subst x.
      exists (rewrite_key Battery.id bid (Battery.set_status RENTED) b).
      split; [apply in_map; exact Hbin|]. unfold rewrite_key.
      destruct (String.eqb (Battery.id b) bid); simpl; congruence.
  - intros x1 x2 H1 H2 E. apply in_app_or in H1. apply in_app_or in H2.
    destruct H1 as [H1|[H1|[]]]; destruct H2 as [H2|[H2|[]]].
    + auto.
    + subst x2. exfalso. apply (Hfresh x1 H1). exact E.
    + subst x1. exfalso. apply (Hfresh x2 H2). auto.
    + congruence.
  - intros x1 x2 H1 H2 E O1 O2. apply in_app_or in H1. apply in_app_or in H2.
    destruct H1 as [H1|[H1|[]]]; destruct H2 as [H2|[H2|[]]].
    + auto.
    + subst x2. exfalso. apply Hfree. exists x1. split; [exact H1|].
      split; congruence.
    + subst x1. exfalso. apply Hfree. exists x2. split; [exact H2|].
      split; congruence.
    + congruence.
Qed.

Lemma inv_return bs rs rid r data :
  lifecycle_inv bs rs ->
  find (has_key Rental.id rid) rs = Some r ->
  Rental.returnDate r = None ->
  (forall x, Rental.id (data x) = Rental.id x
             /\ Rental.batteryId (data x) = Rental.batteryId x
             /\ Rental.returnDate (data x) <> None) ->
  lifecycle_inv
    (map (rewrite_key Battery.id (Rental.batteryId r)
            (Battery.set_status AVAILABLE)) bs)
    (map (rewrite_key Rental.id rid data) rs).
Proof.
  intros [I1 [I2 [I3 I4]]] Hr Hopen Hdata.
  apply (find_some_key Rental.id) in Hr. destruct Hr as [Hrkey Hrin].
  assert (Hsame : forall x, In x rs -> Rental.id x = rid ->
                            Rental.batteryId x = (Rental.batteryId r)).
  { intros x Hx E. apply (I3 x r Hx Hrin). congruence. }
  assert (Hback : forall y, In y (map (rewrite_key Rental.id rid data) rs) ->
            exists x, In x rs /\ Rental.id y = Rental.id x
                      /\ Rental.batteryId y = Rental.batteryId x
                      /\ (Rental.returnDate y = None ->
                          y = x /\ Rental.id x <> rid)).
  { intros y Hy. apply in_rewrite in Hy.
    destruct Hy as [x [Hx [[Ek E]|[Ek E]]]]; subst y; exists x.
    - destruct (Hdata x) as [? [? ?]]. repeat split; auto; contradiction.
    - auto. }
  assert (Hkeep : forall x, In x rs -> Rental.id x <> rid ->
                            In x (map (rewrite_key Rental.id rid data) rs)).
  { intros x Hx Hne. apply in_rewrite. exists x. auto. }
  split; [|split; [|split]].
  - intros b' Hin. apply in_rewrite in Hin.
    destruct Hin as [b [Hb [[Ek E]|[Ek E]]]]; subst b'.
    + simpl. split; [discriminate|]. intros [y [Hy [E1 E2]]]. exfalso.
      simpl in E1.
      destruct (Hback y Hy) as [x [Hx [_ [_ Hun]]]].
      destruct (Hun E2) as [Eyx Hne]. subst y. apply Hne.
      rewrite <- Hrkey. apply (I4 x r Hx Hrin); congruence.
    + rewrite (I1 b Hb). split.
      * intros [x [Hx [E1 E2]]]. exists x. split; [|auto].
        apply Hkeep; [exact Hx|]. intros E. apply Ek.
        rewrite <- E1. apply Hsame; assumption.
      * intros [y [Hy [E1 E2]]].
        destruct (Hback y Hy) as [x [Hx [_ [_ Hun]]]].
        destruct (Hun E2) as [Eyx _]. subst y. exists x. auto.
  - intros y Hy. destruct (Hback y Hy) as [x [Hx [_ [Eb _]]]].
    destruct (I2 x Hx) as [b [Hb E]].
    exists (rewrite_key Battery.id (Rental.batteryId r)
              (Battery.set_status AVAILABLE) b).
    split; [apply in_map; exact Hb|]. unfold rewrite_key.
    destruct (String.eqb (Battery.id b) (Rental.batteryId r)); simpl;
      congruence.
  - intros y1 y2 Hy1 Hy2 E.
    destruct (Hback y1 Hy1) as [x1 [Hx1 [Ei1 [Eb1 _]]]].
    destruct (Hback y2 Hy2) as [x2 [Hx2 [Ei2 [Eb2 _]]]].
    rewrite Eb1, Eb2. apply I3; congruence.
  - intros y1 y2 Hy1 Hy2 E O1 O2.
    destruct (Hback y1 Hy1) as [x1 [Hx1 [_ [_ Hun1]]]].
    destruct (Hback y2 Hy2) as [x2 [Hx2 [_ [_ Hun2]]]].
    destruct (Hun1 O1) as [E1 _]. destruct (Hun2 O2) as [E2 _].
    subst y1 y2. apply I4; assumption.
Qed.

(** Every handler keeps the lifecycle invariant, an inventory update with
    a [status] as long as the status agrees with the rentals. *)
Lemma handle_keeps_lifecycle op db :
  status_update_agrees db op ->
  lifecycle_inv (batteries db) (rentals db) ->
  lifecycle_inv (batteries (snd (handle op db)))
    (rentals (snd (handle op db))).
Proof.
  intros Hop Hinv. destruct op as
    [env body|id body|id|env body|id body|id|env body|env id body|id p
    |env body]; simpl handle; simpl in Hop.
  - destruct (createBattery_db env body db) as [E|[sn [price [Hfresh E]]]];
      rewrite E; [exact Hinv|]. simpl.
    apply inv_add_battery; [exact Hinv | exact Hfresh | reflexivity].
  - destruct (updateBattery_db id body db) as [E|[data [Hdata E]]];
      rewrite E; [exact Hinv|]. simpl.
    apply inv_rewrite_battery; [|exact Hinv].
    intros b. destruct (Hdata b) as [Hid [Hnone Hsome]].
    split; [exact Hid|].
    destruct (BatteryBody.status body) as [s|].
    + right. rewrite (Hsome s eq_refl). exact Hop.
    + left. auto.
  - destruct (deleteBattery_db id db) as [E|[Hnone E]];
      rewrite E; [exact Hinv|]. simpl.
    apply inv_delete_battery; [exact Hnone | exact Hinv].
  - destruct (createCustomer_db env body db) as [E|[? [? [? E]]]];
      rewrite E; exact Hinv.
  - destruct (updateCustomer_db id body db) as [E|[? [_ E]]];
      rewrite E; exact Hinv.
  - destruct (deleteCustomer_db id db) as [E|E]; rewrite E; exact Hinv.
  - destruct (createRental_outcome env body db)
      as [[e E]|[bid [cid [price [b [Hbid [_ [_ [Hb [Hst [_ [Hfresh E]]]]]]]]]]]];
      rewrite E; [exact Hinv|]. simpl.
    apply (inv_rent _ _ bid b); auto.
  - destruct (returnBattery_db env id body db)
      as [E|[rental [b [data [Hr [Hopen [_ [Hdata E]]]]]]]];
      rewrite E; [exact Hinv|].
    assert (Hdata' : forall x, Rental.id (data x) = Rental.id x
                               /\ Rental.batteryId (data x) = Rental.batteryId x
                               /\ Rental.returnDate (data x) <> None)
      by (intros x; destruct (Hdata x) as [? [? [? ?]]]; auto).
    destruct (engine_frame (Rental.customerId rental)
                (with_batteries
                   (map (rewrite_key Battery.id (Rental.batteryId rental)
                           (Battery.set_status AVAILABLE)) (batteries db))
                   (with_rentals
                      (map (rewrite_key Rental.id id data) (rentals db)) db)))
      as [Eb [Er _]].
    rewrite Eb, Er. simpl. apply inv_return; assumption.
  - destruct (updateRentalPayment_db id p db) as [E|[rental [q E]]];
      rewrite E; [exact Hinv|].
    destruct (engine_frame (Rental.customerId rental)
                (with_rentals
                   (map (rewrite_key Rental.id id (Rental.set_isPaid q))
                      (rentals db)) db)) as [Eb [Er _]].
    rewrite Eb, Er. simpl. apply inv_rewrite_rental; [|exact Hinv].
    intros r. simpl. auto.
  - destruct (createPayment_outcome env body db)
      as [[e E]|[rid [cid [amount [method [r E]]]]]].
    + rewrite E. exact Hinv.
    + destruct E as [_ [_ [_ [_ [_ [_ [_ [_ E]]]]]]]]. rewrite E. simpl snd.
      destruct (engine_frame cid
                  (paid (newPayment env rid cid amount method) r db))
        as [Eb [Er _]].
      rewrite Eb, Er. unfold paid. destruct (PrimFloat.leb _ _); simpl.
      * apply inv_rewrite_rental; [|exact Hinv]. intros x. simpl. auto.
      * exact Hinv.
Qed.

Lemma lifecycle_inv_empty : lifecycle_inv [] [].
Proof.
  split; [|split; [|split]].
  - intros b [].
  - intros r [].
  - intros r1 r2 [].
  - intros r1 r2 [].
Qed.

(** C2, for requests handled one at a time and with inventory updates held
    to the rentals: in every state reached by the exposed operations, each
    taken whole, where an inventory update may carry a [status] only if it
    is RENTED for a battery with an open rental or another status for a
    battery without one, a battery is RENTED exactly when one of its rentals
    has no return date. What requests that overlap do is left open here;
    [overlapping_rentals_break_invariant] shows it. *)
Theorem rented_iff_open_rental db :
  reachable status_update_agrees db ->
  status_tracks_rentals db.
Proof.
  intros Hreach.
  assert (Hinv : lifecycle_inv (batteries db) (rentals db)).
  { induction Hreach as [|db op _ IH Hop].
    - exact lifecycle_inv_empty.
    - apply handle_keeps_lifecycle; assumption. }
  destruct Hinv as [I1 _]. exact I1.
Qed.

(** *** Requests that overlap *)

Lemma createRental_in_two_steps env body db :
  createRental env body db
  = match createRental_checks body db with
    | inl response => (response, db)
    | inr checked => createRental_transaction env checked db
    end.
Proof.
  unfold createRental, createRental_checks, createRental_transaction.
  run_handler.
  destruct (required_string (RentalBody.batteryId body)) as [bid|];
    [|reflexivity].
  destruct (required_string (RentalBody.customerId body)) as [cid|];
    [|reflexivity].
  destruct (required_number (RentalBody.rentalPrice body)) as [price|];
    [|reflexivity].
  destruct (prisma.battery.findUnique bid db) as [b|] eqn:Hb; [|reflexivity].
  destruct (negb (Status_eqb (Battery.status b) AVAILABLE)); [reflexivity|].
  destruct (prisma.customer.findUnique cid db) as [c|] eqn:Hc;
    [|reflexivity].
  unfold rental_foreign_keys. simpl Rental.batteryId. simpl Rental.customerId.
  rewrite Hb, Hc. reflexivity.
Qed.

(** Requests handled one at a time are a special case. *)
Lemma serial_is_overlapping allowed db :
  reachable allowed db -> overlapping allowed db [].
Proof.
  induction 1 as [|db op _ IH Hop].
  - apply overlapping_empty.
  - apply overlapping_step; assumption.
Qed.

(** Two Create Rentals that have both passed their checks on the same
    battery both commit: the battery has two open rentals. *)
Lemma overlapping_rentals_both_commit env1 env2 checked1 checked2 db b :
  prisma.battery.findUnique (Checked.batteryId checked1) db = Some b ->
  prisma.customer.findUnique (Checked.customerId checked1) db <> None ->
  prisma.customer.findUnique (Checked.customerId checked2) db <> None ->
  Decimal_10_2 (Checked.rentalPrice checked1) ->
  Decimal_10_2 (Checked.rentalPrice checked2) ->
  Checked.batteryId checked2 = Checked.batteryId checked1 ->
  prisma.rental.findUnique (uuid env1) db = None ->
  prisma.rental.findUnique (uuid env2) db = None ->
  uuid env1 <> uuid env2 ->
  let db1 := snd (createRental_transaction env1 checked1 db) in
  let db2 := snd (createRental_transaction env2 checked2 db1) in
  exists r1 r2,
    rentals db2 = rentals db ++ [r1; r2]
    /\ Rental.id r1 <> Rental.id r2
    /\ Rental.batteryId r1 = Checked.batteryId checked1
    /\ Rental.batteryId r2 = Checked.batteryId checked1
    /\ Rental.returnDate r1 = None /\ Rental.returnDate r2 = None.
Proof.
  intros Hb Hc1 Hc2 _ _ Hsame Hfresh1 Hfresh2 Hdiff db1 db2.
  assert (E1 : db1
               = rented (Checked.batteryId checked1)
                   (Rental.mk (uuid env1) (Checked.batteryId checked1)
                      (Checked.customerId checked1) (now env1) None
                      (Checked.rentalPrice checked1)
                      match Checked.isPaid checked1 with
                      | Some isPaid => isPaid
                      | None => false
                      end) db).
  { unfold db1, createRental_transaction. run_handler.
    unfold rental_foreign_keys. simpl Rental.batteryId.
    simpl Rental.customerId. rewrite Hb.
    destruct (prisma.customer.findUnique (Checked.customerId checked1) db);
      [|congruence].
    unfold prisma.rental.create. simpl Rental.id. rewrite Hfresh1.
    unfold prisma.battery.update.
    replace (prisma.battery.findUnique (Checked.batteryId checked1)
               (with_rentals (rentals db ++ [_]) db))
      with (prisma.battery.findUnique (Checked.batteryId checked1) db)
      by reflexivity.
    rewrite Hb. reflexivity. }
  assert (Hb1 : prisma.battery.findUnique (Checked.batteryId checked2) db1
                = Some (Battery.set_status RENTED b)).
  { rewrite Hsame, E1. unfold prisma.battery.findUnique, rented.
    simpl batteries. rewrite find_rewrite by reflexivity.
    fold (prisma.battery.findUnique (Checked.batteryId checked1) db).
    rewrite Hb. reflexivity. }
  assert (Hfresh : prisma.rental.findUnique (uuid env2) db1 = None).
  { rewrite E1. unfold prisma.rental.findUnique, rented. simpl rentals.
    apply (find_none_key Rental.id). intros x Hx.
    apply in_app_or in Hx. destruct Hx as [Hx|[<-|[]]].
    - apply (proj1 (find_none_key Rental.id (uuid env2) (rentals db)));
        assumption.
    - simpl. exact Hdiff. }
  assert (E2 : db2
               = rented (Checked.batteryId checked2)
                   (Rental.mk (uuid env2) (Checked.batteryId checked2)
                      (Checked.customerId checked2) (now env2) None
                      (Checked.rentalPrice checked2)
                      match Checked.isPaid checked2 with
                      | Some isPaid => isPaid
                      | None => false
                      end) db1).
  { assert (Hc2' : prisma.customer.findUnique (Checked.customerId checked2)
                     db1 <> None) by (rewrite E1; exact Hc2).
    unfold db2, createRental_transaction. run_handler.
    unfold rental_foreign_keys. simpl Rental.batteryId.
    simpl Rental.customerId. rewrite Hb1.
    destruct (prisma.customer.findUnique (Checked.customerId checked2) db1);
      [|congruence].
    unfold prisma.rental.create. simpl Rental.id. rewrite Hfresh.
    unfold prisma.battery.update.
    replace (prisma.battery.findUnique (Checked.batteryId checked2)
               (with_rentals (rentals db1 ++ [_]) db1))
      with (prisma.battery.findUnique (Checked.batteryId checked2) db1)
      by reflexivity.
    rewrite Hb1. reflexivity. }
  do 2 eexists. rewrite E2, E1. unfold rented. simpl rentals.
  rewrite <- app_assoc. simpl.
  split; [reflexivity|]. simpl. rewrite Hsame. auto.
Qed.

(** ** Who writes the credit rating *)

Lemma handle_customers op db :
  customers (snd (handle op db)) = customers db
  \/ (exists c, Customer.creditRating c = 3
                /\ customers (snd (handle op db)) = customers db ++ [c])
  \/ (exists k body data,
         op = UpdateCustomer k body
         /\ (forall c, Customer.id (data c) = Customer.id c
                       /\ (CustomerBody.creditRating body = None ->
                           Customer.creditRating (data c)
                           = Customer.creditRating c)
                       /\ (forall v, CustomerBody.creditRating body = Some v ->
                                     Customer.creditRating (data c) = v))
         /\ customers (snd (handle op db))
            = map (rewrite_key Customer.id k data) (customers db))
  \/ (exists k, customers (snd (handle op db))
                = filter (fun x => negb (has_key Customer.id k x))
                    (customers db))
  \/ (exists cid mid, customers mid = customers db
                      /\ snd (handle op db)
                         = updateCustomerCreditRating cid mid).
Proof.
  destruct op as
    [env body|id body|id|env body|id body|id|env body|env id body|id p
    |env body]; simpl handle.
  - destruct (createBattery_db env body db) as [E|[? [? [_ E]]]];
      rewrite E; left; reflexivity.
  - destruct (updateBattery_db id body db) as [E|[? [_ E]]];
      rewrite E; left; reflexivity.
  - destruct (deleteBattery_db id db) as [E|[_ E]];
      rewrite E; left; reflexivity.
  - destruct (createCustomer_db env body db) as [E|[name [phone [addr E]]]];
      rewrite E; [left; reflexivity|].
    right; left. eexists. split; [|reflexivity]. reflexivity.
  - destruct (updateCustomer_db id body db) as [E|[data [Hdata E]]];
      rewrite E; [left; reflexivity|].
    right; right; left. exists id, body, data. auto.
  - destruct (deleteCustomer_db id db) as [E|E];
      rewrite E; [left; reflexivity|].
    right; right; right; left. exists id. reflexivity.
  - destruct (createRental_outcome env body db)
      as [[e E]|[? [? [? [? [_ [_ [_ [_ [_ [_ [_ E]]]]]]]]]]]];
      rewrite E; left; reflexivity.
  - destruct (returnBattery_db env id body db)
      as [E|[rental [b [data [_ [_ [_ [_ E]]]]]]]];
      rewrite E; [left; reflexivity|].
    right; right; right; right. do 2 eexists. split; [|reflexivity].
    reflexivity.
  - destruct (updateRentalPayment_db id p db) as [E|[rental [q E]]];
      rewrite E; [left; reflexivity|].
    right; right; right; right. do 2 eexists. split; [|reflexivity].
    reflexivity.
  - destruct (createPayment_outcome env body db)
      as [[e E]|[rid [cid [amount [method [r E]]]]]].
    + rewrite E. left; reflexivity.
    + destruct E as [_ [_ [_ [_ [_ [_ [_ [_ E]]]]]]]]. rewrite E.
      right; right; right; right. do 2 eexists. split; [|reflexivity].
      unfold paid. destruct (PrimFloat.leb _ _); reflexivity.
Qed.

(** After an operation that carries no [creditRating], a customer row is
    new with rating 3, or has the rating it had, or belongs to the customer
    with rentals whom the engine has just recomputed. *)
Lemma handle_rating_writers op db c' :
  keeps_credit_rating db op ->
  In c' (customers (snd (handle op db))) ->
  (Customer.creditRating c' = 3
   /\ customers (snd (handle op db)) = customers db ++ [c'])
  \/ (exists c, In c (customers db) /\ Customer.id c = Customer.id c'
                /\ Customer.creditRating c' = Customer.creditRating c)
  \/ (exists mid,
         customers mid = customers db
         /\ snd (handle op db)
            = updateCustomerCreditRating (Customer.id c') mid
         /\ prisma.rental.ofCustomer (Customer.id c') (snd (handle op db))
            <> []
         /\ 0 <= Customer.creditRating c' <= 5).
Proof.
  intros Hop Hin.
  destruct (handle_customers op db)
    as [E|[[c [H3 E]]|[[k [body [data [Eop [Hdata E]]]]]
       |[[k E]|[cid [mid [Hmid E]]]]]]].
  - rewrite E in Hin. right; left. exists c'. auto.
  - rewrite E in Hin. apply in_app_or in Hin. destruct Hin as [Hin|[Hin|[]]].
    + right; left. exists c'. auto.
    + subst c'. left. auto.
  - rewrite E in Hin. apply in_rewrite in Hin. subst op. simpl in Hop.
    destruct Hin as [c [Hc [[_ Ec]|[_ Ec]]]]; subst c'; right; left; exists c.
    + destruct (Hdata c) as [Hid [Hr _]]. auto.
    + auto.
  - rewrite E in Hin. apply filter_In in Hin. destruct Hin as [Hin _].
    right; left. exists c'. auto.
  - rewrite E in Hin.
    destruct (engine_outcome cid mid) as [Eq|[rating [Hrange [Hsome Eq]]]];
      rewrite Eq in Hin.
    + rewrite Hmid in Hin. right; left. exists c'. auto.
    + simpl in Hin. rewrite Hmid in Hin. apply in_rewrite in Hin.
      destruct Hin as [c [Hc [[Ek Ec]|[_ Ec]]]]; subst c'.
      * right; right. exists mid. simpl. rewrite Ek.
        split; [exact Hmid|]. split; [exact E|]. split; [|exact Hrange].
        rewrite E. destruct (engine_frame cid mid) as [_ [Hr _]].
        unfold prisma.rental.ofCustomer in *. rewrite Hr. exact Hsome.
      * right; left. exists c. auto.
Qed.

(** An operation whose [creditRating], if it carries one, is between 0 and
    5 keeps every rating in that range. *)
Lemma handle_keeps_ratings op db :
  sends_valid_rating db op ->
  ratings_in_range db -> ratings_in_range (snd (handle op db)).
Proof.
  intros Hop Hinv c' Hin.
  destruct (handle_customers op db)
    as [E|[[c [H3 E]]|[[k [body [data [Eop [Hdata E]]]]]
       |[[k E]|[cid [mid [Hmid E]]]]]]].
  - rewrite E in Hin. auto.
  - rewrite E in Hin. apply in_app_or in Hin. destruct Hin as [Hin|[Hin|[]]].
    + auto.
    + subst c'. rewrite H3. lia.
  - rewrite E in Hin. apply in_rewrite in Hin. subst op. simpl in Hop.
    destruct Hin as [c [Hc [[_ Ec]|[_ Ec]]]]; subst c'; [|auto].
    destruct (Hdata c) as [_ [Hnone Hsome]].
    destruct (CustomerBody.creditRating body) as [v|].
    + rewrite (Hsome v eq_refl). exact Hop.
    + rewrite (Hnone eq_refl). auto.
  - rewrite E in Hin. apply filter_In in Hin. destruct Hin as [Hin _]. auto.
  - rewrite E in Hin.
    destruct (engine_outcome cid mid) as [Eq|[rating [Hrange [_ Eq]]]];
      rewrite Eq in Hin.
    + rewrite Hmid in Hin. auto.
    + simpl in Hin. rewrite Hmid in Hin. apply in_rewrite in Hin.
      destruct Hin as [c [Hc [[_ Ec]|[_ Ec]]]]; subst c'; [exact Hrange|auto].
Qed.

(** C9, with the customer update counted among the writers: a customer is
    created with rating 3; an operation that carries no [creditRating]
    leaves a rating as it was unless the engine recomputes it, to a value
    between 0 and 5; a customer update that carries a [creditRating] between
    0 and 5 stores it, whatever else it carries, unless it is refused for a
    phone number that another customer has; and in every state reached by
    operations other than
    customer updates with a [creditRating] outside 0..5, each rating is
    between 0 and 5. *)
Theorem credit_rating_writers :
  (forall env body db code c db',
      createCustomer env body db = (Ok code (JsonCustomer c), db') ->
      Customer.creditRating c = 3)
  /\ (forall op db c',
         keeps_credit_rating db op ->
         In c' (customers (snd (handle op db))) ->
         (Customer.creditRating c' = 3
          /\ customers (snd (handle op db)) = customers db ++ [c'])
         \/ (exists c, In c (customers db) /\ Customer.id c = Customer.id c'
                       /\ Customer.creditRating c' = Customer.creditRating c)
         \/ (exists mid,
                customers mid = customers db
                /\ snd (handle op db)
                   = updateCustomerCreditRating (Customer.id c') mid
                /\ prisma.rental.ofCustomer (Customer.id c')
                     (snd (handle op db)) <> []
                /\ 0 <= Customer.creditRating c' <= 5))
  /\ (forall id body db c v,
         prisma.customer.findUnique id db = Some c ->
         (forall ph, required_string (CustomerBody.phoneNumber body) = Some ph ->
                     ph <> Customer.phoneNumber c ->
                     prisma.customer.findUniqueByPhone ph db = None) ->
         CustomerBody.creditRating body = Some v ->
         0 <= v <= 5 ->
         exists updated,
           fst (updateCustomer id body db) = Ok 200 (JsonCustomer updated)
           /\ Customer.creditRating updated = v
           /\ ratingOf id (snd (updateCustomer id body db)) = Some v)
  /\ (forall db, reachable sends_valid_rating db -> ratings_in_range db).
Proof.
  split; [|split; [|split]].
  - intros env body db code c db' H.
    apply (createCustomer_ok env body db code c db' H).
  - exact handle_rating_writers.
  - intros id body db c v Hc Hphone Hv _.
    set (data := fun x =>
           spread (required_string (CustomerBody.name body)) Customer.set_name
             (spread (required_string (CustomerBody.phoneNumber body))
                Customer.set_phoneNumber
                (spread (CustomerBody.address body) Customer.set_address
                   (spread (CustomerBody.creditRating body)
                      Customer.set_creditRating x)))).
    assert (Hdata : forall x, Customer.id (data x) = Customer.id x
                              /\ Customer.creditRating (data x) = v).
    { intros x. unfold data, spread. rewrite Hv.
      destruct (required_string (CustomerBody.name body)),
        (required_string (CustomerBody.phoneNumber body)),
        (CustomerBody.address body); split; reflexivity. }
    assert (E : updateCustomer id body db
                = (Ok 200 (JsonCustomer (data c)),
                   with_customers
                     (map (rewrite_key Customer.id id data) (customers db))
                     db)).
    { unfold updateCustomer. run_handler. rewrite Hc.
      destruct (required_string (CustomerBody.phoneNumber body)) as [ph|]
        eqn:Eph.
      - destruct (String.eqb ph (Customer.phoneNumber c)) eqn:Esame;
          cbv beta iota delta [negb].
        + unfold prisma.customer.update. rewrite Hc. reflexivity.
        + apply String.eqb_neq in Esame.
          rewrite (Hphone ph eq_refl Esame).
          unfold prisma.customer.update. rewrite Hc. reflexivity.
      - unfold prisma.customer.update. rewrite Hc. reflexivity. }
    exists (data c). rewrite E. simpl fst. simpl snd.
    split; [reflexivity|]. split; [apply Hdata|].
    unfold ratingOf, prisma.customer.findUnique. simpl customers.
    rewrite find_rewrite by (intros x; apply Hdata).
    fold (prisma.customer.findUnique id db). rewrite Hc. simpl.
    f_equal. apply Hdata.
  - intros db Hreach. induction Hreach as [|db op _ IH Hop].
    + intros c [].
    + apply handle_keeps_ratings; assumption.
Qed.

(** ** The default rating of a customer without rentals *)

Lemma handle_rentals op db :
  rentals (snd (handle op db)) = rentals db
  \/ (exists r, rentals (snd (handle op db)) = rentals db ++ [r])
  \/ (exists k data,
         (forall r, Rental.customerId (data r) = Rental.customerId r)
         /\ rentals (snd (handle op db))
            = map (rewrite_key Rental.id k data) (rentals db)).
Proof.
  destruct op as
    [env body|id body|id|env body|id body|id|env body|env id body|id p
    |env body]; simpl handle.
  - destruct (createBattery_db env body db) as [E|[? [? [_ E]]]];
      rewrite E; left; reflexivity.
  - destruct (updateBattery_db id body db) as [E|[? [_ E]]];
      rewrite E; left; reflexivity.
  - destruct (deleteBattery_db id db) as [E|[_ E]];
      rewrite E; left; reflexivity.
  - destruct (createCustomer_db env body db) as [E|[? [? [? E]]]];
      rewrite E; left; reflexivity.
  - destruct (updateCustomer_db id body db) as [E|[? [_ E]]];
      rewrite E; left; reflexivity.
  - destruct (deleteCustomer_db id db) as [E|E]; rewrite E; left; reflexivity.
  - destruct (createRental_outcome env body db)
      as [[e E]|[? [? [? [? [_ [_ [_ [_ [_ [_ [_ E]]]]]]]]]]]];
      rewrite E; [left; reflexivity|].
    right; left. eexists. reflexivity.
  - destruct (returnBattery_db env id body db)
      as [E|[rental [b [data [_ [_ [_ [Hdata E]]]]]]]];
      rewrite E; [left; reflexivity|].
    right; right. exists id, data. split; [intros r; apply Hdata|].
    match goal with
    | |- rentals (updateCustomerCreditRating ?c ?m) = _ =>
        destruct (engine_frame c m) as [_ [Er _]]; rewrite Er
    end. reflexivity.
  - destruct (updateRentalPayment_db id p db) as [E|[rental [q E]]];
      rewrite E; [left; reflexivity|].
    right; right. exists id, (Rental.set_isPaid q).
    split; [reflexivity|].
    match goal with
    | |- rentals (updateCustomerCreditRating ?c ?m) = _ =>
        destruct (engine_frame c m) as [_ [Er _]]; rewrite Er
    end. reflexivity.
  - destruct (createPayment_outcome env body db)
      as [[e E]|[rid [cid [amount [method [r E]]]]]].
    + rewrite E. left; reflexivity.
    + destruct E as [_ [_ [_ [_ [_ [_ [_ [_ E]]]]]]]]. rewrite E. simpl snd.
      destruct (engine_frame cid
                  (paid (newPayment env rid cid amount method) r db))
        as [_ [Er _]].
      rewrite Er. unfold paid. destruct (PrimFloat.leb _ _).
      * right; right. exists rid, (Rental.set_isPaid true).
        split; reflexivity.
      * left; reflexivity.
Qed.

(** No handler takes a rental away from a customer. *)
Lemma rentals_of_customer_stay op db cid :
  prisma.rental.ofCustomer cid (snd (handle op db)) = [] ->
  prisma.rental.ofCustomer cid db = [].
Proof.
  unfold prisma.rental.ofCustomer.
  destruct (handle_rentals op db) as [E|[[r E]|[k [data [Hdata E]]]]];
    rewrite E; [auto| |].
  - rewrite filter_app. intros H. apply app_eq_nil in H. tauto.
  - intros H.
    destruct (filter (has_key Rental.customerId cid) (rentals db))
      as [|x l] eqn:F; [reflexivity|]. exfalso.
    assert (Hx : In x (filter (has_key Rental.customerId cid) (rentals db)))
      by (rewrite F; left; reflexivity).
    apply filter_In in Hx. destruct Hx as [Hx Hkey].
    assert (Hy : In (rewrite_key Rental.id k data x)
                   (filter (has_key Rental.customerId cid)
                      (map (rewrite_key Rental.id k data) (rentals db)))).
    { apply filter_In. split; [apply in_map; exact Hx|].
      unfold has_key, rewrite_key in *.
      destruct (String.eqb (Rental.id x) k); [rewrite Hdata|]; exact Hkey. }
    rewrite H in Hy. exact Hy.
Qed.

Lemma handle_keeps_default op db :
  keeps_credit_rating db op ->
  unrated_keep_default db -> unrated_keep_default (snd (handle op db)).
Proof.
  intros Hop Hinv c' Hin Hnone.
  destruct (handle_rating_writers op db c' Hop Hin)
    as [[H3 _]|[[c [Hc [Eid E]]]|[mid [_ [_ [Hsome _]]]]]].
  - exact H3.
  - rewrite E. apply Hinv; [exact Hc|]. rewrite Eid.
    apply (rentals_of_customer_stay op). exact Hnone.
  - contradiction.
Qed.

(** C8, with the customer update set apart: for a customer without rentals
    the recomputation changes nothing; a customer is created with rating 3;
    and in every state reached by operations other than customer updates
    that carry a [creditRating], a customer without rentals has rating 3. *)
Theorem recompute_without_rentals :
  (forall cid db,
      prisma.rental.ofCustomer cid db = [] ->
      updateCustomerCreditRating cid db = db)
  /\ (forall env body db code c db',
         createCustomer env body db = (Ok code (JsonCustomer c), db') ->
         prisma.customer.findUnique (Customer.id c) db' = Some c
         /\ Customer.creditRating c = 3)
  /\ (forall db, reachable keeps_credit_rating db -> unrated_keep_default db).
Proof.
  split; [|split].
  - intros cid db H. unfold updateCustomerCreditRating,
      prisma.rental.findManyWithPayments. rewrite H. reflexivity.
  - exact createCustomer_ok.
  - intros db Hreach. induction Hreach as [|db op _ IH Hop].
    + intros c [].
    + apply handle_keeps_default; assumption.
Qed.

(** ** The theorems at the sample databases *)

Section Samples.
Local Open Scope string_scope.

Lemma reachable_from (allowed : Op -> Prop) ops : forall db,
  reachable (fun _ => allowed) db -> Forall allowed ops ->
  reachable (fun _ => allowed)
    (fold_left (fun db op => snd (handle op db)) ops db).
Proof.
  induction ops as [|op ops IH]; intros db Hdb Hops; simpl.
  - exact Hdb.
  - inversion Hops; subst. apply IH; [|assumption].
    apply reachable_step; assumption.
Defined.

Lemma reachable_run (allowed : Op -> Prop) ops :
  Forall allowed ops -> reachable (fun _ => allowed) (Scenario.run ops).
Proof. apply reachable_from. apply reachable_empty. Defined.

Lemma reachable_weaken (P Q : DB -> Op -> Prop) db :
  (forall db op, P db op -> Q db op) -> reachable P db -> reachable Q db.
Proof.
  intros HPQ H. induction H as [|db op _ IH Hop].
  - apply reachable_empty.
  - apply reachable_step; auto.
Defined.

(** The runs of the sample databases contain no inventory update. *)
Lemma reachable_sample ops :
  Forall (fun op => match op with UpdateBattery _ _ => False | _ => True end)
    ops ->
  reachable status_update_agrees (Scenario.run ops).
Proof.
  intros H. apply (reachable_weaken _ _ _ (fun db op =>
    match op as o
      return (match o with UpdateBattery _ _ => False | _ => True end
              -> status_update_agrees db o)
    with
    | UpdateBattery _ _ => fun F => match F with end
    | _ => fun _ => I
    end) (reachable_run _ ops H)).
Defined.


Lemma return_twice_conflict_witness :
  returnBattery (mkEnv "" (6 * msPerDay)) "r1" (ReturnBody.mk None None)
    Scenario.returned
  = (Err AlreadyReturned, Scenario.returned).
Proof.
  apply (return_twice_conflict (mkEnv "" (6 * msPerDay)) "r1"
           (ReturnBody.mk None None) Scenario.returned
           (Rental.mk "r1" "b1" "c1" 0 (Some (5 * msPerDay)) 100%float true)
           (5 * msPerDay)); reflexivity.
Defined.

Lemma payment_status_overwrites_witness :
  let rental := Rental.mk "r1" "b1" "c1" 0 None 100%float true in
  let db' := snd (updateRentalPayment "r1" (Some false) Scenario.paidUp) in
  prisma.rental.findUnique "r1" Scenario.paidUp = Some rental
  /\ Rental.isPaid rental = true
  /\ PrimFloat.leb (Rental.rentalPrice rental)
       (totalPaid (prisma.payment.ofRental "r1" Scenario.paidUp)) = true
  /\ (exists updated,
        prisma.rental.findUnique "r1" db' = Some updated
        /\ Rental.isPaid updated = false
        /\ Rental.id updated = Rental.id rental
        /\ Rental.batteryId updated = Rental.batteryId rental
        /\ Rental.customerId updated = Rental.customerId rental
        /\ Rental.rentDate updated = Rental.rentDate rental
        /\ Rental.returnDate updated = Rental.returnDate rental
        /\ Rental.rentalPrice updated = Rental.rentalPrice rental)
  /\ payments db' = payments Scenario.paidUp.
Proof.
  intros rental db'.
  destruct (payment_status_overwrites "r1" false Scenario.paidUp rental
              eq_refl)
    as [_ [_ [Hpay [_ [Hupdated _]]]]].
  split; [reflexivity|]. split; [reflexivity|]. split; [reflexivity|].
  split; [exact Hupdated | exact Hpay].
Defined.

(** Scenario A: the rented battery cannot be rented again. *)
Lemma create_rental_checks_witness :
  (exists rental,
      createRental (mkEnv "r1" 0) Scenario.rentBody Scenario.stocked
      = (Ok 201 (JsonRental rental), Scenario.rentedOut))
  /\ createRental (mkEnv "r2" 0) Scenario.rentBody Scenario.rentedOut
     = (Err BatteryNotAvailable, Scenario.rentedOut).
Proof.
  split.
  - destruct (create_rental_checks (mkEnv "r1" 0) Scenario.rentBody
                Scenario.stocked "b1" "c1" 100%float eq_refl eq_refl eq_refl)
      as [_ [_ [_ [_ [_ [_ H]]]]]].
    assert (Hprice : Decimal_10_2 100)
      by (exists 10000; split; [lia | left; reflexivity]).
    destruct (H (Scenario.battery1 AVAILABLE) Scenario.alice
                eq_refl eq_refl eq_refl eq_refl Hprice) as [rental [db' E]].
    exists rental. rewrite E. f_equal.
    change Scenario.rentedOut
      with (snd (createRental (mkEnv "r1" 0) Scenario.rentBody
                   Scenario.stocked)).
    rewrite E. reflexivity.
  - destruct (create_rental_checks (mkEnv "r2" 0) Scenario.rentBody
                Scenario.rentedOut "b1" "c1" 100%float eq_refl eq_refl eq_refl)
      as [_ [H _]].
    apply (H (Scenario.battery1 RENTED)); [reflexivity | discriminate].
Defined.

(** The request names a battery that does not exist and carries the price
    0: the answer is the 400 of the validation, 'Battery ID, customer ID,
    and rental price are required', not the battery's NotFound. *)
Lemma create_rental_price_zero_is_required :
  let body := RentalBody.mk (Some "ghost") (Some "c1") (Some 0%float) None in
  prisma.battery.findUnique "ghost" Scenario.stocked = None
  /\ createRental (mkEnv "r1" 0) body Scenario.stocked
     = (Err RentalFieldsRequired, Scenario.stocked)
  /\ failure RentalFieldsRequired = InvalidInput
  /\ failure RentalFieldsRequired <> NotFound.
Proof.
  split; [reflexivity|]. split; [reflexivity|].
  split; [reflexivity|discriminate].
Qed.

(** Scenario B: a payment of the full price marks the rental paid, and a
    further payment is accepted and leaves it paid. *)
Lemma record_payment_flag_scenario :
  (exists r',
      prisma.rental.findUnique "r1" Scenario.paidUp = Some r'
      /\ Rental.isPaid r' = true)
  /\ (exists p db' r',
         createPayment (mkEnv "p2" (2 * msPerDay)) (Scenario.payBody 100)
           Scenario.paidUp
         = (Ok 201 (JsonPayment p), db')
         /\ prisma.rental.findUnique "r1" db' = Some r'
         /\ Rental.isPaid r' = true).
Proof.
  split.
  - eexists. split; reflexivity.
  - apply (proj2 (record_payment_flag (mkEnv "p2" (2 * msPerDay))
                    (Scenario.payBody 100) Scenario.paidUp)
             "r1" "c1" 100%float CASH
             (Rental.mk "r1" "b1" "c1" 0 None 100 true) Scenario.alice);
      reflexivity.
Qed.

(** C4: a rental of 300.30 with a payment of 100.10 on record receives a
    payment of 200.20. The payments add up to the price, 30030 cents, yet
    the handler's sum is the double 300.29999999999995, below the double of
    300.30, and the rental is left unpaid. *)
Theorem record_payment_sum_falls_short :
  let db := Scenario.run [Scenario.addBattery; Scenario.addCustomer;
                          Scenario.rentFor (F64.cents 30030);
                          Scenario.pay "p1" (F64.cents 10010)] in
  let body := Scenario.payBody (F64.cents 20020) in
  30030 <= 10010 + 20020
  /\ exists p db' r',
      createPayment (mkEnv "p2" (2 * msPerDay)) body db
      = (Ok 201 (JsonPayment p), db')
      /\ map Payment.amount (prisma.payment.ofRental "r1" db')
         = [F64.cents 10010; F64.cents 20020]
      /\ prisma.rental.findUnique "r1" db' = Some r'
      /\ Rental.rentalPrice r' = F64.cents 30030
      /\ PrimFloat.ltb (totalPaid (prisma.payment.ofRental "r1" db'))
           (Rental.rentalPrice r') = true
      /\ Rental.isPaid r' = false.
Proof.
  intros db body. split; [lia|].
  do 3 eexists. split; [vm_compute; reflexivity|].
  split; [reflexivity|]. split; [reflexivity|].
  split; [reflexivity|]. split; reflexivity.
Qed.

(** A mismatching existing customer is a Conflict; amount 0 is
    InvalidInput. *)
Lemma record_payment_checks_witness :
  createPayment (mkEnv "p1" 0)
    (PaymentBody.mk (Some "r1") (Some "c1") (Some 0%float) (Some CASH))
    Scenario.rentedOut
  = (Err PaymentFieldsRequired, Scenario.rentedOut)
  /\ let db := snd (handle (CreateCustomer (mkEnv "c2" 0)
                              (CustomerBody.mk (Some "Bob") (Some "0301")
                                 None None)) Scenario.rentedOut) in
     createPayment (mkEnv "p1" 0)
       (PaymentBody.mk (Some "r1") (Some "c2") (Some 10%float) (Some CASH))
       db
     = (Err CustomerMismatch, db).
Proof.
  split.
  - apply (proj1 (proj2 (record_payment_checks (mkEnv "p1" 0)
                           (PaymentBody.mk (Some "r1") (Some "c1") (Some 0%float)
                              (Some CASH)) Scenario.rentedOut))).
    right. reflexivity.
  - intros db.
    apply (proj1 (record_payment_checks (mkEnv "p1" 0)
                    (PaymentBody.mk (Some "r1") (Some "c2") (Some 10%float)
                       (Some CASH)) db)
             "r1" "c2" 10%float CASH
             (Rental.mk "r1" "b1" "c1" 0 None 100%float false)
             (Customer.mk "c2" "Bob" "0301" "" 3));
      try reflexivity. discriminate.
Defined.

(** A negative amount is not rejected: the payment row is inserted. And a
    customer id that names nobody answers NotFound, not Conflict. *)
Lemma record_payment_negative_amount :
  (let p := Payment.mk "p1" "r1" "c1" (-5)%float 0 CASH in
   exists db',
     createPayment (mkEnv "p1" 0) (Scenario.payBody (-5)%float)
       Scenario.rentedOut
     = (Ok 201 (JsonPayment p), db')
     /\ payments db' = (payments Scenario.rentedOut ++ [p])%list
     /\ PrimFloat.ltb (Payment.amount p) 0%float = true)
  /\ (createPayment (mkEnv "p1" 0)
        (PaymentBody.mk (Some "r1") (Some "ghost") (Some 5%float)
           (Some CASH)) Scenario.rentedOut
      = (Err CustomerNotFound, Scenario.rentedOut)
      /\ failure CustomerNotFound <> Conflict).
Proof.
  split.
  - eexists. split; [reflexivity|]. split; reflexivity.
  - split; [reflexivity|discriminate].
Qed.

(** The run that rents, pays and returns, followed by an inventory update
    that sends the free battery to maintenance. *)
Lemma rented_iff_open_rental_witness :
  status_tracks_rentals Scenario.rentedOut
  /\ status_tracks_rentals
       (snd (handle Scenario.markMaintenance Scenario.returned)).
Proof.
  split; apply rented_iff_open_rental.
  - apply reachable_sample. repeat (constructor; try exact I).
  - apply reachable_step.
    + apply reachable_sample. repeat (constructor; try exact I).
    + simpl. split; [discriminate|].
      intros [r [[Hr|[]] [_ Hopen]]]. subst r. discriminate.
Defined.

(** An inventory update that sends [status: 'RENTED'] for a battery nobody
    rents: the state is reachable and the battery is RENTED without an open
    rental. *)
Lemma status_update_breaks_invariant :
  let db := Scenario.run [Scenario.addBattery; Scenario.markRented] in
  reachable any_op db
  /\ In (Scenario.battery1 RENTED) (batteries db)
  /\ rentals db = []
  /\ ~ status_tracks_rentals db.
Proof.
  intros db. split; [|split; [|split]].
  - apply (reachable_run (fun _ => True)).
    repeat (constructor; try exact I).
  - left. reflexivity.
  - reflexivity.
  - intros H.
    destruct (proj1 (H (Scenario.battery1 RENTED) (or_introl eq_refl)) eq_refl)
      as [r [[] _]].
Qed.

(** With requests that overlap the invariant is lost even when no inventory
    update sets a status: two Create Rentals check the same AVAILABLE
    battery before either writes, both commit, and after the return of one
    the battery is AVAILABLE with the other rental still open. *)
Lemma overlapping_rentals_break_invariant :
  let first := (mkEnv "r1" 0, Checked.mk "b1" "c1" 100 None) in
  let second := (mkEnv "r2" 0, Checked.mk "b1" "c1" 100 None) in
  let rentedTwice :=
    snd (createRental_transaction (fst second) (snd second)
           (snd (createRental_transaction (fst first) (snd first)
                   Scenario.stocked))) in
  let db := snd (handle Scenario.giveBack rentedTwice) in
  overlapping status_update_agrees db []
  /\ option_map Battery.status (prisma.battery.findUnique "b1" db)
     = Some AVAILABLE
  /\ open_rental_on "b1" (rentals db)
  /\ ~ status_tracks_rentals db.
Proof.
  intros first second rentedTwice db.
  assert (Hrun : overlapping status_update_agrees db []).
  { apply (overlapping_step status_update_agrees rentedTwice []);
      [|exact I].
    apply (overlapping_transaction status_update_agrees _ [] (fst second)
             (snd second) []).
    apply (overlapping_transaction status_update_agrees _ [] (fst first)
             (snd first) [second]).
    apply (overlapping_checks status_update_agrees _ [first] (fst second)
             Scenario.rentBody (snd second)); [|reflexivity].
    apply (overlapping_checks status_update_agrees _ [] (fst first)
             Scenario.rentBody (snd first)); [|reflexivity].
    apply serial_is_overlapping. apply reachable_sample.
    repeat constructor. }
  assert (Hopen : open_rental_on "b1" (rentals db)).
  { exists (Rental.mk "r2" "b1" "c1" 0 None 100 false).
    split; [right; left; reflexivity|]. split; reflexivity. }
  split; [exact Hrun|]. split; [reflexivity|]. split; [exact Hopen|].
  intros Htrack.
  specialize (Htrack (Battery.mk "b1" "SN-1" 500 AVAILABLE)
                (or_introl eq_refl)).
  apply Htrack in Hopen. discriminate Hopen.
Qed.

Lemma recompute_without_rentals_witness :
  updateCustomerCreditRating "c1" Scenario.stocked = Scenario.stocked
  /\ unrated_keep_default Scenario.stocked.
Proof.
  destruct recompute_without_rentals as [Hnoop [_ Hdefault]]. split.
  - apply Hnoop. reflexivity.
  - apply Hdefault. apply (reachable_run (keeps_credit_rating emptyDB)).
    repeat (constructor; try exact I).
Defined.

(** A customer update that sends [creditRating: 1] before the customer has
    rented anything: the customer has no rental and no longer rating 3. *)
Lemma customer_update_before_first_rental :
  let db := Scenario.run [Scenario.addCustomer; Scenario.rate1] in
  reachable any_op db
  /\ prisma.rental.ofCustomer "c1" db = []
  /\ ratingOf "c1" db = Some 1
  /\ ~ unrated_keep_default db.
Proof.
  intros db. split; [|split; [|split]].
  - apply (reachable_run (fun _ => True)).
    repeat (constructor; try exact I).
  - reflexivity.
  - reflexivity.
  - intros H.
    specialize (H (Customer.mk "c1" "Alice" "0300" "Lahore" 1)
                  (or_introl eq_refl) eq_refl).
    discriminate.
Qed.

Lemma credit_rating_writers_witness :
  let body := CustomerBody.mk None (Some "0999") None (Some 4) in
  ratings_in_range Scenario.returned
  /\ ratingOf "c1" Scenario.returned = Some 5
  /\ exists updated,
      fst (updateCustomer "c1" body Scenario.returned)
      = Ok 200 (JsonCustomer updated)
      /\ Customer.creditRating updated = 4
      /\ ratingOf "c1" (snd (updateCustomer "c1" body Scenario.returned))
         = Some 4.
Proof.
  intros body.
  destruct credit_rating_writers as [_ [_ [Hstore Hrange]]]. split.
  - apply Hrange. apply (reachable_run (sends_valid_rating emptyDB)).
    repeat (constructor; try exact I).
  - split; [reflexivity|].
    apply (Hstore "c1"%string body Scenario.returned
             (Customer.mk "c1" "Alice" "0300" "Lahore" 5) 4);
      try reflexivity; [|lia].
    intros ph Hph _. inversion Hph; subst ph. reflexivity.
Defined.

(** A customer update that sends [creditRating: 42]: the state is reachable,
    the rating is the caller's value and lies outside 0..5. *)
Lemma customer_update_sets_rating :
  let db := Scenario.run [Scenario.addBattery; Scenario.addCustomer;
                          Scenario.rate42] in
  reachable any_op db
  /\ ratingOf "c1" db = Some 42
  /\ ~ ratings_in_range db.
Proof.
  intros db. split; [|split].
  - apply (reachable_run (fun _ => True)).
    repeat (constructor; try exact I).
  - reflexivity.
  - intros H.
    specialize (H (Customer.mk "c1" "Alice" "0300" "Lahore" 42)
                  (or_introl eq_refl)).
    simpl in H. lia.
Qed.

End Samples.

(** * Further properties of the handlers *)

(** ** Middleware *)

(** X1. A route guarded by [requireAdmin] alone never reaches its handler for a
    request that arrives without a user: it answers 403 and writes nothing.
    So it is with the two delete routes. *)
Theorem admin_only_route_forbidden req handler db :
  Auth.user req = None ->
  route [Auth.requireAdmin] handler req db = (Forbidden, db)
  /\ (forall id, serve req (DeleteBattery id) db = (Forbidden, db))
  /\ (forall id, serve req (DeleteCustomer id) db = (Forbidden, db)).
Proof.
  intros Hnone.
  assert (H : forall h, route [Auth.requireAdmin] h req db = (Forbidden, db)).
  { intros h. simpl. unfold Auth.requireAdmin. rewrite Hnone. reflexivity. }
  split; [apply H|]. split; intros id; apply H.
Qed.

Lemma admin_only_route_forbidden_witness :
  Auth.user (Auth.mkRequest None) = None
  /\ route [Auth.requireAdmin] (deleteBattery "b1") (Auth.mkRequest None)
       Scenario.stocked
     = (Forbidden, Scenario.stocked)
  /\ (forall id, serve (Auth.mkRequest None) (DeleteBattery id)
                   Scenario.stocked
                 = (Forbidden, Scenario.stocked))
  /\ (forall id, serve (Auth.mkRequest None) (DeleteCustomer id)
                   Scenario.stocked
                 = (Forbidden, Scenario.stocked)).
Proof.
  split; [reflexivity|].
  apply (admin_only_route_forbidden (Auth.mkRequest None)
           (deleteBattery "b1") Scenario.stocked).
  reflexivity.
Defined.

(** ** Every error leaves the database as it was *)

Ltac settle_error :=
  repeat (cbv beta iota; case_on_inner_match);
  cbv beta iota; simpl; intros; try reflexivity; try discriminate.

(** X2. Whatever the operation and the state: when the answer is an error (400,
    404 or 500), nothing has been written. *)
Theorem error_writes_nothing op db e :
  fst (handle op db) = Err e -> snd (handle op db) = db.
Proof.
  destruct op as
    [env body|id body|id|env body|id body|id|env body|env id body|id p
    |env body]; simpl handle.
  - unfold createBattery. run_handler. settle_error.
  - unfold updateBattery. run_handler. settle_error.
  - unfold deleteBattery. run_handler. settle_error.
  - unfold createCustomer. run_handler. settle_error.
  - unfold updateCustomer. run_handler. settle_error.
  - unfold deleteCustomer. run_handler. settle_error.
  - destruct (createRental_outcome env body db)
      as [[e' E]|[? [? [? [? [_ [_ [_ [_ [_ [_ [_ E]]]]]]]]]]]];
      rewrite E; simpl; [reflexivity | discriminate].
  - unfold returnBattery. run_handler. settle_error.
  - unfold updateRentalPayment. run_handler. settle_error.
  - destruct (createPayment_outcome env body db)
      as [[e' E]|[? [? [? [? [? [_ [_ [_ [_ [_ [_ [_ [_ E]]]]]]]]]]]]]];
      rewrite E; simpl; [reflexivity | discriminate].
Qed.

Lemma error_writes_nothing_witness :
  fst (handle Scenario.rent emptyDB) = Err BatteryNotFound
  /\ snd (handle Scenario.rent emptyDB) = emptyDB.
Proof.
  split; [reflexivity|].
  apply (error_writes_nothing Scenario.rent emptyDB BatteryNotFound).
  reflexivity.
Defined.

(** ** Keys and unique columns *)

Section Columns.
Context {T : Type} (key : T -> string).

Lemma find_none_not_in k l :
  find (has_key key k) l = None <-> ~ In k (map key l).
Proof.
  rewrite (find_none_key key). split.
  - intros H Hin. apply in_map_iff in Hin. destruct Hin as [x [E Hx]].
    apply (H x Hx E).
  - intros H x Hx E. apply H. rewrite <- E. apply in_map. exact Hx.
Qed.

Lemma find_not_none_in k l :
  find (has_key key k) l <> None <-> In k (map key l).
Proof.
  split.
  - intros H. destruct (find (has_key key k) l) as [x|] eqn:E; [|congruence].
    apply (find_some_key key) in E. destruct E as [E Hx]. rewrite <- E.
    apply in_map. exact Hx.
  - intros Hin H. apply find_none_not_in in H. contradiction.
Qed.

Lemma map_key_rewrite k data l :
  (forall x, key (data x) = key x) ->
  map key (map (rewrite_key key k data) l) = map key l.
Proof.
  intros Hkey. rewrite map_map. apply map_ext. intros x. unfold rewrite_key.
  destruct (String.eqb (key x) k); [apply Hkey | reflexivity].
Qed.

Lemma rewrite_absent k data l :
  ~ In k (map key l) -> map (rewrite_key key k data) l = l.
Proof.
  intros H. induction l as [|x l IH]; simpl; [reflexivity|].
  simpl in H. unfold rewrite_key at 1.
  destruct (String.eqb (key x) k) eqn:E.
  - apply String.eqb_eq in E. tauto.
  - rewrite IH by tauto. reflexivity.
Qed.

Lemma NoDup_map_filter {B} (f : T -> B) (p : T -> bool) l :
  NoDup (map f l) -> NoDup (map f (filter p l)).
Proof.
  clear key. induction l as [|x l IH]; simpl; intros H; [constructor|].
  inversion H as [|? ? Hx Hl]; subst. destruct (p x); simpl; [|auto].
  constructor; [|auto]. intros Hin. apply Hx.
  apply in_map_iff in Hin. destruct Hin as [y [E Hy]].
  apply filter_In in Hy. rewrite <- E. apply in_map. tauto.
Qed.

Lemma NoDup_map_snoc {B} (f : T -> B) x l :
  NoDup (map f l) -> ~ In (f x) (map f l) -> NoDup (map f (l ++ [x])).
Proof.
  intros Hl Hx. rewrite map_app. simpl.
  apply (Permutation_NoDup
           (Permutation_cons_append (map f l) (f x))).
  constructor; assumption.
Qed.

(** Rewriting the one row with key [k] keeps another column unique when the
    row keeps its value there or takes one that no row has. *)
Lemma NoDup_column_rewrite (col : T -> string) k data l b :
  NoDup (map key l) ->
  NoDup (map col l) ->
  find (has_key key k) l = Some b ->
  col (data b) = col b \/ ~ In (col (data b)) (map col l) ->
  NoDup (map col (map (rewrite_key key k data) l)).
Proof.
  induction l as [|x l IH]; simpl; intros Hkey Hcol Hfind Hb; [constructor|].
  inversion Hkey as [|? ? Hkx Hkl]; subst.
  inversion Hcol as [|? ? Hcx Hcl]; subst.
  unfold has_key at 1 in Hfind. unfold rewrite_key at 1.
  destruct (String.eqb (key x) k) eqn:E.
  - inversion Hfind; subst b. apply String.eqb_eq in E.
    rewrite rewrite_absent by (rewrite <- E; exact Hkx).
    constructor; [|exact Hcl].
    destruct Hb as [Hb|Hb]; [rewrite Hb; exact Hcx|].
    simpl in Hb. tauto.
  - assert (Hbin : In b l) by (apply (find_some_key key) in Hfind; tauto).
    constructor.
    + intros Hin. apply in_map_iff in Hin. destruct Hin as [y [Ey Hy]].
      apply in_rewrite in Hy. destruct Hy as [z [Hz [[Ez Eyz]|[_ Eyz]]]];
        subst y.
      * assert (z = b).
        { apply (find_some_key key) in Hfind. destruct Hfind as [Ekb _].
          assert (Hm : forall l', NoDup (map key l') -> In z l' -> In b l' ->
                                  key z = key b -> z = b).
          { clear. induction l' as [|w l' IHl]; simpl; intros Hn Hz Hb' Ek;
              [contradiction|].
            inversion Hn as [|? ? Hw Hl']; subst.
            destruct Hz as [Hz|Hz]; destruct Hb' as [Hb'|Hb'].
            - congruence.
            - subst w. exfalso. apply Hw. rewrite Ek. apply in_map. exact Hb'.
            - subst w. exfalso. apply Hw. rewrite <- Ek. apply in_map.
              exact Hz.
            - auto. }
          apply (Hm l); auto. congruence. }
        subst z. destruct Hb as [Hb|Hb].
        -- apply Hcx. rewrite <- Ey, Hb. apply in_map. exact Hbin.
        -- apply Hb. simpl. left. symmetry. exact Ey.
      * apply Hcx. rewrite <- Ey. apply in_map. exact Hz.
    + apply IH; auto. destruct Hb as [Hb|Hb]; [left; exact Hb|].
      right. simpl in Hb. tauto.
Qed.
Lemma find_app_some (p : T -> bool) l l' x :
  find p l = Some x -> find p (l ++ l') = Some x.
Proof.
  induction l as [|y l IH]; simpl; [discriminate|].
  destruct (p y); auto.
Qed.

Lemma find_app_not_none (p : T -> bool) l l' :
  find p l <> None -> find p (l ++ l') <> None.
Proof.
  destruct (find p l) as [x|] eqn:E; [|congruence].
  intros _. rewrite (find_app_some _ _ l' _ E). discriminate.
Qed.

Lemma find_rewrite_any k k' data l :
  (forall x, key (data x) = key x) ->
  find (has_key key k') (map (rewrite_key key k data) l)
  = option_map (rewrite_key key k data) (find (has_key key k') l).
Proof.
  intros Hkey. induction l as [|x l IH]; simpl; [reflexivity|].
  assert (E : has_key key k' (rewrite_key key k data x) = has_key key k' x).
  { unfold has_key, rewrite_key. destruct (String.eqb (key x) k);
      [rewrite Hkey|]; reflexivity. }
  rewrite E. destruct (has_key key k' x); [reflexivity | exact IH].
Qed.

Lemma find_rewrite_not_none k k' data l :
  (forall x, key (data x) = key x) ->
  find (has_key key k') l <> None ->
  find (has_key key k') (map (rewrite_key key k data) l) <> None.
Proof.
  intros Hkey H. rewrite find_rewrite_any by exact Hkey.
  destruct (find (has_key key k') l); [discriminate | congruence].
Qed.

Lemma find_filter_other k k' l :
  k' <> k ->
  find (has_key key k') (filter (fun x => negb (has_key key k x)) l)
  = find (has_key key k') l.
Proof.
  intros Hk. induction l as [|x l IH]; simpl; [reflexivity|].
  destruct (has_key key k x) eqn:E; simpl.
  - destruct (has_key key k' x) eqn:E'; [|exact IH].
    unfold has_key in E, E'. apply String.eqb_eq in E, E'. congruence.
  - destruct (has_key key k' x); auto.
Qed.

Lemma filter_nil_key (col : T -> string) k l x :
  filter (has_key col k) l = [] -> In x l -> col x <> k.
Proof.
  intros Hf Hx E.
  assert (Hin : In x (filter (has_key col k) l)).
  { apply filter_In. split; [exact Hx|]. unfold has_key.
    apply String.eqb_eq. exact E. }
  rewrite Hf in Hin. exact Hin.
Qed.
Lemma map_column_rewrite {B} (f : T -> B) k data l :
  (forall x, f (data x) = f x) ->
  map f (map (rewrite_key key k data) l) = map f l.
Proof.
  intros Hf. rewrite map_map. apply map_ext. intros x. unfold rewrite_key.
  destruct (String.eqb (key x) k); [apply Hf | reflexivity].
Qed.


Lemma find_filter_self k l :
  find (has_key key k) (filter (fun x => negb (has_key key k x)) l) = None.
Proof.
  apply find_none_key. intros x Hx E. apply filter_In in Hx.
  destruct Hx as [_ Hx]. unfold has_key in Hx.
  apply String.eqb_eq in E. rewrite E in Hx. discriminate.
Qed.
Lemma NoDup_key_inj l x y :
  NoDup (map key l) -> In x l -> In y l -> key x = key y -> x = y.
Proof.
  induction l as [|w l IH]; simpl; intros Hn Hx Hy E; [contradiction|].
  apply NoDup_cons_iff in Hn. destruct Hn as [Hw Hl].
  destruct Hx as [Hx|Hx]; destruct Hy as [Hy|Hy].
  - congruence.
  - subst w. exfalso. apply Hw. rewrite E. apply in_map. exact Hy.
  - subst w. exfalso. apply Hw. rewrite <- E. apply in_map. exact Hx.
  - auto.
Qed.
End Columns.

(** ** What each handler writes, in full *)

Lemma createBattery_rich env body db :
  snd (createBattery env body db) = db
  \/ exists b,
      prisma.battery.findUnique (Battery.id b) db = None
      /\ prisma.battery.findUniqueBySerial (Battery.serialNumber b) db = None
      /\ Battery.status b = AVAILABLE
      /\ snd (createBattery env body db)
         = with_batteries (batteries db ++ [b]) db.
Proof.
  unfold createBattery. run_handler.
  destruct (required_string (BatteryBody.serialNumber body)) as [sn|];
    [|left; reflexivity].
  destruct (required_number (BatteryBody.price body)) as [price|];
    [|left; reflexivity].
  destruct (prisma.battery.findUniqueBySerial sn db) eqn:Hsn;
    [left; reflexivity|].
  unfold prisma.battery.create. simpl Battery.id.
  destruct (prisma.battery.findUnique (uuid env) db) eqn:Hid;
    [left; reflexivity|].
  right. exists (Battery.mk (uuid env) sn price AVAILABLE). simpl. auto.
Qed.

Lemma battery_data_id rs p s x :
  Battery.id
    (spread rs Battery.set_serialNumber
       (spread p Battery.set_price (spread s Battery.set_status x)))
  = Battery.id x.
Proof. destruct rs, p, s; reflexivity. Qed.

Lemma battery_data_serial rs p s x :
  Battery.serialNumber
    (spread rs Battery.set_serialNumber
       (spread p Battery.set_price (spread s Battery.set_status x)))
  = match rs with Some sn => sn | None => Battery.serialNumber x end.
Proof. destruct rs, p, s; reflexivity. Qed.

Lemma updateBattery_rich id body db :
  snd (updateBattery id body db) = db
  \/ exists existing data,
      prisma.battery.findUnique id db = Some existing
      /\ (forall x, Battery.id (data x) = Battery.id x)
      /\ (Battery.serialNumber (data existing) = Battery.serialNumber existing
          \/ prisma.battery.findUniqueBySerial
               (Battery.serialNumber (data existing)) db = None)
      /\ snd (updateBattery id body db)
         = with_batteries (map (rewrite_key Battery.id id data) (batteries db))
             db.
Proof.
  unfold updateBattery. run_handler.
  destruct (prisma.battery.findUnique id db) as [existing|] eqn:Hb;
    [|left; reflexivity].
  assert (Hw : forall rs,
             (rs = None \/ exists sn, rs = Some sn
                /\ (sn = Battery.serialNumber existing
                    \/ prisma.battery.findUniqueBySerial sn db = None)) ->
             exists data,
               (forall x, Battery.id (data x) = Battery.id x)
               /\ (Battery.serialNumber (data existing)
                   = Battery.serialNumber existing
                   \/ prisma.battery.findUniqueBySerial
                        (Battery.serialNumber (data existing)) db = None)
               /\ with_batteries
                    (map (rewrite_key Battery.id id (fun b =>
                       spread rs Battery.set_serialNumber
                         (spread (required_number (BatteryBody.price body))
                            Battery.set_price
                            (spread (BatteryBody.status body)
                               Battery.set_status b)))) (batteries db)) db
                  = with_batteries
                      (map (rewrite_key Battery.id id data) (batteries db))
                      db).
  { intros rs Hrs. eexists. split; [|split; [|reflexivity]].
    - intros x. apply battery_data_id.
    - cbv beta. rewrite battery_data_serial.
      destruct Hrs as [->|(sn & -> & [->|Hn])]; auto. }
  destruct (required_string (BatteryBody.serialNumber body)) as [sn|] eqn:Hsn.
  - destruct (String.eqb sn (Battery.serialNumber existing)) eqn:Esn;
      cbv beta iota delta [negb].
    + unfold prisma.battery.update. rewrite Hb. simpl snd. right. exists existing.
      apply String.eqb_eq in Esn.
      destruct (Hw (Some sn)) as (data & H1 & H2 & H3); eauto 6.
    + destruct (prisma.battery.findUniqueBySerial sn db) eqn:Hdup;
        [left; reflexivity|].
      unfold prisma.battery.update. rewrite Hb. simpl snd. right. exists existing.
      destruct (Hw (Some sn)) as (data & H1 & H2 & H3); eauto 6.
  - unfold prisma.battery.update. rewrite Hb. simpl snd. right. exists existing.
    destruct (Hw None) as (data & H1 & H2 & H3); eauto 6.
Qed.

Lemma createCustomer_rich env body db :
  snd (createCustomer env body db) = db
  \/ exists c,
      prisma.customer.findUnique (Customer.id c) db = None
      /\ prisma.customer.findUniqueByPhone (Customer.phoneNumber c) db = None
      /\ Customer.creditRating c = 3
      /\ snd (createCustomer env body db)
         = with_customers (customers db ++ [c]) db.
Proof.
  unfold createCustomer. run_handler.
  destruct (required_string (CustomerBody.name body)) as [name|];
    [|left; reflexivity].
  destruct (required_string (CustomerBody.phoneNumber body)) as [phone|];
    [|left; reflexivity].
  destruct (prisma.customer.findUniqueByPhone phone db) eqn:Hph;
    [left; reflexivity|].
  unfold prisma.customer.create. simpl Customer.id.
  destruct (prisma.customer.findUnique (uuid env) db) eqn:Hid;
    [left; reflexivity|].
  right. eexists (Customer.mk (uuid env) name phone _ 3). simpl. auto.
Qed.

Lemma customer_data_id n rs a r x :
  Customer.id
    (spread n Customer.set_name
       (spread rs Customer.set_phoneNumber
          (spread a Customer.set_address
             (spread r Customer.set_creditRating x))))
  = Customer.id x.
Proof. destruct n, rs, a, r; reflexivity. Qed.

Lemma customer_data_phone n rs a r x :
  Customer.phoneNumber
    (spread n Customer.set_name
       (spread rs Customer.set_phoneNumber
          (spread a Customer.set_address
             (spread r Customer.set_creditRating x))))
  = match rs with Some ph => ph | None => Customer.phoneNumber x end.
Proof. destruct n, rs, a, r; reflexivity. Qed.

Lemma updateCustomer_rich id body db :
  snd (updateCustomer id body db) = db
  \/ exists existing data,
      prisma.customer.findUnique id db = Some existing
      /\ (forall x, Customer.id (data x) = Customer.id x)
      /\ (Customer.phoneNumber (data existing) = Customer.phoneNumber existing
          \/ prisma.customer.findUniqueByPhone
               (Customer.phoneNumber (data existing)) db = None)
      /\ snd (updateCustomer id body db)
         = with_customers
             (map (rewrite_key Customer.id id data) (customers db)) db.
Proof.
  unfold updateCustomer. run_handler.
  destruct (prisma.customer.findUnique id db) as [existing|] eqn:Hc;
    [|left; reflexivity].
  assert (Hw : forall rs,
             (rs = None \/ exists ph, rs = Some ph
                /\ (ph = Customer.phoneNumber existing
                    \/ prisma.customer.findUniqueByPhone ph db = None)) ->
             exists data,
               (forall x, Customer.id (data x) = Customer.id x)
               /\ (Customer.phoneNumber (data existing)
                   = Customer.phoneNumber existing
                   \/ prisma.customer.findUniqueByPhone
                        (Customer.phoneNumber (data existing)) db = None)
               /\ with_customers
                    (map (rewrite_key Customer.id id (fun c =>
                       spread (required_string (CustomerBody.name body))
                         Customer.set_name
                         (spread rs Customer.set_phoneNumber
                            (spread (CustomerBody.address body)
                               Customer.set_address
                               (spread (CustomerBody.creditRating body)
                                  Customer.set_creditRating c)))))
                       (customers db)) db
                  = with_customers
                      (map (rewrite_key Customer.id id data) (customers db))
                      db).
  { intros rs Hrs. eexists. split; [|split; [|reflexivity]].
    - intros x. apply customer_data_id.
    - cbv beta. rewrite customer_data_phone.
      destruct Hrs as [->|(ph & -> & [->|Hn])]; auto. }
  destruct (required_string (CustomerBody.phoneNumber body)) as [ph|] eqn:Hp.
  - destruct (String.eqb ph (Customer.phoneNumber existing)) eqn:Eph;
      cbv beta iota delta [negb].
    + unfold prisma.customer.update. rewrite Hc. simpl snd. right.
      exists existing. apply String.eqb_eq in Eph.
      destruct (Hw (Some ph)) as (data & H1 & H2 & H3); eauto 6.
    + destruct (prisma.customer.findUniqueByPhone ph db) eqn:Hdup;
        [left; reflexivity|].
      unfold prisma.customer.update. rewrite Hc. simpl snd. right.
      exists existing.
      destruct (Hw (Some ph)) as (data & H1 & H2 & H3); eauto 6.
  - unfold prisma.customer.update. rewrite Hc. simpl snd. right.
    exists existing.
    destruct (Hw None) as (data & H1 & H2 & H3); eauto 6.
Qed.

Lemma deleteCustomer_rich id db :
  snd (deleteCustomer id db) = db
  \/ (prisma.rental.ofCustomer id db = []
      /\ prisma.payment.ofCustomer id db = []
      /\ snd (deleteCustomer id db)
         = with_customers
             (filter (fun x => negb (has_key Customer.id id x)) (customers db))
             db).
Proof.
  unfold deleteCustomer. run_handler. unfold prisma.customer.delete.
  destruct (prisma.customer.findUnique id db) as [c|] eqn:Hc;
    [|left; reflexivity].
  destruct (prisma.rental.ofCustomer id db) eqn:Er; [|left; reflexivity].
  destruct (prisma.payment.ofCustomer id db) eqn:Ep; [|left; reflexivity].
  change (0 <? List.length (@nil Rental.t))%nat with false.
  change (0 <? List.length (@nil Payment.t))%nat with false.
  cbv beta iota delta [orb]. rewrite Hc. right. auto.
Qed.

Lemma engine_rich cid db :
  updateCustomerCreditRating cid db = db
  \/ exists c rating,
      prisma.customer.findUnique cid db = Some c
      /\ updateCustomerCreditRating cid db
         = with_customers
             (map (rewrite_key Customer.id cid
                     (Customer.set_creditRating rating)) (customers db)) db.
Proof.
  unfold updateCustomerCreditRating.
  destruct (_ =? _)%nat; [left; reflexivity|].
  unfold prisma.customer.update.
  destruct (prisma.customer.findUnique cid db) as [c|] eqn:Hc;
    [|left; reflexivity].
  right. exists c. eexists. split; reflexivity.
Qed.

(** ** Integrity is kept by every write *)

Ltac open_integrity H :=
  destruct H as ((Hkb & Hkc & Hkr & Hkp) & (Hus & Hup) & (Hrr & Hrp)).
Ltac split_integrity :=
  unfold integrity, keys_unique, unique_columns, references_resolve;
  cbn [batteries customers rentals payments with_batteries with_customers
       with_rentals with_payments];
  repeat match goal with |- _ /\ _ => split end.

Lemma insert_battery_integrity b db :
  integrity db ->
  prisma.battery.findUnique (Battery.id b) db = None ->
  prisma.battery.findUniqueBySerial (Battery.serialNumber b) db = None ->
  integrity (with_batteries (batteries db ++ [b]) db).
Proof.
  intros H Hid Hsn. open_integrity H. split_integrity; auto.
  - apply NoDup_map_snoc; [exact Hkb|]. apply find_none_not_in. exact Hid.
  - apply NoDup_map_snoc; [exact Hus|]. apply find_none_not_in. exact Hsn.
  - intros r Hr. destruct (Hrr r Hr) as [H1 H2]. split; [|exact H2].
    apply find_app_not_none. exact H1.
Qed.

Lemma rewrite_battery_integrity k data existing db :
  integrity db ->
  prisma.battery.findUnique k db = Some existing ->
  (forall x, Battery.id (data x) = Battery.id x) ->
  (Battery.serialNumber (data existing) = Battery.serialNumber existing
   \/ prisma.battery.findUniqueBySerial
        (Battery.serialNumber (data existing)) db = None) ->
  integrity
    (with_batteries (map (rewrite_key Battery.id k data) (batteries db)) db).
Proof.
  intros H Hb Hid Hsn. open_integrity H. split_integrity; auto.
  - rewrite map_key_rewrite by exact Hid. exact Hkb.
  - apply (NoDup_column_rewrite Battery.id Battery.serialNumber k data _
             existing); auto.
    destruct Hsn as [Hsn|Hsn]; [left; exact Hsn|].
    right. apply find_none_not_in. exact Hsn.
  - intros r Hr. destruct (Hrr r Hr) as [H1 H2]. split; [|exact H2].
    apply find_rewrite_not_none; assumption.
Qed.

Lemma remove_battery_integrity k db :
  integrity db ->
  prisma.rental.ofBattery k db = [] ->
  integrity
    (with_batteries
       (filter (fun x => negb (has_key Battery.id k x)) (batteries db)) db).
Proof.
  intros H Hnone. open_integrity H. split_integrity; auto.
  - apply NoDup_map_filter. exact Hkb.
  - apply NoDup_map_filter. exact Hus.
  - intros r Hr. destruct (Hrr r Hr) as [H1 H2]. split; [|exact H2].
    unfold prisma.battery.findUnique. simpl batteries.
    rewrite find_filter_other; [exact H1|].
    apply (filter_nil_key Rental.batteryId k (rentals db)); assumption.
Qed.

Lemma insert_customer_integrity c db :
  integrity db ->
  prisma.customer.findUnique (Customer.id c) db = None ->
  prisma.customer.findUniqueByPhone (Customer.phoneNumber c) db = None ->
  integrity (with_customers (customers db ++ [c]) db).
Proof.
  intros H Hid Hph. open_integrity H. split_integrity; auto.
  - apply NoDup_map_snoc; [exact Hkc|]. apply find_none_not_in. exact Hid.
  - apply NoDup_map_snoc; [exact Hup|]. apply find_none_not_in. exact Hph.
  - intros r Hr. destruct (Hrr r Hr) as [H1 H2]. split; [exact H1|].
    apply find_app_not_none. exact H2.
Qed.

Lemma rewrite_customer_integrity k data existing db :
  integrity db ->
  prisma.customer.findUnique k db = Some existing ->
  (forall x, Customer.id (data x) = Customer.id x) ->
  (Customer.phoneNumber (data existing) = Customer.phoneNumber existing
   \/ prisma.customer.findUniqueByPhone
        (Customer.phoneNumber (data existing)) db = None) ->
  integrity
    (with_customers (map (rewrite_key Customer.id k data) (customers db)) db).
Proof.
  intros H Hc Hid Hph. open_integrity H. split_integrity; auto.
  - rewrite map_key_rewrite by exact Hid. exact Hkc.
  - apply (NoDup_column_rewrite Customer.id Customer.phoneNumber k data _
             existing); auto.
    destruct Hph as [Hph|Hph]; [left; exact Hph|].
    right. apply find_none_not_in. exact Hph.
  - intros r Hr. destruct (Hrr r Hr) as [H1 H2]. split; [exact H1|].
    apply find_rewrite_not_none; assumption.
Qed.

Lemma remove_customer_integrity k db :
  integrity db ->
  prisma.rental.ofCustomer k db = [] ->
  integrity
    (with_customers
       (filter (fun x => negb (has_key Customer.id k x)) (customers db)) db).
Proof.
  intros H Hnone. open_integrity H. split_integrity; auto.
  - apply NoDup_map_filter. exact Hkc.
  - apply NoDup_map_filter. exact Hup.
  - intros r Hr. destruct (Hrr r Hr) as [H1 H2]. split; [exact H1|].
    unfold prisma.customer.findUnique. simpl customers.
    rewrite find_filter_other; [exact H2|].
    apply (filter_nil_key Rental.customerId k (rentals db)); assumption.
Qed.

Lemma insert_rental_integrity r db :
  integrity db ->
  prisma.rental.findUnique (Rental.id r) db = None ->
  prisma.battery.findUnique (Rental.batteryId r) db <> None ->
  prisma.customer.findUnique (Rental.customerId r) db <> None ->
  integrity (with_rentals (rentals db ++ [r]) db).
Proof.
  intros H Hid Hb Hc. open_integrity H. split_integrity; auto.
  - apply NoDup_map_snoc; [exact Hkr|]. apply find_none_not_in. exact Hid.
  - intros r' Hr'. apply in_app_or in Hr'. destruct Hr' as [Hr'|[<-|[]]].
    + exact (Hrr r' Hr').
    + split; assumption.
  - intros p Hp. destruct (Hrp p Hp) as (r' & H1 & H2). exists r'.
    split; [|exact H2]. apply find_app_some. exact H1.
Qed.

Lemma rewrite_rental_integrity k data db :
  integrity db ->
  (forall r, Rental.id (data r) = Rental.id r
             /\ Rental.batteryId (data r) = Rental.batteryId r
             /\ Rental.customerId (data r) = Rental.customerId r) ->
  integrity
    (with_rentals (map (rewrite_key Rental.id k data) (rentals db)) db).
Proof.
  intros H Hdata. open_integrity H. split_integrity; auto.
  - rewrite map_key_rewrite by (intros x; apply Hdata). exact Hkr.
  - intros r Hr. apply in_rewrite in Hr.
    destruct Hr as (x & Hx & [[_ ->]|[_ ->]]).
    + destruct (Hdata x) as (_ & -> & ->). exact (Hrr x Hx).
    + exact (Hrr x Hx).
  - intros p Hp. destruct (Hrp p Hp) as (r' & H1 & H2).
    unfold prisma.rental.findUnique in *. simpl rentals.
    rewrite find_rewrite_any by (intros x; apply Hdata). rewrite H1.
    eexists. split; [reflexivity|]. unfold rewrite_key.
    destruct (String.eqb (Rental.id r') k); [|exact H2].
    destruct (Hdata r') as (_ & _ & ->). exact H2.
Qed.

Lemma insert_payment_integrity p r db :
  integrity db ->
  prisma.payment.findUnique (Payment.id p) db = None ->
  prisma.rental.findUnique (Payment.rentalId p) db = Some r ->
  Rental.customerId r = Payment.customerId p ->
  integrity (with_payments (payments db ++ [p]) db).
Proof.
  intros H Hid Hr Hc. open_integrity H. split_integrity; auto.
  - apply NoDup_map_snoc; [exact Hkp|]. apply find_none_not_in. exact Hid.
  - intros p' Hp'. apply in_app_or in Hp'. destruct Hp' as [Hp'|[<-|[]]].
    + exact (Hrp p' Hp').
    + exists r. split; assumption.
Qed.

Lemma engine_integrity cid db :
  integrity db -> integrity (updateCustomerCreditRating cid db).
Proof.
  intros H. destruct (engine_rich cid db) as [->|(c & rating & Hc & ->)];
    [exact H|].
  apply (rewrite_customer_integrity cid _ c); auto.
Qed.

Lemma handle_keeps_integrity op db :
  integrity db -> integrity (snd (handle op db)).
Proof.
  intros H. destruct op as [env body|id body|id|env body|id body|id|env body
                           |env id body|id isPaid|env body]; simpl handle.
  - destruct (createBattery_rich env body db)
      as [->|(b & Hid & Hsn & _ & ->)]; [exact H|].
    apply insert_battery_integrity; assumption.
  - destruct (updateBattery_rich id body db)
      as [->|(b & data & Hb & Hid & Hsn & ->)]; [exact H|].
    apply (rewrite_battery_integrity id data b); assumption.
  - destruct (deleteBattery_db id db) as [->|(Hnone & ->)]; [exact H|].
    apply remove_battery_integrity; assumption.
  - destruct (createCustomer_rich env body db)
      as [->|(c & Hid & Hph & _ & ->)]; [exact H|].
    apply insert_customer_integrity; assumption.
  - destruct (updateCustomer_rich id body db)
      as [->|(c & data & Hc & Hid & Hph & ->)]; [exact H|].
    apply (rewrite_customer_integrity id data c); assumption.
  - destruct (deleteCustomer_rich id db) as [->|(Hnone & _ & ->)]; [exact H|].
    apply remove_customer_integrity; assumption.
  - destruct (createRental_outcome env body db)
      as [(e & ->)|(bid & cid & price & b & _ & _ & _ & Hb & _ & Hc & Hid
                    & ->)]; [exact H|].
    simpl snd. unfold rented.
    set (mid := with_rentals _ db).
    change (batteries db) with (batteries mid).
    apply (rewrite_battery_integrity bid _ b mid);
      [|exact Hb|reflexivity|left; reflexivity].
    apply insert_rental_integrity;
      [exact H|exact Hid| |exact Hc].
    simpl. rewrite Hb. discriminate.
  - destruct (returnBattery_db env id body db)
      as [->|(rental & b & data & _ & _ & Hb & Hdata & ->)]; [exact H|].
    apply engine_integrity.
    set (mid := with_rentals _ db).
    change (batteries db) with (batteries mid).
    apply (rewrite_battery_integrity (Rental.batteryId rental) _ b mid);
      [|exact Hb|reflexivity|left; reflexivity].
    apply rewrite_rental_integrity; [exact H|].
    intros r. destruct (Hdata r) as (H1 & H2 & H3 & _). auto.
  - destruct (updateRentalPayment_db id isPaid db)
      as [->|(rental & p & ->)]; [exact H|].
    apply engine_integrity. apply rewrite_rental_integrity; auto.
  - destruct (createPayment_outcome env body db)
      as [(e & ->)|(rid & cid & amount & method & r & _ & _ & _ & _ & Hr & _
                    & Hcid & Hid & ->)]; [exact H|].
    simpl snd. apply engine_integrity. unfold paid.
    assert (Hins : integrity
                     (with_payments
                        (payments db ++ [newPayment env rid cid amount method])
                        db)).
    { apply (insert_payment_integrity _ r); auto. }
    destruct (PrimFloat.leb _ _); [|exact Hins].
    simpl Payment.rentalId. set (mid := with_payments _ db) in *.
    change (rentals db) with (rentals mid).
    apply (rewrite_rental_integrity rid _ mid); auto.
Qed.

Lemma integrity_empty : integrity emptyDB.
Proof.
  split_integrity; try apply NoDup_nil; intros ? [].
Qed.

Lemma reachable_integrity db : reachable any_op db -> integrity db.
Proof.
  induction 1 as [|db op Hreach IH Hallowed].
  - exact integrity_empty.
  - apply handle_keeps_integrity. exact IH.
Qed.

(** ** Return Battery, in full *)

Lemma returnBattery_outcome env id body db :
  (exists e, returnBattery env id body db = (Err e, db))
  \/ exists rental b,
      prisma.rental.findUnique id db = Some rental
      /\ Rental.returnDate rental = None
      /\ prisma.battery.findUnique (Rental.batteryId rental) db = Some b
      /\ returnBattery env id body db
         = (Ok 200 (JsonRental (closeRental env body rental rental)),
            updateCustomerCreditRating (Rental.customerId rental)
              (handedBack env id body rental db)).
Proof.
  unfold returnBattery. run_handler.
  destruct (prisma.rental.findUnique id db) as [rental|] eqn:Hr;
    [|left; eexists; reflexivity].
  destruct (Rental.returnDate rental) eqn:Hret; [left; eexists; reflexivity|].
  unfold prisma.rental.update. rewrite Hr. unfold prisma.battery.update.
  replace (prisma.battery.findUnique (Rental.batteryId rental)
             (with_rentals _ db))
    with (prisma.battery.findUnique (Rental.batteryId rental) db)
    by reflexivity.
  destruct (prisma.battery.findUnique (Rental.batteryId rental) db) as [b|]
    eqn:Hb; [|left; eexists; reflexivity].
  right. exists rental, b. auto.
Qed.

(** ** What each operation does to the rentals and to the payments *)

Lemma handle_payments op db :
  payments (snd (handle op db)) = payments db
  \/ exists env body p,
      op = RecordPayment env body
      /\ prisma.payment.findUnique (Payment.id p) db = None
      /\ payments (snd (handle op db)) = payments db ++ [p].
Proof.
  destruct op as [env body|id body|id|env body|id body|id|env body
                 |env id body|id isPaid|env body]; simpl handle.
  - destruct (createBattery_rich env body db) as [->|(b & _ & _ & _ & ->)];
      left; reflexivity.
  - destruct (updateBattery_rich id body db)
      as [->|(b & data & _ & _ & _ & ->)]; left; reflexivity.
  - destruct (deleteBattery_db id db) as [->|(_ & ->)]; left; reflexivity.
  - destruct (createCustomer_rich env body db) as [->|(c & _ & _ & _ & ->)];
      left; reflexivity.
  - destruct (updateCustomer_rich id body db)
      as [->|(c & data & _ & _ & _ & ->)]; left; reflexivity.
  - destruct (deleteCustomer_rich id db) as [->|(_ & _ & ->)];
      left; reflexivity.
  - destruct (createRental_outcome env body db)
      as [(e & ->)|(bid & cid & price & b & _ & _ & _ & _ & _ & _ & _ & ->)];
      left; reflexivity.
  - destruct (returnBattery_outcome env id body db)
      as [(e & ->)|(rental & b & _ & _ & _ & ->)]; [left; reflexivity|].
    left. simpl snd.
    destruct (engine_frame (Rental.customerId rental)
                (handedBack env id body rental db)) as (_ & _ & ->).
    reflexivity.
  - destruct (updateRentalPayment_db id isPaid db)
      as [->|(rental & p & ->)]; [left; reflexivity|].
    left.
    destruct (engine_frame (Rental.customerId rental)
                (with_rentals
                   (map (rewrite_key Rental.id id (Rental.set_isPaid p))
                      (rentals db)) db)) as (_ & _ & ->).
    reflexivity.
  - destruct (createPayment_outcome env body db)
      as [(e & ->)|(rid & cid & amount & method & r & _ & _ & _ & _ & _ & _
                    & _ & Hid & ->)]; [left; reflexivity|].
    right. exists env, body, (newPayment env rid cid amount method).
    split; [reflexivity|]. split; [exact Hid|]. simpl snd.
    destruct (engine_frame cid
                (paid (newPayment env rid cid amount method) r db))
      as (_ & _ & ->).
    unfold paid. destruct (PrimFloat.leb _ _); reflexivity.
Qed.

Lemma handle_rentals_rich op db :
  rentals (snd (handle op db)) = rentals db
  \/ (exists env body r,
         op = CreateRental env body
         /\ prisma.rental.findUnique (Rental.id r) db = None
         /\ Rental.returnDate r = None
         /\ rentals (snd (handle op db)) = rentals db ++ [r])
  \/ (exists k p,
         rentals (snd (handle op db))
         = map (rewrite_key Rental.id k (Rental.set_isPaid p)) (rentals db))
  \/ (exists env id body rental,
         op = ReturnBattery env id body
         /\ prisma.rental.findUnique id db = Some rental
         /\ Rental.returnDate rental = None
         /\ rentals (snd (handle op db))
            = map (rewrite_key Rental.id id (closeRental env body rental))
                (rentals db)).
Proof.
  destruct op as [env body|id body|id|env body|id body|id|env body
                 |env id body|id isPaid|env body]; simpl handle.
  - destruct (createBattery_rich env body db) as [->|(b & _ & _ & _ & ->)];
      left; reflexivity.
  - destruct (updateBattery_rich id body db)
      as [->|(b & data & _ & _ & _ & ->)]; left; reflexivity.
  - destruct (deleteBattery_db id db) as [->|(_ & ->)]; left; reflexivity.
  - destruct (createCustomer_rich env body db) as [->|(c & _ & _ & _ & ->)];
      left; reflexivity.
  - destruct (updateCustomer_rich id body db)
      as [->|(c & data & _ & _ & _ & ->)]; left; reflexivity.
  - destruct (deleteCustomer_rich id db) as [->|(_ & _ & ->)];
      left; reflexivity.
  - destruct (createRental_outcome env body db)
      as [(e & ->)|(bid & cid & price & b & _ & _ & _ & _ & _ & _ & Hid & ->)];
      [left; reflexivity|].
    right; left.
    exists env, body, (newRental env bid cid price (RentalBody.isPaid body)).
    auto.
  - destruct (returnBattery_outcome env id body db)
      as [(e & ->)|(rental & b & Hr & Hopen & _ & ->)]; [left; reflexivity|].
    right; right; right. exists env, id, body, rental.
    split; [reflexivity|]. split; [exact Hr|]. split; [exact Hopen|].
    simpl snd.
    destruct (engine_frame (Rental.customerId rental)
                (handedBack env id body rental db)) as (_ & -> & _).
    reflexivity.
  - destruct (updateRentalPayment_db id isPaid db)
      as [->|(rental & p & ->)]; [left; reflexivity|].
    right; right; left. exists id, p.
    destruct (engine_frame (Rental.customerId rental)
                (with_rentals
                   (map (rewrite_key Rental.id id (Rental.set_isPaid p))
                      (rentals db)) db)) as (_ & -> & _).
    reflexivity.
  - destruct (createPayment_outcome env body db)
      as [(e & ->)|(rid & cid & amount & method & r & _ & _ & _ & _ & _ & _
                    & _ & _ & ->)]; [left; reflexivity|].
    simpl snd.
    destruct (engine_frame cid
                (paid (newPayment env rid cid amount method) r db))
      as (_ & -> & _).
    unfold paid. destruct (PrimFloat.leb _ _); [|left; reflexivity].
    right; right; left. exists rid, true. reflexivity.
Qed.

(** ** Integrity of the stored data *)

(** X3. In every state the handlers can reach from the empty database the
    primary keys of the four tables are unique: the create handlers never
    insert an id twice and the updates never rewrite one. *)
Theorem primary_keys_stay_unique db :
  reachable any_op db -> keys_unique db.
Proof. intros H. apply reachable_integrity in H. apply H. Qed.

Lemma primary_keys_stay_unique_witness :
  reachable any_op Scenario.returned /\ keys_unique Scenario.returned.
Proof.
  assert (H : reachable any_op Scenario.returned)
    by (apply (reachable_run (fun _ => True)); repeat constructor).
  split; [exact H | exact (primary_keys_stay_unique _ H)].
Defined.

(** X4. Serial numbers and phone numbers stay unique in every reachable
    state: the duplicate checks of the create and update handlers of
    inventory.ts and customers.ts are enough, whatever the order of calls. *)
Theorem unique_columns_stay_unique db :
  reachable any_op db -> unique_columns db.
Proof. intros H. apply reachable_integrity in H. apply H. Qed.

Lemma unique_columns_stay_unique_witness :
  reachable any_op Scenario.stocked /\ unique_columns Scenario.stocked.
Proof.
  assert (H : reachable any_op Scenario.stocked)
    by (apply (reachable_run (fun _ => True)); repeat constructor).
  split; [exact H | exact (unique_columns_stay_unique _ H)].
Defined.

(** X5. In every reachable state each rental refers to a stored battery and
    a stored customer, and each payment to a stored rental of the customer
    the payment is booked on: the delete guards and the checks of Create
    Rental and Record Payment keep the relations resolved. *)
Theorem references_stay_resolved db :
  reachable any_op db -> references_resolve db.
Proof. intros H. apply reachable_integrity in H. apply H. Qed.

Lemma references_stay_resolved_witness :
  reachable any_op Scenario.paidUp /\ references_resolve Scenario.paidUp.
Proof.
  assert (H : reachable any_op Scenario.paidUp)
    by (apply (reachable_run (fun _ => True)); repeat constructor).
  split; [exact H | exact (references_stay_resolved _ H)].
Defined.

(** ** Rentals and payments are kept *)

(** X6. No operation changes or removes a stored payment: the payments
    after an operation are the payments before it, followed by at most one
    new row, and only Record Payment adds one. *)
Theorem payments_append_only op db :
  exists l,
    payments (snd (handle op db)) = payments db ++ l
    /\ (List.length l <= 1)%nat
    /\ (l <> [] -> exists env body, op = RecordPayment env body).
Proof.
  destruct (handle_payments op db) as [E|(env & body & p & Hop & _ & E)].
  - exists []. rewrite app_nil_r. split; [exact E|]. split; [simpl; lia|].
    intros H. contradiction.
  - exists [p]. split; [exact E|]. split; [simpl; lia|]. eauto.
Qed.

Lemma contract_set_isPaid p r : contract (Rental.set_isPaid p r) = contract r.
Proof. reflexivity. Qed.

Lemma contract_closeRental env body rental r :
  contract (closeRental env body rental r) = contract r.
Proof. reflexivity. Qed.

(** X7. No operation removes a rental or changes what it is for: id,
    battery, customer, rent date and price of the stored rentals are the same
    after every operation, in the same order, followed by at most one new
    rental, which only Create Rental adds and which is open. *)
Theorem rentals_persist op db :
  exists l,
    map contract (rentals (snd (handle op db)))
    = map contract (rentals db) ++ map contract l
    /\ (List.length l <= 1)%nat
    /\ (l <> [] -> exists env body, op = CreateRental env body)
    /\ (forall r, In r l -> Rental.returnDate r = None).
Proof.
  destruct (handle_rentals_rich op db)
    as [E|[(env & body & r & Hop & _ & Hopen & E)
          |[(k & p & E)|(env & id & body & rental & _ & _ & _ & E)]]];
    rewrite E.
  - exists []. simpl. rewrite app_nil_r.
    repeat split; [lia|contradiction|intros r []].
  - exists [r]. rewrite map_app. repeat split; [simpl; lia|eauto|].
    intros r' [<-|[]]. exact Hopen.
  - exists []. simpl. rewrite app_nil_r.
    rewrite map_column_rewrite by (intros x; apply contract_set_isPaid).
    repeat split; [lia|contradiction|intros r []].
  - exists []. simpl. rewrite app_nil_r.
    rewrite map_column_rewrite by (intros x; apply contract_closeRental).
    repeat split; [lia|contradiction|intros r []].
Qed.



(** ** The routes as mounted *)

Lemma engine_customer_ids cid db :
  map Customer.id (customers (updateCustomerCreditRating cid db))
  = map Customer.id (customers db).
Proof.
  destruct (engine_rich cid db) as [->|(c & rating & _ & ->)];
    [reflexivity|].
  simpl. apply map_key_rewrite. reflexivity.
Qed.

Lemma handle_ids_grow op db :
  admin_only op = false ->
  (exists l, map Battery.id (batteries (snd (handle op db)))
             = map Battery.id (batteries db) ++ l)
  /\ (exists l, map Customer.id (customers (snd (handle op db)))
                = map Customer.id (customers db) ++ l).
Proof.
  assert (Hsame : forall db', map Battery.id (batteries db')
                              = map Battery.id (batteries db) ->
                              map Customer.id (customers db')
                              = map Customer.id (customers db) ->
            (exists l, map Battery.id (batteries db')
                       = map Battery.id (batteries db) ++ l)
            /\ (exists l, map Customer.id (customers db')
                          = map Customer.id (customers db) ++ l)).
  { intros db' Hb Hc. split; exists []; rewrite app_nil_r; assumption. }
  destruct op as [env body|id body|id|env body|id body|id|env body
                 |env id body|id isPaid|env body]; simpl handle;
    intros Hop; try discriminate Hop.
  - destruct (createBattery_rich env body db) as [->|(b & _ & _ & _ & ->)];
      [apply Hsame; reflexivity|].
    simpl. split; [exists [Battery.id b]; apply map_app|].
    exists []. rewrite app_nil_r. reflexivity.
  - destruct (updateBattery_rich id body db)
      as [->|(b & data & _ & Hid & _ & ->)]; apply Hsame; try reflexivity.
    simpl. apply map_key_rewrite. exact Hid.
  - destruct (createCustomer_rich env body db) as [->|(c & _ & _ & _ & ->)];
      [apply Hsame; reflexivity|].
    simpl. split; [|exists [Customer.id c]; apply map_app].
    exists []. rewrite app_nil_r. reflexivity.
  - destruct (updateCustomer_rich id body db)
      as [->|(c & data & _ & Hid & _ & ->)]; apply Hsame; try reflexivity.
    simpl. apply map_key_rewrite. exact Hid.
  - destruct (createRental_outcome env body db)
      as [(e & ->)|(bid & cid & price & b & _ & _ & _ & _ & _ & _ & _ & ->)];
      apply Hsame; try reflexivity.
    simpl. apply map_key_rewrite. reflexivity.
  - destruct (returnBattery_outcome env id body db)
      as [(e & ->)|(rental & b & _ & _ & _ & ->)];
      apply Hsame; try reflexivity; simpl snd.
    + destruct (engine_frame (Rental.customerId rental)
                  (handedBack env id body rental db)) as (-> & _ & _).
      simpl. apply map_key_rewrite. reflexivity.
    + rewrite engine_customer_ids. reflexivity.
  - destruct (updateRentalPayment_db id isPaid db)
      as [->|(rental & p & ->)]; apply Hsame; try reflexivity.
    + destruct (engine_frame (Rental.customerId rental)
                  (with_rentals
                     (map (rewrite_key Rental.id id (Rental.set_isPaid p))
                        (rentals db)) db)) as (-> & _ & _).
      reflexivity.
    + rewrite engine_customer_ids. reflexivity.
  - destruct (createPayment_outcome env body db)
      as [(e & ->)|(rid & cid & amount & method & r & _ & _ & _ & _ & _ & _
                    & _ & _ & ->)]; apply Hsame; try reflexivity; simpl snd.
    + destruct (engine_frame cid
                  (paid (newPayment env rid cid amount method) r db))
        as (-> & _ & _).
      unfold paid. destruct (PrimFloat.leb _ _); reflexivity.
    + rewrite engine_customer_ids.
      unfold paid. destruct (PrimFloat.leb _ _); reflexivity.
Qed.

Lemma serve_behind_requireAuth req op db :
  admin_only op = false ->
  serve req op db = (Handled (fst (handle op db)), snd (handle op db)).
Proof.
  intros Hop. unfold serve.
  assert (E : middlewareOf op = [Auth.requireAuth])
    by (destruct op; try reflexivity; discriminate Hop).
  rewrite E. simpl. destruct (handle op db). reflexivity.
Qed.

(** X9. [requireAuth] is a placeholder: it gives every request the mock admin
    user, so whatever the request carries, every route behind it runs its
    handler, and a route that ran [requireAdmin] after it would too. *)
Theorem requireAuth_admits_everyone req op handler db :
  admin_only op = false ->
  Auth.requireAuth req
  = Auth.Next (Auth.mkRequest (Some (Auth.mkUser "mock-user-id" "admin")))
  /\ serve req op db = (Handled (fst (handle op db)), snd (handle op db))
  /\ route [Auth.requireAuth; Auth.requireAdmin] handler req db
     = (Handled (fst (handler db)), snd (handler db)).
Proof.
  intros Hop. split; [reflexivity|].
  split; [apply serve_behind_requireAuth; exact Hop|].
  simpl. destruct (handler db). reflexivity.
Qed.

Lemma requireAuth_admits_everyone_witness :
  admin_only Scenario.addBattery = false
  /\ serve (Auth.mkRequest None) Scenario.addBattery emptyDB
     = (Handled (fst (handle Scenario.addBattery emptyDB)),
        snd (handle Scenario.addBattery emptyDB)).
Proof.
  split; [reflexivity|].
  apply (requireAuth_admits_everyone (Auth.mkRequest None)
           Scenario.addBattery (handle Scenario.addBattery) emptyDB).
  reflexivity.
Defined.

(** X10. Through the routes as they are mounted, a request that arrives without
    a user never removes a battery or a customer: after any operation the
    stored ids are the ids before it, in order, with new ones at the end. *)
Theorem mounted_routes_never_delete req op db :
  Auth.user req = None ->
  (exists l, map Battery.id (batteries (snd (serve req op db)))
             = map Battery.id (batteries db) ++ l)
  /\ (exists l, map Customer.id (customers (snd (serve req op db)))
                = map Customer.id (customers db) ++ l).
Proof.
  intros Hnone. destruct (admin_only op) eqn:Hop.
  - assert (E : serve req op db = (Forbidden, db)).
    { unfold serve. destruct op; try discriminate Hop; simpl;
        unfold Auth.requireAdmin; rewrite Hnone; reflexivity. }
    rewrite E. simpl. split; exists []; rewrite app_nil_r; reflexivity.
  - rewrite serve_behind_requireAuth by exact Hop. simpl snd.
    apply handle_ids_grow. exact Hop.
Qed.

Lemma mounted_routes_never_delete_witness :
  Auth.user (Auth.mkRequest None) = None
  /\ (exists l,
        map Battery.id
          (batteries
             (snd (serve (Auth.mkRequest None) (DeleteBattery "b1")
                     Scenario.stocked)))
        = map Battery.id (batteries Scenario.stocked) ++ l)
  /\ (exists l,
        map Customer.id
          (customers
             (snd (serve (Auth.mkRequest None) (DeleteBattery "b1")
                     Scenario.stocked)))
        = map Customer.id (customers Scenario.stocked) ++ l).
Proof.
  split; [reflexivity|].
  apply (mounted_routes_never_delete (Auth.mkRequest None)
           (DeleteBattery "b1") Scenario.stocked).
  reflexivity.
Defined.

(** ** One open rental per battery *)

Lemma reachable_lifecycle db :
  reachable status_update_agrees db ->
  lifecycle_inv (batteries db) (rentals db).
Proof.
  induction 1 as [|db op _ IH Hop].
  - exact lifecycle_inv_empty.
  - apply handle_keeps_lifecycle; assumption.
Qed.

(** X11. When requests are handled one at a time and inventory updates send a
    [status] that agrees with the rentals, a battery never has two open
    rentals: two stored rentals of one battery that both lack a return date
    are the same row. (Two Create Rentals that overlap can leave two:
    [overlapping_rentals_both_commit].) *)
Theorem one_open_rental_per_battery db r1 r2 :
  reachable status_update_agrees db ->
  In r1 (rentals db) -> In r2 (rentals db) ->
  Rental.batteryId r1 = Rental.batteryId r2 ->
  Rental.returnDate r1 = None -> Rental.returnDate r2 = None ->
  r1 = r2.
Proof.
  intros Hreach H1 H2 Hb Ho1 Ho2.
  destruct (reachable_lifecycle db Hreach) as (_ & _ & _ & Hone).
  assert (Hany : reachable any_op db)
    by (apply (reachable_weaken status_update_agrees); [|exact Hreach];
        intros; exact I).
  destruct (reachable_integrity db Hany) as ((_ & _ & Hkr & _) & _).
  apply (NoDup_key_inj Rental.id (rentals db)); auto.
Qed.

Lemma one_open_rental_per_battery_witness :
  let r := Rental.mk "r1" "b1" "c1" 0 None 100 false in
  reachable status_update_agrees Scenario.rentedOut
  /\ In r (rentals Scenario.rentedOut)
  /\ r = r.
Proof.
  intros r.
  assert (H : reachable status_update_agrees Scenario.rentedOut)
    by (apply reachable_sample; repeat constructor).
  assert (Hin : In r (rentals Scenario.rentedOut)) by (left; reflexivity).
  split; [exact H|]. split; [exact Hin|].
  exact (one_open_rental_per_battery Scenario.rentedOut r r H Hin Hin
           eq_refl eq_refl eq_refl).
Defined.

(** ** Return Battery *)

Lemma engine_findUnique_battery cid k db :
  prisma.battery.findUnique k (updateCustomerCreditRating cid db)
  = prisma.battery.findUnique k db.
Proof.
  unfold prisma.battery.findUnique.
  destruct (engine_frame cid db) as (-> & _ & _). reflexivity.
Qed.

Lemma engine_findUnique_rental cid k db :
  prisma.rental.findUnique k (updateCustomerCreditRating cid db)
  = prisma.rental.findUnique k db.
Proof.
  unfold prisma.rental.findUnique.
  destruct (engine_frame cid db) as (_ & -> & _). reflexivity.
Qed.

Lemma engine_keeps_customers cid k db :
  prisma.customer.findUnique k db <> None ->
  prisma.customer.findUnique k (updateCustomerCreditRating cid db) <> None.
Proof.
  destruct (engine_rich cid db) as [->|(c & rating & _ & ->)]; [auto|].
  apply find_rewrite_not_none. reflexivity.
Qed.

(** X12. A successful return answers 200 with the updated rental; it closes a
    rental that was open, with the return date the caller sent or else the
    current time and with the caller's paid flag or else the stored one;
    the contract is unchanged; the battery is AVAILABLE afterwards; no
    payment is touched. *)
Theorem return_closes_rental env id body db code json db' :
  returnBattery env id body db = (Ok code json, db') ->
  exists rental updated b',
    prisma.rental.findUnique id db = Some rental
    /\ Rental.returnDate rental = None
    /\ code = 200 /\ json = JsonRental updated
    /\ prisma.rental.findUnique id db' = Some updated
    /\ contract updated = contract rental
    /\ Rental.returnDate updated
       = Some match ReturnBody.returnDate body with
              | Some returnDate =>
                  if returnDate =? 0 then now env else returnDate
              | None => now env
              end
    /\ Rental.isPaid updated
       = match ReturnBody.isPaid body with
         | Some isPaid => isPaid
         | None => Rental.isPaid rental
         end
    /\ prisma.battery.findUnique (Rental.batteryId rental) db' = Some b'
    /\ Battery.status b' = AVAILABLE
    /\ payments db' = payments db.
Proof.
  intros H.
  destruct (returnBattery_outcome env id body db)
    as [(e & E)|(rental & b & Hr & Hopen & Hb & E)];
    rewrite E in H; inversion H; subst; clear H.
  exists rental, (closeRental env body rental rental),
    (Battery.set_status AVAILABLE b).
  split; [exact Hr|]. split; [exact Hopen|]. do 2 (split; [reflexivity|]).
  split.
  { rewrite engine_findUnique_rental. unfold handedBack.
    unfold prisma.rental.findUnique. simpl rentals.
    rewrite find_rewrite by reflexivity.
    fold (prisma.rental.findUnique id db). rewrite Hr. reflexivity. }
  split; [reflexivity|].
  split.
  { unfold closeRental, truthy_date. simpl.
    destruct (ReturnBody.returnDate body) as [d|];
      [destruct (d =? 0)|]; reflexivity. }
  split; [reflexivity|].
  split.
  { rewrite engine_findUnique_battery. unfold handedBack.
    unfold prisma.battery.findUnique. simpl batteries.
    rewrite find_rewrite by reflexivity.
    fold (prisma.battery.findUnique (Rental.batteryId rental) db).
    rewrite Hb. reflexivity. }
  split; [reflexivity|].
  destruct (engine_frame (Rental.customerId rental)
              (handedBack env id body rental db)) as (_ & _ & ->).
  reflexivity.
Qed.

Lemma return_closes_rental_witness :
  exists rental updated b',
    prisma.rental.findUnique "r1" Scenario.paidUp = Some rental
    /\ Rental.returnDate rental = None
    /\ 200 = 200 /\ JsonRental Scenario.paid_day5 = JsonRental updated
    /\ prisma.rental.findUnique "r1" Scenario.returned = Some updated
    /\ contract updated = contract rental
    /\ Rental.returnDate updated = Some (5 * msPerDay)
    /\ Rental.isPaid updated = Rental.isPaid rental
    /\ prisma.battery.findUnique (Rental.batteryId rental) Scenario.returned
       = Some b'
    /\ Battery.status b' = AVAILABLE
    /\ payments Scenario.returned = payments Scenario.paidUp.
Proof.
  apply (return_closes_rental (mkEnv "" (5 * msPerDay)) "r1"
           (ReturnBody.mk (Some 0) None) Scenario.paidUp 200
           (JsonRental Scenario.paid_day5) Scenario.returned).
  reflexivity.
Defined.

(** X13. A battery that has been returned can be rented again at once: after a
    successful return, Create Rental for that battery, a stored customer, a
    fresh id and a price that is not 0 and that the column stores as sent
    (at most two decimals, below 10^8) answers 201 with the new rental. *)
Theorem rent_again_after_return env id body db code json db' rental env' body'
  cid price :
  returnBattery env id body db = (Ok code json, db') ->
  prisma.rental.findUnique id db = Some rental ->
  required_string (RentalBody.batteryId body') = Some (Rental.batteryId rental) ->
  required_string (RentalBody.customerId body') = Some cid ->
  required_number (RentalBody.rentalPrice body') = Some price ->
  Decimal_10_2 price ->
  prisma.customer.findUnique cid db <> None ->
  prisma.rental.findUnique (uuid env') db = None ->
  fst (createRental env' body' db')
  = Ok 201 (JsonRental (newRental env' (Rental.batteryId rental) cid price
                          (RentalBody.isPaid body'))).
Proof.
  intros H Hr Hbid Hcid Hprice _ Hc Hfresh.
  destruct (returnBattery_outcome env id body db)
    as [(e & E)|(rental' & b & Hr' & Hopen & Hb & E)];
    rewrite E in H; inversion H; subst; clear H.
  assert (rental' = rental) by congruence. subst rental'.
  set (db' := updateCustomerCreditRating _ _).
  assert (Hb' : prisma.battery.findUnique (Rental.batteryId rental) db'
                = Some (Battery.set_status AVAILABLE b)).
  { unfold db'. rewrite engine_findUnique_battery. unfold handedBack.
    unfold prisma.battery.findUnique. simpl batteries.
    rewrite find_rewrite by reflexivity.
    fold (prisma.battery.findUnique (Rental.batteryId rental) db).
    rewrite Hb. reflexivity. }
  assert (Hc' : prisma.customer.findUnique cid db' <> None).
  { unfold db'. apply engine_keeps_customers. exact Hc. }
  assert (Hfresh' : prisma.rental.findUnique (uuid env') db' = None).
  { unfold db'. rewrite engine_findUnique_rental. unfold handedBack.
    unfold prisma.rental.findUnique. simpl rentals.
    rewrite find_rewrite_any by reflexivity.
    fold (prisma.rental.findUnique (uuid env') db). rewrite Hfresh.
    reflexivity. }
  destruct (prisma.customer.findUnique cid db') as [c|] eqn:Ec;
    [|congruence].
  rewrite (createRental_succeeds env' body' db' (Rental.batteryId rental) cid
             price (Battery.set_status AVAILABLE b) c); auto.
Qed.

Lemma rent_again_after_return_witness :
  fst (createRental (mkEnv "r2" (6 * msPerDay)) Scenario.rentBody
         Scenario.returned)
  = Ok 201 (JsonRental
              (newRental (mkEnv "r2" (6 * msPerDay)) "b1" "c1" 100 None)).
Proof.
  apply (rent_again_after_return (mkEnv "" (5 * msPerDay)) "r1"
           (ReturnBody.mk None None) Scenario.paidUp 200
           (JsonRental Scenario.paid_day5) Scenario.returned
           (Rental.mk "r1" "b1" "c1" 0 None 100 true)
           (mkEnv "r2" (6 * msPerDay)) Scenario.rentBody "c1" 100%float);
    try reflexivity.
  - exists 10000. split; [lia | left; reflexivity].
  - discriminate.
Defined.

(** ** Deleting a battery or a customer *)

Lemma deleteBattery_outcome id db :
  (exists e, deleteBattery id db = (Err e, db))
  \/ (prisma.battery.findUnique id db <> None
      /\ prisma.rental.ofBattery id db = []
      /\ deleteBattery id db
         = (Ok 200 (JsonMessage "Battery deleted successfully"),
            with_batteries
              (filter (fun x => negb (has_key Battery.id id x)) (batteries db))
              db)).
Proof.
  unfold deleteBattery. run_handler. unfold prisma.battery.delete.
  destruct (prisma.battery.findUnique id db) as [b|] eqn:Hb;
    [|left; eexists; reflexivity].
  destruct (prisma.rental.ofBattery id db) eqn:Er;
    [|left; eexists; reflexivity].
  change (0 <? List.length (@nil Rental.t))%nat with false.
  cbv beta iota. rewrite Hb. right.
  split; [discriminate|]. split; reflexivity.
Qed.

Lemma deleteCustomer_outcome id db :
  (exists e, deleteCustomer id db = (Err e, db))
  \/ (prisma.customer.findUnique id db <> None
      /\ prisma.rental.ofCustomer id db = []
      /\ prisma.payment.ofCustomer id db = []
      /\ deleteCustomer id db
         = (Ok 200 (JsonMessage "Customer deleted successfully"),
            with_customers
              (filter (fun x => negb (has_key Customer.id id x))
                 (customers db)) db)).
Proof.
  unfold deleteCustomer. run_handler. unfold prisma.customer.delete.
  destruct (prisma.customer.findUnique id db) as [c|] eqn:Hc;
    [|left; eexists; reflexivity].
  destruct (prisma.rental.ofCustomer id db) eqn:Er;
    [|left; eexists; reflexivity].
  destruct (prisma.payment.ofCustomer id db) eqn:Ep;
    [|left; eexists; reflexivity].
  change (0 <? List.length (@nil Rental.t))%nat with false.
  change (0 <? List.length (@nil Payment.t))%nat with false.
  cbv beta iota delta [orb]. rewrite Hc. right.
  split; [discriminate|]. repeat split; reflexivity.
Qed.

Lemma filter_not_nil {T} (p : T -> bool) l :
  filter p l <> [] -> exists x, In x l /\ p x = true.
Proof.
  destruct (filter p l) as [|x l'] eqn:E; [congruence|]. intros _.
  exists x. apply filter_In. rewrite E. left. reflexivity.
Qed.

(** X14. The handler of [DELETE /inventory/:id] removes a battery only when the
    battery is stored and has never been rented; then exactly that row is
    gone and nothing else has changed. *)
Theorem delete_battery_removes_one_row id db code json db' :
  deleteBattery id db = (Ok code json, db') ->
  prisma.battery.findUnique id db <> None
  /\ prisma.rental.ofBattery id db = []
  /\ prisma.battery.findUnique id db' = None
  /\ (forall k, k <> id ->
        prisma.battery.findUnique k db' = prisma.battery.findUnique k db)
  /\ customers db' = customers db
  /\ rentals db' = rentals db
  /\ payments db' = payments db.
Proof.
  intros H.
  destruct (deleteBattery_outcome id db) as [(e & E)|(Hb & Hnone & E)];
    rewrite E in H; inversion H; subst; clear H.
  split; [exact Hb|]. split; [exact Hnone|].
  split; [apply find_filter_self|].
  split; [|auto]. intros k Hk. apply find_filter_other. exact Hk.
Qed.

Lemma delete_battery_removes_one_row_witness :
  let db := Scenario.run [Scenario.addBattery] in
  let db' := snd (deleteBattery "b1" db) in
  prisma.battery.findUnique "b1" db <> None
  /\ prisma.rental.ofBattery "b1" db = []
  /\ prisma.battery.findUnique "b1" db' = None
  /\ (forall k, k <> "b1"%string ->
        prisma.battery.findUnique k db' = prisma.battery.findUnique k db)
  /\ customers db' = customers db
  /\ rentals db' = rentals db
  /\ payments db' = payments db.
Proof.
  intros db db'.
  apply (delete_battery_removes_one_row "b1" db 200
           (JsonMessage "Battery deleted successfully") db').
  reflexivity.
Defined.

(** X15. The handler of [DELETE /customers/:id] removes a customer only when the
    customer is stored and has neither rentals nor payments; then exactly
    that row is gone and nothing else has changed. *)
Theorem delete_customer_removes_one_row id db code json db' :
  deleteCustomer id db = (Ok code json, db') ->
  prisma.customer.findUnique id db <> None
  /\ prisma.rental.ofCustomer id db = []
  /\ prisma.payment.ofCustomer id db = []
  /\ prisma.customer.findUnique id db' = None
  /\ (forall k, k <> id ->
        prisma.customer.findUnique k db' = prisma.customer.findUnique k db)
  /\ batteries db' = batteries db
  /\ rentals db' = rentals db
  /\ payments db' = payments db.
Proof.
  intros H.
  destruct (deleteCustomer_outcome id db) as [(e & E)|(Hc & Hr & Hp & E)];
    rewrite E in H; inversion H; subst; clear H.
  split; [exact Hc|]. split; [exact Hr|]. split; [exact Hp|].
  split; [apply find_filter_self|].
  split; [|auto]. intros k Hk. apply find_filter_other. exact Hk.
Qed.

Lemma delete_customer_removes_one_row_witness :
  let db := Scenario.stocked in
  let db' := snd (deleteCustomer "c1" db) in
  prisma.customer.findUnique "c1" db <> None
  /\ prisma.rental.ofCustomer "c1" db = []
  /\ prisma.payment.ofCustomer "c1" db = []
  /\ prisma.customer.findUnique "c1" db' = None
  /\ (forall k, k <> "c1"%string ->
        prisma.customer.findUnique k db' = prisma.customer.findUnique k db)
  /\ batteries db' = batteries db
  /\ rentals db' = rentals db
  /\ payments db' = payments db.
Proof.
  intros db db'.
  apply (delete_customer_removes_one_row "c1" db 200
           (JsonMessage "Customer deleted successfully") db').
  reflexivity.
Defined.

(** X16. In a reachable state, history blocks deletion with a 400 and never a
    404: a battery that some rental refers to is stored, so its delete
    handler answers 'Cannot delete battery with rental history'; a customer
    with a rental or a payment is stored, so theirs answers 'Cannot delete
    customer with rental or payment history'. Nothing is written. *)
Theorem history_blocks_deletion db id :
  reachable any_op db ->
  (prisma.rental.ofBattery id db <> [] ->
   deleteBattery id db = (Err BatteryHasRentalHistory, db))
  /\ (prisma.rental.ofCustomer id db <> []
      \/ prisma.payment.ofCustomer id db <> [] ->
      deleteCustomer id db = (Err CustomerHasHistory, db)).
Proof.
  intros Hreach.
  destruct (reachable_integrity db Hreach) as (_ & _ & Hrr & Hrp).
  split.
  - intros Hhist.
    destruct (filter_not_nil _ _ Hhist) as (r & Hr & Ek).
    apply String.eqb_eq in Ek. destruct (Hrr r Hr) as [Hb _].
    rewrite Ek in Hb. unfold deleteBattery. run_handler.
    destruct (prisma.battery.findUnique id db); [|congruence].
    destruct (prisma.rental.ofBattery id db); [congruence|]. reflexivity.
  - intros Hhist.
    assert (Hc : prisma.customer.findUnique id db <> None).
    { destruct Hhist as [Hhist|Hhist];
        destruct (filter_not_nil _ _ Hhist) as (x & Hx & Ek);
        apply String.eqb_eq in Ek.
      - destruct (Hrr x Hx) as [_ Hc]. rewrite Ek in Hc. exact Hc.
      - destruct (Hrp x Hx) as (r & Hfind & Ecid).
        apply (find_some_key Rental.id) in Hfind.
        destruct Hfind as [_ Hr]. destruct (Hrr r Hr) as [_ Hc].
        rewrite Ecid, Ek in Hc. exact Hc. }
    unfold deleteCustomer. run_handler.
    destruct (prisma.customer.findUnique id db); [|congruence].
    destruct (prisma.rental.ofCustomer id db) as [|r rs].
    + destruct (prisma.payment.ofCustomer id db) as [|p ps];
        [destruct Hhist; congruence|]. reflexivity.
    + reflexivity.
Qed.

Lemma history_blocks_deletion_witness :
  reachable any_op Scenario.returned
  /\ prisma.rental.ofBattery "b1" Scenario.returned <> []
  /\ deleteBattery "b1" Scenario.returned
     = (Err BatteryHasRentalHistory, Scenario.returned).
Proof.
  assert (H : reachable any_op Scenario.returned)
    by (apply (reachable_run (fun _ => True)); repeat constructor).
  assert (Hhist : prisma.rental.ofBattery "b1" Scenario.returned <> [])
    by discriminate.
  split; [exact H|]. split; [exact Hhist|].
  exact (proj1 (history_blocks_deletion Scenario.returned "b1" H) Hhist).
Defined.

(** ** The Credit Rating Engine *)

Lemma addRentalPoints_shift t rp :
  addRentalPoints t rp = t + addRentalPoints 0 rp.
Proof.
  destruct rp as [r ps]. unfold addRentalPoints.
  destruct (Rental.isPaid r), (0 <? List.length ps)%nat,
    (Rental.returnDate r) as [d|];
    try destruct (rentDuration (Rental.rentDate r) d <=? 7); lia.
Qed.

Lemma fold_points_sum l : forall t,
  fold_left addRentalPoints l t = t + Zsum (map (addRentalPoints 0) l).
Proof.
  induction l as [|rp l IH]; intros t; simpl.
  - lia.
  - rewrite IH, (addRentalPoints_shift t rp). lia.
Qed.

Lemma totalPointsOf_sum l :
  totalPointsOf l = Zsum (map (addRentalPoints 0) l).
Proof. unfold totalPointsOf. rewrite fold_points_sum. lia. Qed.

Lemma Zsum_perm l l' : Permutation l l' -> Zsum l = Zsum l'.
Proof. induction 1; simpl; lia. Qed.

Lemma Permutation_filter' {T} (p : T -> bool) l l' :
  Permutation l l' -> Permutation (filter p l) (filter p l').
Proof.
  induction 1 as [|x l l' _ IH|x y l|l l' l'' _ IH1 _ IH2]; simpl.
  - constructor.
  - destruct (p x); [constructor|]; exact IH.
  - destruct (p x), (p y); try apply Permutation_refl. constructor.
  - exact (Permutation_trans IH1 IH2).
Qed.

Lemma addRentalPoints_length t r ps ps' :
  List.length ps = List.length ps' ->
  addRentalPoints t (r, ps) = addRentalPoints t (r, ps').
Proof. intros E. unfold addRentalPoints. rewrite E. reflexivity. Qed.

Lemma findMany_points cid db :
  map (addRentalPoints 0) (prisma.rental.findManyWithPayments cid db)
  = map (fun r => addRentalPoints 0
                    (r, prisma.payment.ofRental (Rental.id r) db))
      (prisma.rental.ofCustomer cid db).
Proof.
  unfold prisma.rental.findManyWithPayments. rewrite map_map. reflexivity.
Qed.

Lemma findMany_perm cid db db' :
  Permutation (rentals db) (rentals db') ->
  Permutation (payments db) (payments db') ->
  List.length (prisma.rental.findManyWithPayments cid db)
  = List.length (prisma.rental.findManyWithPayments cid db')
  /\ totalPointsOf (prisma.rental.findManyWithPayments cid db)
     = totalPointsOf (prisma.rental.findManyWithPayments cid db').
Proof.
  intros Hr Hp.
  assert (Hof : Permutation (prisma.rental.ofCustomer cid db)
                  (prisma.rental.ofCustomer cid db'))
    by (apply Permutation_filter'; exact Hr).
  split.
  - unfold prisma.rental.findManyWithPayments. rewrite !length_map.
    apply Permutation_length. exact Hof.
  - rewrite !totalPointsOf_sum, !findMany_points.
    rewrite (map_ext _ (fun r => addRentalPoints 0
                          (r, prisma.payment.ofRental (Rental.id r) db'))).
    + apply Zsum_perm. apply Permutation_map. exact Hof.
    + intros r. apply addRentalPoints_length. apply Permutation_length.
      apply Permutation_filter'. exact Hp.
Qed.

(** X17. The rating does not depend on the order in which the database returns
    rows: on two states with the same customers whose rentals and payments
    are the same rows in another order, the engine computes the same rating
    and leaves the same customers. *)
Theorem rating_ignores_row_order cid db db' :
  customers db = customers db' ->
  Permutation (rentals db) (rentals db') ->
  Permutation (payments db) (payments db') ->
  formulaRating cid db = formulaRating cid db'
  /\ customers (updateCustomerCreditRating cid db)
     = customers (updateCustomerCreditRating cid db').
Proof.
  intros Hc Hr Hp. destruct (findMany_perm cid db db' Hr Hp) as [Hlen Hpts].
  split; [unfold formulaRating; rewrite Hlen, Hpts; reflexivity|].
  unfold updateCustomerCreditRating. rewrite Hlen, Hpts.
  destruct (_ =? 0)%nat; [exact Hc|].
  unfold prisma.customer.update, prisma.customer.findUnique. rewrite Hc.
  destruct (find _ (customers db')); simpl; [reflexivity | exact Hc].
Qed.

Lemma rating_ignores_row_order_witness :
  let r2 := Rental.mk "r2" "b1" "c1" 0 (Some (5 * msPerDay)) 100 true in
  let db := with_rentals (r2 :: rentals Scenario.dbD) Scenario.dbD in
  let db' :=
    mkDB (batteries db) (customers db) (rev (rentals db)) (rev (payments db))
  in
  formulaRating "c1" db = formulaRating "c1" db'
  /\ customers (updateCustomerCreditRating "c1" db)
     = customers (updateCustomerCreditRating "c1" db').
Proof.
  intros r2 db db'.
  apply (rating_ignores_row_order "c1" db db');
    [reflexivity | apply Permutation_rev | apply Permutation_rev].
Defined.

Lemma creditRatingOf_closed p n :
  (0 < n)%nat ->
  creditRatingOf p n = (10 * p + 3 * Z.of_nat n) / (6 * Z.of_nat n).
Proof.
  intros Hn. unfold creditRatingOf, Math_round.
  destruct (Z.of_nat n) as [|q|q] eqn:E; try lia.
  change (Z.pos q * 3) with (Z.pos (q * 3)).
  assert (H : (inject_Z p / inject_Z (Z.pos (q * 3)) * 5 + (1 # 2)
               == (10 * p + 3 * Z.pos q) # (6 * q))%Q).
  { cbv beta iota delta [Qeq Qdiv Qmult Qplus Qinv inject_Z Qnum Qden].
    rewrite ?Pos2Z.inj_mul. lia. }
  rewrite H. unfold Qfloor. reflexivity.
Qed.

Lemma creditRatingOf_mono p p' n :
  (0 < n)%nat -> p <= p' -> creditRatingOf p n <= creditRatingOf p' n.
Proof.
  intros Hn Hp. rewrite !creditRatingOf_closed by exact Hn.
  apply Z.div_le_mono; lia.
Qed.

Lemma creditRatingOf_extremes n :
  (0 < n)%nat ->
  creditRatingOf (3 * Z.of_nat n) n = 5 /\ creditRatingOf 0 n = 0.
Proof.
  intros Hn. rewrite !creditRatingOf_closed by exact Hn. split.
  - symmetry. apply (Z.div_unique _ _ 5 (3 * Z.of_nat n)); lia.
  - apply Z.div_small. lia.
Qed.

(** X18. [Math.round(totalPoints / (totalRentals * 3) * 5)] is integer
    arithmetic: with at least one rental the rating is
    (10 * totalPoints + 3 * totalRentals) div (6 * totalRentals), so it
    grows with the points, a customer whose rentals all earn three points
    is rated 5 and one whose rentals earn none is rated 0, however many
    rentals there are. *)
Theorem rating_closed_form p p' n :
  (0 < n)%nat ->
  creditRatingOf p n = (10 * p + 3 * Z.of_nat n) / (6 * Z.of_nat n)
  /\ (p <= p' -> creditRatingOf p n <= creditRatingOf p' n)
  /\ creditRatingOf (3 * Z.of_nat n) n = 5
  /\ creditRatingOf 0 n = 0.
Proof.
  intros Hn. split; [apply creditRatingOf_closed; exact Hn|].
  split; [apply creditRatingOf_mono; exact Hn|].
  apply creditRatingOf_extremes. exact Hn.
Qed.

Lemma rating_closed_form_witness :
  creditRatingOf 7 4 = (10 * 7 + 3 * 4) / (6 * 4)
  /\ (7 <= 8 -> creditRatingOf 7 4 <= creditRatingOf 8 4)
  /\ creditRatingOf 12 4 = 5
  /\ creditRatingOf 0 4 = 0.
Proof. apply (rating_closed_form 7 8 4). lia. Defined.

Lemma Zsum_pointwise {T} (f g : T -> Z) l :
  (forall x, In x l -> f x <= g x) -> Zsum (map f l) <= Zsum (map g l).
Proof.
  induction l as [|x l IH]; simpl; intros H; [lia|].
  pose proof (H x (or_introl eq_refl)).
  assert (Zsum (map f l) <= Zsum (map g l)) by (apply IH; auto). lia.
Qed.




(** ** The stored rating after a recomputation *)







(** ** A payment never lowers the rating *)

Lemma addRentalPoints_settle r r' ps ps' :
  r' = r \/ r' = Rental.set_isPaid true r ->
  (List.length ps <= List.length ps')%nat ->
  addRentalPoints 0 (r, ps) <= addRentalPoints 0 (r', ps').
Proof.
  intros Hr Hlen. unfold addRentalPoints.
  assert (Hd : Rental.returnDate r' = Rental.returnDate r
               /\ Rental.rentDate r' = Rental.rentDate r)
    by (destruct Hr as [->| ->]; split; reflexivity).
  destruct Hd as [-> ->].
  assert (Hp : Rental.isPaid r = true -> Rental.isPaid r' = true)
    by (destruct Hr as [->| ->]; auto).
  assert (Hps : (0 <? List.length ps)%nat = true ->
                (0 <? List.length ps')%nat = true)
    by (rewrite !Nat.ltb_lt; lia).
  destruct (Rental.isPaid r); [rewrite Hp by reflexivity|].
  - destruct (Rental.returnDate r) as [d|];
      [destruct (rentDuration (Rental.rentDate r) d <=? 7)|]; lia.
  - destruct (0 <? List.length ps)%nat; [rewrite Hps by reflexivity|];
      destruct (Rental.isPaid r'), (0 <? List.length ps')%nat,
        (Rental.returnDate r) as [d|];
      try destruct (rentDuration (Rental.rentDate r) d <=? 7); lia.
Qed.

Lemma filter_map_commute {T} (p : T -> bool) (g : T -> T) l :
  (forall x, p (g x) = p x) -> filter p (map g l) = map g (filter p l).
Proof.
  intros H. induction l as [|x l IH]; simpl; [reflexivity|].
  rewrite H. destruct (p x); simpl; rewrite IH; reflexivity.
Qed.

Lemma paid_shape p r db :
  exists g,
    (forall x, g x = x \/ g x = Rental.set_isPaid true x)
    /\ rentals (paid p r db) = map g (rentals db)
    /\ payments (paid p r db) = payments db ++ [p].
Proof.
  unfold paid. destruct (PrimFloat.leb _ _).
  - exists (rewrite_key Rental.id (Payment.rentalId p)
              (Rental.set_isPaid true)).
    split; [|split; reflexivity].
    intros x. unfold rewrite_key.
    destruct (String.eqb (Rental.id x) (Payment.rentalId p)); auto.
  - exists (fun x => x). split; [auto|]. split; [|reflexivity].
    simpl. symmetry. apply map_id.
Qed.

Lemma formulaRating_mono cid db mid g :
  (forall x, g x = x \/ g x = Rental.set_isPaid true x) ->
  rentals mid = map g (rentals db) ->
  (forall k, (List.length (prisma.payment.ofRental k db)
              <= List.length (prisma.payment.ofRental k mid))%nat) ->
  formulaRating cid db <= formulaRating cid mid.
Proof.
  intros Hg Hr Hp.
  assert (Hkeep : forall x, Rental.id (g x) = Rental.id x
                            /\ Rental.customerId (g x) = Rental.customerId x)
    by (intros x; destruct (Hg x) as [->| ->]; split; reflexivity).
  assert (Hof : prisma.rental.ofCustomer cid mid
                = map g (prisma.rental.ofCustomer cid db)).
  { unfold prisma.rental.ofCustomer. rewrite Hr.
    apply filter_map_commute. intros x. unfold has_key.
    rewrite (proj2 (Hkeep x)). reflexivity. }
  unfold formulaRating. cbv zeta.
  assert (Hlen : List.length (prisma.rental.findManyWithPayments cid mid)
                 = List.length (prisma.rental.findManyWithPayments cid db)).
  { unfold prisma.rental.findManyWithPayments.
    rewrite Hof, !length_map. reflexivity. }
  assert (Hpts : totalPointsOf (prisma.rental.findManyWithPayments cid db)
                 <= totalPointsOf
                      (prisma.rental.findManyWithPayments cid mid)).
  { rewrite !totalPointsOf_sum, !findMany_points, Hof, map_map.
    apply Zsum_pointwise. intros x _.
    apply addRentalPoints_settle; [|rewrite (proj1 (Hkeep x)); apply Hp].
    destruct (Hg x); auto. }
  rewrite Hlen.
  destruct (List.length (prisma.rental.findManyWithPayments cid db)) eqn:En.
  - apply length_zero_iff_nil in En.
    assert (Em : prisma.rental.findManyWithPayments cid mid = [])
      by (apply length_zero_iff_nil; exact Hlen).
    rewrite En, Em. lia.
  - apply creditRatingOf_mono; [lia | exact Hpts].
Qed.

(** X21. Recording a payment never lowers the rating the engine computes for the
    paying customer: after a successful Record Payment it is at least what
    it was on the state before. *)
Theorem payment_never_lowers_rating env body db code json db' cid :
  createPayment env body db = (Ok code json, db') ->
  required_string (PaymentBody.customerId body) = Some cid ->
  formulaRating cid db <= formulaRating cid db'.
Proof.
  intros H Hcid.
  destruct (createPayment_outcome env body db)
    as [(e & E)|(rid & cid' & amount & method & r & _ & Hcid' & _ & _ & _
                 & _ & _ & _ & E)];
    rewrite E in H; inversion H; subst; clear H.
  assert (cid' = cid) by congruence. subst cid'.
  set (p := newPayment env rid cid amount method).
  destruct (engine_frame cid (paid p r db)) as (_ & Hr & Hp).
  unfold formulaRating at 2. cbv zeta.
  rewrite (findMany_frame cid (paid p r db)
             (updateCustomerCreditRating cid (paid p r db)) Hr Hp).
  fold (formulaRating cid (paid p r db)).
  destruct (paid_shape p r db) as (g & Hg & Hrs & Hps).
  apply (formulaRating_mono cid db (paid p r db) g Hg Hrs).
  intros k. unfold prisma.payment.ofRental. rewrite Hps, filter_app.
  rewrite length_app. lia.
Qed.

Lemma payment_never_lowers_rating_witness :
  formulaRating "c1" Scenario.rentedOut <= formulaRating "c1" Scenario.paidUp.
Proof.
  apply (payment_never_lowers_rating (mkEnv "p1" msPerDay)
           (Scenario.payBody 100) Scenario.rentedOut 201
           (JsonPayment
              (newPayment (mkEnv "p1" msPerDay) "r1" "c1" 100 CASH))
           Scenario.paidUp "c1"); reflexivity.
Defined.

(** ** Sorting *)

Section Sorting.
Context {T : Type} (key : T -> Z).

Lemma sort_insert_perm (after : T -> T -> bool) x l :
  Permutation (sort_insert after x l) (x :: l).
Proof.
  induction l as [|y l IH]; simpl; [apply Permutation_refl|].
  destruct (after x y); [|apply Permutation_refl].
  apply (Permutation_trans (perm_skip y IH)). apply perm_swap.
Qed.

Lemma Array_sort_perm (after : T -> T -> bool) l :
  Permutation (Array_sort after l) l.
Proof.
  induction l as [|x l IH]; simpl; [constructor|].
  apply (Permutation_trans (sort_insert_perm after x _)).
  constructor. exact IH.
Qed.

Lemma sort_insert_lex (R : T -> T -> Prop) x s :
  StronglySorted (lex key R) s -> Forall (R x) s ->
  StronglySorted (lex key R) (sort_insert (by_key key) x s).
Proof.
  induction s as [|y s IH]; simpl; intros Hs Hx.
  - repeat constructor.
  - apply StronglySorted_inv in Hs. destruct Hs as [Hs Hy].
    apply Forall_cons_iff in Hx. destruct Hx as [Hxy Hxs].
    unfold by_key at 1. destruct (0 <? key x - key y) eqn:E.
    + apply Z.ltb_lt in E. constructor; [apply IH; assumption|].
      apply (Permutation_Forall
               (Permutation_sym (sort_insert_perm (by_key key) x s))).
      constructor; [left; lia | exact Hy].
    + apply Z.ltb_ge in E. constructor; [constructor; assumption|].
      constructor.
      * unfold lex. destruct (Z.eq_dec (key x) (key y)); [right|left];
          auto; lia.
      * rewrite Forall_forall in *. intros z Hz.
        specialize (Hy z Hz). specialize (Hxs z Hz). unfold lex in *.
        destruct (Z.eq_dec (key x) (key z)); [right|left]; auto; lia.
Qed.

(** The sort is stable: an array that is in the order [R] comes out with
    keys ascending and, among equal keys, still in the order [R]. *)
Lemma Array_sort_stable (R : T -> T -> Prop) l :
  StronglySorted R l -> StronglySorted (lex key R) (Array_sort (by_key key) l).
Proof.
  induction l as [|x l IH]; simpl; intros Hl; [constructor|].
  apply StronglySorted_inv in Hl. destruct Hl as [Hl Hx].
  apply sort_insert_lex; [apply IH; exact Hl|].
  apply (Permutation_Forall (Permutation_sym (Array_sort_perm (by_key key) l))).
  exact Hx.
Qed.

Lemma StronglySorted_True l : StronglySorted (fun _ _ : T => True) l.
Proof.
  induction l; constructor; [assumption|]. apply Forall_forall. auto.
Qed.

Lemma StronglySorted_weaken (R R' : T -> T -> Prop) l :
  (forall a b, R a b -> R' a b) ->
  StronglySorted R l -> StronglySorted R' l.
Proof.
  intros HR. induction 1 as [|x l _ IH Hx]; constructor; [exact IH|].
  rewrite Forall_forall in *. auto.
Qed.

Lemma Array_sort_sorted l :
  StronglySorted (fun a b => key a <= key b) (Array_sort (by_key key) l).
Proof.
  apply (StronglySorted_weaken (lex key (fun _ _ => True))).
  - intros a b [H|[H _]]; lia.
  - apply Array_sort_stable. apply StronglySorted_True.
Qed.

Lemma StronglySorted_app_inv (R : T -> T -> Prop) l1 l2 :
  StronglySorted R (l1 ++ l2) ->
  StronglySorted R l1
  /\ forall a b, In a l1 -> In b l2 -> R a b.
Proof.
  induction l1 as [|x l1 IH]; simpl; intros H.
  - split; [constructor | intros a b []].
  - apply StronglySorted_inv in H. destruct H as [H Hx].
    destruct (IH H) as [Hs Hab]. split.
    + constructor; [exact Hs|]. apply Forall_forall. intros y Hy.
      rewrite Forall_forall in Hx. apply Hx. apply in_or_app. auto.
    + intros a b [<-|Ha] Hb; [|auto].
      rewrite Forall_forall in Hx. apply Hx. apply in_or_app. auto.
Qed.

Lemma StronglySorted_firstn (R : T -> T -> Prop) n l :
  StronglySorted R l ->
  StronglySorted R (firstn n l)
  /\ forall a b, In a (firstn n l) -> In b (skipn n l) -> R a b.
Proof.
  intros H. rewrite <- (firstn_skipn n l) in H.
  apply StronglySorted_app_inv. exact H.
Qed.
End Sorting.

Lemma sort_insert_ext {T} (f g : T -> T -> bool) x l :
  (forall a b, f a b = g a b) -> sort_insert f x l = sort_insert g x l.
Proof.
  intros H. induction l as [|y l IH]; simpl; [reflexivity|].
  rewrite H, IH. reflexivity.
Qed.

Lemma Array_sort_ext {T} (f g : T -> T -> bool) l :
  (forall a b, f a b = g a b) -> Array_sort f l = Array_sort g l.
Proof.
  intros H. induction l as [|x l IH]; simpl; [reflexivity|].
  rewrite IH. apply sort_insert_ext. exact H.
Qed.

Lemma StronglySorted_map {A B} (f : A -> B) (R : B -> B -> Prop) l :
  StronglySorted (fun a b => R (f a) (f b)) l -> StronglySorted R (map f l).
Proof.
  induction 1 as [|x l _ IH Hx]; simpl; constructor; [exact IH|].
  apply Forall_forall. intros y Hy. apply in_map_iff in Hy.
  destruct Hy as (z & <- & Hz). rewrite Forall_forall in Hx. auto.
Qed.

Lemma In_firstn {A} n (l : list A) x : In x (firstn n l) -> In x l.
Proof.
  intros H. rewrite <- (firstn_skipn n l). apply in_or_app. auto.
Qed.

(** ** Reports *)

(** X22. The inventory summary adds up: every battery is counted under exactly
    one of available, rented and maintenance. *)
Theorem inventory_stats_add_up db :
  Stats.total (inventoryStats db)
  = (Stats.available (inventoryStats db) + Stats.rented (inventoryStats db)
     + Stats.maintenance (inventoryStats db))%nat.
Proof.
  unfold inventoryStats, countByStatus. simpl.
  induction (batteries db) as [|b l IH]; [reflexivity|].
  simpl. destruct (Battery.status b); simpl; lia.
Qed.

Lemma byRentalsDesc_sorted l :
  StronglySorted
    (fun a b => (Counted.rentals b <= Counted.rentals a)%nat)
    (Array_sort byRentalsDesc l).
Proof.
  rewrite (Array_sort_ext byRentalsDesc
             (by_key (fun r => - Z.of_nat (Counted.rentals r)))).
  - apply (StronglySorted_weaken
             (fun a b => - Z.of_nat (Counted.rentals a)
                         <= - Z.of_nat (Counted.rentals b))).
    + intros a b H. lia.
    + apply (Array_sort_sorted (fun r => - Z.of_nat (Counted.rentals r))).
  - intros a b. unfold byRentalsDesc, by_key. f_equal. lia.
Qed.

(** X23. The top-customers list holds the five customers with the most rentals
    (all of them when there are fewer), most rentals first; each entry
    carries the number of rentals stored for that customer, and no customer
    left out has more rentals than one that is listed. *)
Theorem top_by_rentals_lists_the_top db :
  let top := topByRentals db in
  let count c := List.length (prisma.rental.ofCustomer (Customer.id c) db) in
  List.length top = Nat.min 5 (List.length (customers db))
  /\ StronglySorted
       (fun a b => (TopCustomer.rentalCount b <= TopCustomer.rentalCount a)%nat)
       top
  /\ (forall t, In t top ->
        exists c, In c (customers db)
                  /\ t = TopCustomer.mk (Customer.id c) (Customer.name c)
                           (Customer.phoneNumber c) (count c)
                           (Customer.creditRating c))
  /\ (forall c, In c (customers db) ->
        ~ In (Customer.id c) (map TopCustomer.id top) ->
        forall t, In t top -> (count c <= TopCustomer.rentalCount t)%nat).
Proof.
  intros top count. unfold top, topByRentals, slice5. cbv zeta.
  set (sorted := Array_sort byRentalsDesc (findManyWithCount db)).
  assert (Hperm : Permutation sorted (findManyWithCount db))
    by apply Array_sort_perm.
  assert (Hsorted := byRentalsDesc_sorted (findManyWithCount db)).
  fold sorted in Hsorted.
  destruct (StronglySorted_firstn _ 5 sorted Hsorted) as [Hfirst Hrest].
  split; [|split; [|split]].
  - rewrite length_map, length_firstn, (Permutation_length Hperm).
    unfold findManyWithCount. rewrite length_map. reflexivity.
  - apply StronglySorted_map. exact Hfirst.
  - intros t Ht. apply in_map_iff in Ht. destruct Ht as (row & <- & Hrow).
    apply In_firstn in Hrow. apply (Permutation_in _ Hperm) in Hrow.
    apply in_map_iff in Hrow. destruct Hrow as (c & <- & Hc).
    exists c. split; [exact Hc | reflexivity].
  - intros c Hc Hout t Ht.
    apply in_map_iff in Ht. destruct Ht as (row & <- & Hrow).
    set (mine := Counted.mk c (count c)).
    assert (Hmine : In mine sorted).
    { apply (Permutation_in _ (Permutation_sym Hperm)).
      unfold findManyWithCount. apply in_map_iff. exists c. auto. }
    rewrite <- (firstn_skipn 5 sorted) in Hmine.
    apply in_app_or in Hmine. destruct Hmine as [Hmine|Hmine].
    + exfalso. apply Hout. rewrite map_map. apply in_map_iff.
      exists mine. split; [reflexivity | exact Hmine].
    + exact (Hrest row mine Hrow Hmine).
Qed.

(** X24. On the dashboard the worst-ratings list is cut from the array the
    top-renters sort has already reordered: it holds five customers (all
    when there are fewer) with the lowest ratings first and, among equal
    ratings, those with more rentals first; the top-renters list is the one
    of the customers route. *)
Theorem dashboard_worst_ratings_order db :
  exists rows,
    snd (dashboardCustomers db) = map toWorstRating rows
    /\ List.length rows = Nat.min 5 (List.length (customers db))
    /\ (forall row, In row rows -> In row (findManyWithCount db))
    /\ StronglySorted
         (fun a b =>
            Customer.creditRating (Counted.customer a)
            < Customer.creditRating (Counted.customer b)
            \/ (Customer.creditRating (Counted.customer a)
                = Customer.creditRating (Counted.customer b)
                /\ (Counted.rentals b <= Counted.rentals a)%nat))
         rows
    /\ fst (dashboardCustomers db) = topByRentals db.
Proof.
  unfold dashboardCustomers, slice5. cbv zeta.
  set (sorted := Array_sort byRentalsDesc (findManyWithCount db)).
  set (again := Array_sort byRatingAsc sorted).
  assert (Hperm : Permutation again (findManyWithCount db)).
  { apply (Permutation_trans (Array_sort_perm _ _)).
    apply Array_sort_perm. }
  exists (firstn 5 again). split; [reflexivity|].
  split.
  { rewrite length_firstn, (Permutation_length Hperm).
    unfold findManyWithCount. rewrite length_map. reflexivity. }
  split.
  { intros row Hrow. apply In_firstn in Hrow.
    exact (Permutation_in _ Hperm Hrow). }
  split; [|reflexivity].
  apply (StronglySorted_firstn _ 5 again).
  exact (Array_sort_stable
           (fun r => Customer.creditRating (Counted.customer r))
           (fun a b => (Counted.rentals b <= Counted.rentals a)%nat)
           sorted (byRentalsDesc_sorted (findManyWithCount db))).
Qed.

Lemma NoDup_map_inj_in {A B} (f : A -> B) l :
  NoDup l ->
  (forall x y, In x l -> In y l -> f x = f y -> x = y) ->
  NoDup (map f l).
Proof.
  induction 1 as [|x l Hx _ IH]; simpl; intros Hinj; constructor.
  - intros Hin. apply in_map_iff in Hin. destruct Hin as (y & E & Hy).
    assert (y = x) by (apply Hinj; auto). subst y. contradiction.
  - apply IH. intros a b Ha Hb. apply Hinj; auto.
Qed.

(** X25. When requests are handled one at a time and inventory updates send a
    [status] that agrees with the rentals, the number of rented batteries in
    the inventory summary is the number of active rentals, and no battery
    occurs twice among the active rentals. (Not so once two Create Rentals
    have overlapped: [overlapping_rentals_both_commit].) *)
Theorem rented_count_is_active_rentals db :
  reachable status_update_agrees db ->
  Stats.rented (inventoryStats db) = List.length (activeRentals db)
  /\ NoDup (map Rental.batteryId (activeRentals db)).
Proof.
  intros Hreach.
  destruct (reachable_lifecycle db Hreach) as (Htrack & Hrefs & _ & Hone).
  assert (Hany : reachable any_op db)
    by (apply (reachable_weaken status_update_agrees); [|exact Hreach];
        intros; exact I).
  destruct (reachable_integrity db Hany) as ((Hkb & _ & Hkr & _) & _).
  set (active := filter isOpen (rentals db)).
  assert (Hperm : Permutation (activeRentals db) active)
    by apply Array_sort_perm.
  assert (Hin : forall r, In r active
                          <-> In r (rentals db) /\ Rental.returnDate r = None).
  { intros r. unfold active. rewrite filter_In. unfold isOpen.
    destruct (Rental.returnDate r); split; intros [? ?];
      split; auto; discriminate. }
  assert (Hnd : NoDup (map Rental.batteryId active)).
  { apply NoDup_map_inj_in.
    - apply NoDup_filter. exact (NoDup_map_inv _ _ Hkr).
    - intros x y Hx Hy E. apply Hin in Hx. apply Hin in Hy.
      destruct Hx as [Hx Hox], Hy as [Hy Hoy].
      apply (NoDup_key_inj Rental.id (rentals db)); auto. }
  set (rentedOnes :=
         filter (fun b => Status_eqb (Battery.status b) RENTED) (batteries db)).
  assert (Hsame : Permutation (map Battery.id rentedOnes)
                    (map Rental.batteryId active)).
  { apply NoDup_Permutation.
    - apply NoDup_map_filter. exact Hkb.
    - exact Hnd.
    - intros k. rewrite !in_map_iff. split.
      + intros (b & <- & Hb). unfold rentedOnes in Hb.
        apply filter_In in Hb. destruct Hb as [Hb Hst].
        apply Status_eqb_eq in Hst.
        destruct (proj1 (Htrack b Hb) Hst) as (r & Hr & Hrb & Hopen).
        exists r. split; [exact Hrb|]. apply Hin. auto.
      + intros (r & <- & Hr). apply Hin in Hr. destruct Hr as [Hr Hopen].
        destruct (Hrefs r Hr) as (b & Hb & Eb). exists b.
        split; [exact Eb|]. unfold rentedOnes. apply filter_In.
        split; [exact Hb|]. apply Status_eqb_eq. apply (Htrack b Hb).
        exists r. auto. }
  split.
  - unfold inventoryStats, countByStatus. simpl. fold rentedOnes.
    rewrite (Permutation_length Hperm).
    rewrite <- (length_map Battery.id rentedOnes).
    rewrite (Permutation_length Hsame). apply length_map.
  - apply (Permutation_NoDup
             (Permutation_map Rental.batteryId (Permutation_sym Hperm))).
    exact Hnd.
Qed.

Lemma rented_count_is_active_rentals_witness :
  reachable status_update_agrees Scenario.rentedOut
  /\ Stats.rented (inventoryStats Scenario.rentedOut)
     = List.length (activeRentals Scenario.rentedOut)
  /\ NoDup (map Rental.batteryId (activeRentals Scenario.rentedOut)).
Proof.
  assert (H : reachable status_update_agrees Scenario.rentedOut)
    by (apply reachable_sample; repeat constructor).
  split; [exact H | exact (rented_count_is_active_rentals _ H)].
Defined.

(** ** Due balances *)

Lemma fold_addDue_unpaid l : forall due,
  fold_left addDue l due
  = fold_left addDue
      (filter (fun rp => negb (Rental.isPaid (fst rp))) l) due.
Proof.
  induction l as [|[r ps] l IH]; intros due; [reflexivity|].
  simpl. destruct (Rental.isPaid r) eqn:E; simpl; rewrite ?E; simpl;
    apply IH.
Qed.

Lemma filter_none {T} (p : T -> bool) l :
  (forall x, In x l -> p x = false) -> filter p l = [].
Proof.
  induction l as [|x l IH]; simpl; intros H; [reflexivity|].
  rewrite (H x (or_introl eq_refl)). apply IH. auto.
Qed.

(** X26. The due balance of the customer profile is computed from the unpaid
    rentals only, whatever was paid on the others; a customer whose rentals
    are all marked paid has due balance 0. *)
Theorem due_balance_counts_unpaid_only id db customer dueBalance :
  getCustomer id db = ProfileOk customer dueBalance ->
  prisma.customer.findUnique id db = Some customer
  /\ (exists rentals,
        Permutation rentals (prisma.rental.findManyWithPayments id db)
        /\ dueBalance
           = dueBalanceOf
               (filter (fun rp => negb (Rental.isPaid (fst rp))) rentals))
  /\ ((forall r, In r (prisma.rental.ofCustomer id db) ->
                 Rental.isPaid r = true) ->
      dueBalance = 0%float).
Proof.
  unfold getCustomer.
  destruct (prisma.customer.findUnique id db) as [c|]; [|discriminate].
  cbv zeta. intros H. inversion H; subst; clear H.
  set (rentals := Array_sort _ _).
  assert (Hperm : Permutation rentals
                    (prisma.rental.findManyWithPayments id db))
    by apply Array_sort_perm.
  split; [reflexivity|]. split.
  - exists rentals. split; [exact Hperm|]. apply fold_addDue_unpaid.
  - intros Hpaid. unfold dueBalanceOf. rewrite fold_addDue_unpaid.
    replace (filter _ rentals) with (@nil (Rental.t * list Payment.t));
      [reflexivity|].
    symmetry. apply filter_none. intros [r ps] Hin.
    apply (Permutation_in _ Hperm) in Hin.
    unfold prisma.rental.findManyWithPayments in Hin.
    apply in_map_iff in Hin. destruct Hin as (r' & E & Hr').
    inversion E; subst. simpl. rewrite (Hpaid r Hr'). reflexivity.
Qed.

Lemma due_balance_counts_unpaid_only_witness :
  getCustomer "c1" Scenario.paidUp = ProfileOk Scenario.alice 0
  /\ prisma.customer.findUnique "c1" Scenario.paidUp = Some Scenario.alice
  /\ (exists rentals,
        Permutation rentals
          (prisma.rental.findManyWithPayments "c1" Scenario.paidUp)
        /\ 0%float
           = dueBalanceOf
               (filter (fun rp => negb (Rental.isPaid (fst rp))) rentals))
  /\ ((forall r, In r (prisma.rental.ofCustomer "c1" Scenario.paidUp) ->
                 Rental.isPaid r = true) ->
      0%float = 0%float).
Proof.
  assert (H : getCustomer "c1" Scenario.paidUp = ProfileOk Scenario.alice 0)
    by reflexivity.
  split; [exact H|].
  exact (due_balance_counts_unpaid_only "c1" Scenario.paidUp Scenario.alice 0
           H).
Defined.

(** X27. The with-dues list names debtors only: every entry has a due amount
    above 0 and belongs to a stored customer with at least one rental that
    is not marked paid. *)
Theorem with_dues_lists_debtors_only db entry :
  In entry (customersWithDues db) ->
  PrimFloat.ltb 0 (Due.dueAmount entry) = true
  /\ exists c,
      In c (customers db) /\ entry = toDue db c
      /\ exists r, In r (rentals db)
                   /\ Rental.customerId r = Customer.id c
                   /\ Rental.isPaid r = false.
Proof.
  intros Hin. unfold customersWithDues in Hin.
  apply (Permutation_in _ (Array_sort_perm _ _)) in Hin.
  apply filter_In in Hin. destruct Hin as [Hin Hpos].
  split; [exact Hpos|].
  apply in_map_iff in Hin. destruct Hin as (c & <- & Hc).
  exists c. split; [exact Hc|]. split; [reflexivity|].
  unfold toDue in Hpos. simpl in Hpos. unfold unpaidWithPayments in Hpos.
  destruct (filter (fun r => negb (Rental.isPaid r))
              (prisma.rental.ofCustomer (Customer.id c) db))
    as [|r rs] eqn:E; [discriminate Hpos|].
  assert (Hr : In r (filter (fun r => negb (Rental.isPaid r))
                       (prisma.rental.ofCustomer (Customer.id c) db)))
    by (rewrite E; left; reflexivity).
  apply filter_In in Hr. destruct Hr as [Hr Hunpaid].
  apply filter_In in Hr. destruct Hr as [Hr Ek].
  exists r. split; [exact Hr|]. split.
  - apply String.eqb_eq. exact Ek.
  - destruct (Rental.isPaid r); [discriminate | reflexivity].
Qed.

Lemma with_dues_lists_debtors_only_witness :
  let entry := Due.mk "c1" "Alice" "0300" 3 100 in
  In entry (customersWithDues Scenario.rentedOut)
  /\ PrimFloat.ltb 0 (Due.dueAmount entry) = true
  /\ exists c,
      In c (customers Scenario.rentedOut)
      /\ entry = toDue Scenario.rentedOut c
      /\ exists r, In r (rentals Scenario.rentedOut)
                   /\ Rental.customerId r = Customer.id c
                   /\ Rental.isPaid r = false.
Proof.
  intros entry.
  assert (H : In entry (customersWithDues Scenario.rentedOut))
    by (left; reflexivity).
  split; [exact H|].
  exact (with_dues_lists_debtors_only Scenario.rentedOut entry H).
Defined.

(** ** [GET /users/me] *)

(** X28. Whatever the request carries, [GET /users/me] answers with the mock
    administrator that [requireAuth] has put on the request; the 401 of the
    handler is never sent. *)
Theorem me_is_always_the_mock_admin req :
  getMe req
  = MeOk (Me.mk "mock-user-id" "Admin User" "admin@batterymanager.com"
            "admin").
Proof. reflexivity. Qed.

(** ** The arithmetic of JavaScript *)

(** X29. For a customer with at most 200 rentals the engine's arithmetic on
    IEEE doubles gives exactly the rating computed on exact numbers. *)
Theorem rating_on_doubles (l : list (Rental.t * list Payment.t)) :
  l <> [] -> (List.length l <= 200)%nat ->
  F64.creditRatingOf (totalPointsOf l) (List.length l)
  = Some (creditRatingOf (totalPointsOf l) (List.length l)).
Proof.
  intros Hne Hlen. apply creditRating_f64_agrees.
  - destruct l; [congruence | simpl in *; lia].
  - apply totalPointsOf_bounds.
Qed.

Lemma rating_on_doubles_witness :
  let l := [(Scenario.partial_day10, [Scenario.part_payment])] in
  F64.creditRatingOf (totalPointsOf l) (List.length l)
  = Some (creditRatingOf (totalPointsOf l) (List.length l)).
Proof.
  intros l. apply (rating_on_doubles l); [discriminate | simpl; lia].
Defined.


